(** * Medical Insights dashboard (src/App.jsx): parser, filter, aggregates

    A shallow embedding of the [App] component: the CSV parser run by
    the [fetch] handler, [handleFilterChange], the [filteredData],
    [stats], [regionData], [scatterData] and
    [regions]/[smokers]/[sexes] memos, the load effect and the picks
    in the [<select>]s as transitions on the component state, and
    what the component hands to its tree: the option texts, the
    loading text or the cards, points, bars and bar colours.

    Conventions of the embedding.
    - A JavaScript Number is a binary64 float: Rocq's primitive [float],
      whose operations are the IEEE 754 ones the engine uses.
    - A JavaScript string is a [string]; the embedding covers text
      made of ASCII code units (the dataset is ASCII), for which
      [trim], [toUpperCase] and the default sort order are as below.
    - A cell of a record is [undefined], a Number or a string: [value].
    - A record ([entry]) is an object used as a map from column name
      to cell: [gmap string value].  The [groups] object of
      [regionData] is kept as its list of own properties in creation
      order, because [Object.values] depends on that order.
    - Arrays are lists; an array length is a [nat] and is converted
      to a Number where the code divides by it.
    - The engine's Number-to-string conversion (used by [+] on a
      string operand, by property keys and by the default sort) is a
      parameter of the development: [NumberToString].
    - [Object.prototype] is shared by all the runs of a page.  The
      one property of it that the code writes and reads back,
      [Object.prototype.total], is an argument of [regionData] (its
      value when the callback starts; [undefined] on a fresh page),
      and [total_left] is its value when the callback is over. *)

From Stdlib Require Import ZArith Floats Uint63 Lia Bool Ascii.
From stdpp Require Import gmap strings list sorting.

Set Warnings "-inexact-float".

(** ** ECMAScript values *)

Inductive value : Type :=
| VUndefined
| VNumber (n : float)
| VString (s : string).

(** [Boolean(v)]: [undefined], [""], [0], [-0] and [NaN] are falsy. *)
Definition ToBoolean (v : value) : bool :=
  match v with
  | VUndefined => false
  | VNumber n => negb (PrimFloat.is_nan n || PrimFloat.is_zero n)
  | VString s => negb (String.eqb s "")
  end.

(** [a === b] *)
Definition strict_eq (a b : value) : bool :=
  match a, b with
  | VUndefined, VUndefined => true
  | VNumber x, VNumber y => PrimFloat.eqb x y
  | VString s, VString t => String.eqb s t
  | _, _ => false
  end.

(** SameValueZero, the equality of [Set]: like [===] but [NaN] equals
    itself. *)
Definition SameValueZero (a b : value) : bool :=
  match a, b with
  | VNumber x, VNumber y =>
      PrimFloat.eqb x y || (PrimFloat.is_nan x && PrimFloat.is_nan y)
  | _, _ => strict_eq a b
  end.

(** ** Strings *)

(** [s.trim()] removes white space and line terminators at both ends. *)
Fixpoint trimStart (s : string) : string :=
  match s with
  | String c s' => if Ascii.is_space c then trimStart s' else s
  | EmptyString => EmptyString
  end.

Fixpoint trimEnd (s : string) : string :=
  match s with
  | String c s' =>
      let t := trimEnd s' in
      if Ascii.is_space c && String.eqb t "" then EmptyString else String c t
  | EmptyString => EmptyString
  end.

Definition trim (s : string) : string := trimEnd (trimStart s).

(** [s.split(sep)] for a one-character separator: never empty. *)
Fixpoint split (sep : ascii) (s : string) : list string :=
  match s with
  | EmptyString => [EmptyString]
  | String c s' =>
      if Ascii.eqb c sep then EmptyString :: split sep s'
      else match split sep s' with
           | h :: t => String c h :: t
           | [] => [String c EmptyString]
           end
  end.

(** [s.charAt(0)] and [s.slice(1)] *)
Definition charAt0 (s : string) : string :=
  match s with
  | String c _ => String c EmptyString
  | EmptyString => EmptyString
  end.

Definition slice1 (s : string) : string :=
  match s with
  | String _ s' => s'
  | EmptyString => EmptyString
  end.

Definition upper_ascii (c : ascii) : ascii :=
  let n := N_of_ascii c in
  if ((97 <=? n) && (n <=? 122))%N then ascii_of_N (n - 32) else c.

Fixpoint toUpperCase (s : string) : string :=
  match s with
  | String c s' => String (upper_ascii c) (toUpperCase s')
  | EmptyString => EmptyString
  end.

(** ** Numeric literals: [Number(s)], [isNaN(s)], [parseFloat(s)] *)

Definition is_digit (c : ascii) : bool :=
  let n := N_of_ascii c in ((48 <=? n) && (n <=? 57))%N.

Definition digit_val (c : ascii) : Z := Z.of_N (N_of_ascii c) - 48.

(** The longest run of decimal digits at the head of [s]: the value
    accumulated onto [acc], the number of digits, and the rest. *)
Fixpoint scan_digits (acc : Z) (n : Z) (s : string) : Z * Z * string :=
  match s with
  | String c s' =>
      if is_digit c then scan_digits (10 * acc + digit_val c) (n + 1) s'
      else (acc, n, s)
  | EmptyString => (acc, n, s)
  end.

(** ExponentPart, when present and well formed: [e] or [E], an optional
    sign, at least one digit.  Otherwise nothing is consumed. *)
Definition scan_exponent (s : string) : Z * string :=
  match s with
  | String c s' =>
      if Ascii.eqb c "e" || Ascii.eqb c "E" then
        let '(neg, s'') :=
          match s' with
          | String "+" t => (false, t)
          | String "-" t => (true, t)
          | _ => (false, s')
          end in
        let '(v, n, rest) := scan_digits 0 0 s'' in
        if (n =? 0)%Z then (0%Z, s) else ((if neg then - v else v)%Z, rest)
      else (0%Z, s)
  | EmptyString => (0%Z, s)
  end.

(** The mathematical value of a decimal literal: [Infinity], or
    [dmant * 10 ^ dexp]. *)
Inductive udecimal : Type :=
| DInfinity
| DFinite (dmant dexp : Z).

Fixpoint string_prefix (p s : string) : option string :=
  match p, s with
  | EmptyString, _ => Some s
  | String a p', String b s' => if Ascii.eqb a b then string_prefix p' s' else None
  | String _ _, EmptyString => None
  end.

(** The longest prefix of [s] that is a StrUnsignedDecimalLiteral. *)
Definition scan_unsigned_decimal (s : string) : option (udecimal * string) :=
  match string_prefix "Infinity" s with
  | Some rest => Some (DInfinity, rest)
  | None =>
      let '(ip, ni, s1) := scan_digits 0 0 s in
      match s1 with
      | String "." s2 =>
          let '(m, nf, s3) := scan_digits ip 0 s2 in
          if ((ni =? 0) && (nf =? 0))%Z then None
          else let '(e, s4) := scan_exponent s3 in Some (DFinite m (e - nf), s4)
      | _ =>
          if (ni =? 0)%Z then None
          else let '(e, s4) := scan_exponent s1 in Some (DFinite ip e, s4)
      end
  end.

(** The longest prefix that is a StrDecimalLiteral, with its sign. *)
Definition scan_decimal (s : string) : option (bool * udecimal * string) :=
  let '(neg, s') :=
    match s with
    | String "+" t => (false, t)
    | String "-" t => (true, t)
    | _ => (false, s)
    end in
  match scan_unsigned_decimal s' with
  | Some (d, rest) => Some (neg, d, rest)
  | None => None
  end.

(** The Number nearest to [num / den] in absolute value (ties to
    even), with sign [neg]: the IEEE 754 division of the specification
    floats, which takes integers of any size. *)
Definition round_ratio (neg : bool) (num den : Z) : float :=
  match num, den with
  | Zpos n, Zpos d =>
      SF2Prim (SFdiv prec emax (S754_finite neg n 0) (S754_finite false d 0))
  | _, _ => if neg then PrimFloat.neg_zero else PrimFloat.zero
  end.

Definition decimal_value (neg : bool) (d : udecimal) : float :=
  match d with
  | DInfinity => if neg then PrimFloat.neg_infinity else PrimFloat.infinity
  | DFinite m e =>
      if (0 <=? e)%Z then round_ratio neg (m * 10 ^ e) 1
      else round_ratio neg m (10 ^ (- e))
  end.

(** NonDecimalIntegerLiteral: [0x], [0o] or [0b] and at least one
    digit of that radix, nothing else. *)
Definition radix_digit (radix : Z) (c : ascii) : option Z :=
  let n := Z.of_N (N_of_ascii c) in
  let v :=
    if ((48 <=? n) && (n <=? 57))%Z then Some (n - 48)%Z
    else if ((97 <=? n) && (n <=? 102))%Z then Some (n - 87)%Z
    else if ((65 <=? n) && (n <=? 70))%Z then Some (n - 55)%Z
    else None in
  match v with
  | Some d => if (d <? radix)%Z then Some d else None
  | None => None
  end.

Fixpoint scan_radix (radix acc : Z) (s : string) : option Z :=
  match s with
  | EmptyString => Some acc
  | String c s' =>
      match radix_digit radix c with
      | Some d => scan_radix radix (radix * acc + d) s'
      | None => None
      end
  end.

Definition scan_non_decimal (s : string) : option Z :=
  match s with
  | String "0" (String p (String c s' as ds)) =>
      if Ascii.eqb p "x" || Ascii.eqb p "X" then scan_radix 16 0 ds
      else if Ascii.eqb p "o" || Ascii.eqb p "O" then scan_radix 8 0 ds
      else if Ascii.eqb p "b" || Ascii.eqb p "B" then scan_radix 2 0 ds
      else None
  | _ => None
  end.

(** StringToNumber: white space is trimmed, the empty string is [0],
    a string that is not a StringNumericLiteral is [NaN]. *)
Definition StringToNumber (s : string) : float :=
  let t := trim s in
  if String.eqb t "" then PrimFloat.zero
  else match scan_non_decimal t with
       | Some n => round_ratio false n 1
       | None =>
           match scan_decimal t with
           | Some (neg, d, EmptyString) => decimal_value neg d
           | _ => PrimFloat.nan
           end
       end.

(** [parseFloat(s)]: the value of the longest StrDecimalLiteral prefix
    after leading white space, [NaN] when there is none. *)
Definition parseFloat (s : string) : float :=
  match scan_decimal (trimStart s) with
  | Some (neg, d, _) => decimal_value neg d
  | None => PrimFloat.nan
  end.

Definition ToNumber (v : value) : float :=
  match v with
  | VUndefined => PrimFloat.nan
  | VNumber n => n
  | VString s => StringToNumber s
  end.

(** [isNaN(v)] converts its argument with ToNumber first. *)
Definition isNaN (v : value) : bool := PrimFloat.is_nan (ToNumber v).

(** [isFinite(v)] *)
Definition isFinite (v : value) : bool := PrimFloat.is_finite (ToNumber v).

(** An array length as a Number. *)
Definition Number_of_nat (n : nat) : float :=
  PrimFloat.of_uint63 (Uint63.of_Z (Z.of_nat n)).

(** ** Records and the parser (the [fetch] handler, lines 22-36) *)

(** A record: the [entry] object, from column name to cell. *)
Abbreviation entry := (gmap string value).

(** [item.region], [item.smoker], [item.sex], [item.charges]: an absent
    own property reads [undefined] ([Object.prototype] has none of
    these four names). *)
Definition get (item : entry) (k : string) : value :=
  default VUndefined (item !! k).

(** [entry[h] = val].  The name [__proto__] is an accessor inherited
    from [Object.prototype]; given a primitive it stores nothing. *)
Definition set_property (o : entry) (h : string) (val : value) : entry :=
  if String.eqb h "__proto__" then o else <[h := val]> o.

(** [let val = values[i]?.trim();
     if (val && !isNaN(val)) val = parseFloat(val);]
    where [values[i]] is [None] past the end of the row. *)
Definition parse_cell (cell : option string) : value :=
  match trim <$> cell with
  | None => VUndefined
  | Some val =>
      if ToBoolean (VString val) && negb (isNaN (VString val))
      then VNumber (parseFloat val)
      else VString val
  end.

(** [headers.forEach((h, i) => { ... entry[h] = val; })] from index [i]. *)
Fixpoint forEach_header (headers : list string) (i : nat)
    (values : list string) (o : entry) : entry :=
  match headers with
  | [] => o
  | h :: hs =>
      forEach_header hs (S i) values (set_property o h (parse_cell (values !! i)))
  end.

(** The callback of [lines.slice(1).map]: [null] for a blank line. *)
Definition parse_line (headers : list string) (line : string) : option entry :=
  if negb (ToBoolean (VString (trim line))) then None
  else
    let values := split "," line in
    Some (forEach_header headers 0 values ∅).

(** [parsed]: the records of a CSV text. *)
Definition parsed (text : string) : list entry :=
  match split "010" (trim text) with
  | [] => []
  | line0 :: rest =>
      let headers := map trim (split "," line0) in
      omap (parse_line headers) rest
  end.

(** ** The filter engine ([filteredData], lines 46-52) *)

(** The [filters] state.  Its fields hold the literal ['all'] or the
    [value] of a [<select>], which is always a string. *)
Record Filters : Type := { region : string; smoker : string; sex : string }.

Definition passes (filters : Filters) (item : entry) : bool :=
  (String.eqb (region filters) "all"
   || strict_eq (get item "region") (VString (region filters)))
  && (String.eqb (smoker filters) "all"
      || strict_eq (get item "smoker") (VString (smoker filters)))
  && (String.eqb (sex filters) "all"
      || strict_eq (get item "sex") (VString (sex filters))).

Definition filteredData (data : list entry) (filters : Filters) : list entry :=
  List.filter (passes filters) data.

(** Arrays are objects: [data.filter] reads the array at reference
    [a] and allocates its result.  The store maps references to
    array contents. *)
Abbreviation store := (list (list entry)).

Definition Array_filter (p : entry -> bool) (a : nat) (h : store) : nat * store :=
  (length h, h ++ [List.filter p (default [] (h !! a))]).

Definition filteredData_in (a : nat) (filters : Filters) (h : store) : nat * store :=
  Array_filter (passes filters) a h.

(** ** Dynamic operators, which need the Number-to-string conversion *)

Section Dashboard.

Variable NumberToString : float -> string.

Definition ToString (v : value) : string :=
  match v with
  | VUndefined => "undefined"
  | VNumber n => NumberToString n
  | VString s => s
  end.

(** [a + b]: concatenation as soon as one operand is a string. *)
Definition js_add (a b : value) : value :=
  match a, b with
  | VString _, _ | _, VString _ => VString (ToString a +:+ ToString b)
  | _, _ => VNumber (ToNumber a + ToNumber b)
  end.

(** [a / b]: always a Number. *)
Definition js_div (a b : value) : float := (ToNumber a / ToNumber b)%float.

(** ** Summary statistics ([stats], lines 55-64) *)

Record Stats : Type := { count : nat; avgCharge : float; smokerPct : float }.

Definition totalCharges (filteredData : list entry) : value :=
  fold_left (fun sum item => js_add sum (get item "charges")) filteredData
    (VNumber 0).

Definition smokers_of (filteredData : list entry) : nat :=
  length (List.filter (fun item => strict_eq (get item "smoker") (VString "yes"))
            filteredData).

Definition stats (filteredData : list entry) : Stats :=
  if Nat.eqb (length filteredData) 0 then
    {| count := 0; avgCharge := 0; smokerPct := 0 |}
  else
    {| count := length filteredData;
       avgCharge :=
         js_div (totalCharges filteredData)
           (VNumber (Number_of_nat (length filteredData)));
       smokerPct :=
         (Number_of_nat (smokers_of filteredData)
          / Number_of_nat (length filteredData) * 100)%float |}.

(** ** Averages by region ([regionData], lines 67-78) *)

(** A member of [groups]: [{ region, total, count }].  [count] only
    ever holds a small whole Number: a [nat]. *)
Record group : Type := { g_region : value; total : value; g_count : nat }.

(** The names every object inherits from [Object.prototype]; each is
    a function or an object, hence truthy. *)
Definition Object_prototype_names : list string :=
  ["constructor"; "__defineGetter__"; "__defineSetter__"; "hasOwnProperty";
   "__lookupGetter__"; "__lookupSetter__"; "isPrototypeOf";
   "propertyIsEnumerable"; "toString"; "valueOf"; "__proto__";
   "toLocaleString"].

Definition inherited (k : string) : bool :=
  existsb (String.eqb k) Object_prototype_names.

(** The [groups] object while the [forEach] runs: its own properties
    in creation order, and the one slot of [Object.prototype] the loop
    can write and later read back, [Object.prototype.total] (written
    through [groups["__proto__"].total += ...]; the [count] written
    beside it is [NaN], which reads as falsy like [undefined]).
    [Object.prototype] belongs to the page, not to the call: what one
    run of the callback writes there, the next run finds. *)
Record groups_state : Type :=
  { own : list (string * group); proto_total : value }.

Fixpoint own_get (l : list (string * group)) (k : string) : option group :=
  match l with
  | [] => None
  | (k', g) :: l' => if String.eqb k k' then Some g else own_get l' k
  end.

Fixpoint own_alter (f : group -> group) (k : string)
    (l : list (string * group)) : list (string * group) :=
  match l with
  | [] => []
  | (k', g) :: l' =>
      if String.eqb k k' then (k', f g) :: l' else (k', g) :: own_alter f k l'
  end.

(** Is [groups[k]] truthy?  An own member is an object; otherwise the
    lookup continues on [Object.prototype]. *)
Definition groups_truthy (st : groups_state) (k : string) : bool :=
  match own_get (own st) k with
  | Some _ => true
  | None => inherited k || (String.eqb k "total" && ToBoolean (proto_total st))
  end.

(** One turn of the [forEach] callback; [None] is a [TypeError]. *)
Definition add_item (st : groups_state) (item : entry) : option groups_state :=
  let r := get item "region" in
  let k := ToString r in
  let c := get item "charges" in
  (* if (!groups[item.region]) groups[item.region] = { ... }; *)
  let st1 :=
    if groups_truthy st k then st
    else {| own := own st ++ [(k, {| g_region := r; total := VNumber 0; g_count := 0 |})];
            proto_total := proto_total st |} in
  (* groups[item.region].total += item.charges;
     groups[item.region].count += 1; *)
  match own_get (own st1) k with
  | Some _ =>
      Some {| own :=
                own_alter
                  (fun g => {| g_region := g_region g;
                               total := js_add (total g) c;
                               g_count := S (g_count g) |})
                  k (own st1);
              proto_total := proto_total st1 |}
  | None =>
      if inherited k then
        (* the writes land on the inherited member, not on [groups] *)
        Some (if String.eqb k "__proto__"
              then {| own := own st1;
                      proto_total := js_add (proto_total st1) c |}
              else st1)
      else
        (* [groups.total] read an inherited string: writing a
           property of a primitive throws in module code *)
        None
  end.

(** How the loop ends: at its end, with the [groups] built, or at a
    [TypeError]; [Object.prototype.total] is as the loop leaves it in
    both cases. *)
Inductive looped : Type :=
| Done (st : groups_state)
| Thrown (proto : value).

Fixpoint forEach_item (st : groups_state) (items : list entry) : looped :=
  match items with
  | [] => Done st
  | item :: rest =>
      match add_item st item with
      | Some st' => forEach_item st' rest
      | None => Thrown (proto_total st)
      end
  end.

(** [groups] starts empty, under the page's [Object.prototype], whose
    [total] is [proto] when the callback starts: [undefined] on a
    fresh page. *)
Definition groups_of (proto : value) (filteredData : list entry) : looped :=
  forEach_item {| own := []; proto_total := proto |} filteredData.

(** Array indices: the canonical decimal strings of [0 .. 2^32 - 2].
    [Object.values] lists the members under such keys first, in
    increasing order, then the others in creation order. *)
Fixpoint all_digits (s : string) : bool :=
  match s with
  | EmptyString => true
  | String c s' => is_digit c && all_digits s'
  end.

Definition array_index (k : string) : option Z :=
  match k with
  | EmptyString => None
  | String c s' =>
      if all_digits k && (negb (Ascii.eqb c "0") || String.eqb s' "") then
        let '(v, _, _) := scan_digits 0 0 k in
        if (v <=? 4294967294)%Z then Some v else None
      else None
  end.

Fixpoint insert_index (x : Z * group) (l : list (Z * group)) : list (Z * group) :=
  match l with
  | [] => [x]
  | y :: l' => if (fst x <=? fst y)%Z then x :: l else y :: insert_index x l'
  end.

Definition indexed (l : list (string * group)) : list (Z * group) :=
  omap (fun kg => match array_index (fst kg) with
                  | Some i => Some (i, snd kg)
                  | None => None
                  end) l.

Definition named (l : list (string * group)) : list (string * group) :=
  List.filter (fun kg => match array_index (fst kg) with
                         | Some _ => false
                         | None => true
                         end) l.

Definition Object_values (l : list (string * group)) : list group :=
  map snd (fold_right insert_index [] (indexed l)) ++ map snd (named l).

(** An element of [regionData]: [{ name, avgCharge }]. *)
Record bar : Type := { name : string; bar_avgCharge : float }.

(** [g.region.charAt(0).toUpperCase() + g.region.slice(1)] *)
Definition capitalize (s : string) : string :=
  toUpperCase (charAt0 s) +:+ slice1 s.

(** The [map] callback; [charAt] of a Number or of [undefined] is a
    [TypeError]. *)
Definition bar_of (g : group) : option bar :=
  match g_region g with
  | VString s =>
      Some {| name := capitalize s;
              bar_avgCharge :=
                js_div (total g) (VNumber (Number_of_nat (g_count g))) |}
  | _ => None
  end.

(** The callback of the [regionData] memo, run on a page whose
    [Object.prototype.total] is [proto]: what it returns ([None] for a
    [TypeError]) ... *)
Definition regionData (proto : value) (filteredData : list entry)
    : option (list bar) :=
  match groups_of proto filteredData with
  | Done st => mapM bar_of (Object_values (own st))
  | Thrown _ => None
  end.

(** ... and the [Object.prototype.total] it leaves to the next run. *)
Definition total_left (proto : value) (filteredData : list entry) : value :=
  match groups_of proto filteredData with
  | Done st => proto_total st
  | Thrown p => p
  end.

(** ** Dropdown options ([regions], [smokers], [sexes], lines 89-91) *)

(** The default comparison of [sort]: [undefined] last, the others by
    their strings in code-unit order.  [sort_after x y] says that [x]
    must come after [y]. *)
Definition sort_after (x y : value) : bool :=
  match x, y with
  | _, VUndefined => false
  | VUndefined, _ => true
  | _, _ => String.ltb (ToString y) (ToString x)
  end.

Fixpoint sort_insert (x : value) (l : list value) : list value :=
  match l with
  | [] => [x]
  | y :: l' => if sort_after x y then y :: sort_insert x l' else x :: l
  end.

(** [l.sort()]: stable. *)
Definition sort (l : list value) : list value := fold_right sort_insert [] l.

(** [[...new Set(l)]]: first occurrences, in order. *)
Definition Set_add (acc : list value) (v : value) : list value :=
  if existsb (SameValueZero v) acc then acc else acc ++ [v].

Definition Set_values (l : list value) : list value := fold_left Set_add l [].

Definition options (column : string) (data : list entry) : list value :=
  VString "all"
  :: Set_values (sort (List.filter ToBoolean (map (fun d => get d column) data))).

Definition regions (data : list entry) : list value := options "region" data.
Definition smokers (data : list entry) : list value := options "smoker" data.
Definition sexes (data : list entry) : list value := options "sex" data.

End Dashboard.

(** ** The component state and the load effect (lines 11-40) *)

Record AppState : Type :=
  { data : list entry;
    loading : bool;
    filters : Filters;
    console_error : list (string * string) }.

(** The [useState] initial values; nothing logged yet. *)
Definition initial : AppState :=
  {| data := [];
     loading := true;
     filters := {| region := "all"; smoker := "all"; sex := "all" |};
     console_error := [] |}.

(** How the promise chain of the effect settles. *)
Inductive settled : Type :=
| Fulfilled (text : string)
| Rejected (err : string).

(** The second [then] handler on fulfilment, the [catch] handler on
    rejection. *)
Definition on_settled (r : settled) (st : AppState) : AppState :=
  match r with
  | Fulfilled text =>
      {| data := parsed text;
         loading := false;
         filters := filters st;
         console_error := console_error st |}
  | Rejected err =>
      {| data := data st;
         loading := loading st;
         filters := filters st;
         console_error := console_error st ++ [("Failed to load data", err)] |}
  end.

(** ** Changing the selection ([handleFilterChange], lines 42-44) *)

(** [setFilters(prev => ({ ...prev, [key]: value }))].  The three
    [onChange] handlers call it with the keys ['region'], ['smoker']
    and ['sex']; under another key the new object only gains a
    property that nothing reads. *)
Definition handleFilterChange (key val : string) (prev : Filters) : Filters :=
  if String.eqb key "region" then
    {| region := val; smoker := smoker prev; sex := sex prev |}
  else if String.eqb key "smoker" then
    {| region := region prev; smoker := val; sex := sex prev |}
  else if String.eqb key "sex" then
    {| region := region prev; smoker := smoker prev; sex := val |}
  else prev.

(** What happens to the component: the promise of the effect settles,
    or the user picks [val] in the [<select>] of [key]. *)
Inductive event : Type :=
| Load (r : settled)
| Change (key val : string).

Definition dispatch (st : AppState) (e : event) : AppState :=
  match e with
  | Load r => on_settled r st
  | Change key val =>
      {| data := data st;
         loading := loading st;
         filters := handleFilterChange key val (filters st);
         console_error := console_error st |}
  end.

Definition run (st : AppState) (events : list event) : AppState :=
  fold_left dispatch events st.

(** ** Points of the scatter chart ([scatterData], lines 80-86) *)

(** [{ ...item, fill: item.smoker === 'yes' ? '#ef4444' : '#3b82f6' }] *)
Definition scatter_point (item : entry) : entry :=
  <["fill" := VString (if strict_eq (get item "smoker") (VString "yes")
                       then "#ef4444" else "#3b82f6")]> item.

Definition scatterData (filteredData : list entry) : list entry :=
  map scatter_point filteredData.

(** ** Colours of the bars (lines 8 and 211-213) *)

Definition COLORS : list string := ["#3b82f6"; "#06b6d4"; "#8b5cf6"; "#ec4899"].

(** [COLORS[index % COLORS.length]] *)
Definition cell_fill (index : nat) : value :=
  match COLORS !! (index mod length COLORS) with
  | Some c => VString c
  | None => VUndefined
  end.

(** [regionData.map((entry, index) => <Cell fill={...} />)] *)
Definition cell_fills (regionData : list bar) : list value :=
  imap (fun index _ => cell_fill index) regionData.

(** ** What the component renders (lines 93-224) *)

(** The text of an [<option>].  [r.charAt] is a [TypeError] ([None])
    when [r] is not a string. *)
Definition region_option (r : value) : option string :=
  if strict_eq r (VString "all") then Some "All Regions"
  else match r with
       | VString s => Some (capitalize s)
       | _ => None
       end.

Definition smoker_option (s : value) : string :=
  if strict_eq s (VString "all") then "All Statuses"
  else if strict_eq s (VString "yes") then "Smoker" else "Non-Smoker".

Definition sex_option (s : value) : option string :=
  if strict_eq s (VString "all") then Some "All Genders"
  else match s with
       | VString t => Some (capitalize t)
       | _ => None
       end.

(** Below the header: the loading text, or the three cards (as the
    [stats] they format), the points of the scatter chart and the
    bars of the bar chart with their colours. *)
Inductive body : Type :=
| Loading_text
| Charts (cards : Stats) (points : list entry) (bars : list bar)
    (fills : list value).

Record page : Type :=
  { region_options : list string;
    smoker_options : list string;
    sex_options : list string;
    page_body : body }.

Section Rendering.

Variable NumberToString : float -> string.

(** One run of the component function on a state, on a page whose
    [Object.prototype.total] is [proto]: the memos, then the returned
    tree.  [None] when an expression evaluated on the way throws.
    The run leaves [total_left proto] of the filtered records on
    [Object.prototype]. *)
Definition App (proto : value) (st : AppState) : option page :=
  let fd := filteredData (data st) (filters st) in
  match regionData NumberToString proto fd,
        mapM region_option (regions NumberToString (data st)),
        mapM sex_option (sexes NumberToString (data st)) with
  | Some bars, Some rs, Some ss =>
      Some {| region_options := rs;
              smoker_options := map smoker_option (smokers NumberToString (data st));
              sex_options := ss;
              page_body :=
                if loading st then Loading_text
                else Charts (stats NumberToString fd) (scatterData fd) bars
                       (cell_fills bars) |}
  | _, _, _ => None
  end.

End Rendering.

(** ** Notions used to state the properties *)

(** One dimension of the selection accepts a cell: no constraint, or
    the cell is that very string. *)
Definition dimension_ok (selection : string) (cell : value) : Prop :=
  selection = "all" \/ cell = VString selection.

Definition selected (f : Filters) (item : entry) : Prop :=
  dimension_ok (region f) (get item "region")
  /\ dimension_ok (smoker f) (get item "smoker")
  /\ dimension_ok (sex f) (get item "sex").

(** The sum of a sequence of Numbers, added from [0] in order. *)
Definition fsum (l : list float) : float := fold_left PrimFloat.add l 0%float.

(** Whether a cell is a given string is decidable. *)
#[global] Instance value_is_string_dec (v : value) (s : string) :
  Decision (v = VString s).
Proof.
  destruct v as [|n|t]; try (right; discriminate).
  destruct (decide (t = s)) as [->|Hne]; [left; reflexivity|right; congruence].
Defined.

(** The number of records whose [smoker] cell is the string ["yes"]. *)
Definition yes_count (l : list entry) : nat :=
  length (filter (fun item => get item "smoker" = VString "yes") l).

Definition starts_clean (s : string) : Prop :=
  match s with
  | String c _ => Ascii.is_space c = false
  | EmptyString => True
  end.

Definition newline : string := String "010" EmptyString.

Definition example_csv : string :=
  "age,sex,bmi,children,smoker,region,charges" +:+ newline
  +:+ "19,female,27.9,0,yes,southwest,16884.92" +:+ newline
  +:+ "18,male,33.77,1,no,southeast,1725.55" +:+ newline
  +:+ "28,male,33.0,3,no,southeast,4449.46".

Definition no_filter : Filters :=
  {| region := "all"; smoker := "all"; sex := "all" |}.

Definition example_row (age : float) (sex : string) (bmi children : float)
    (smoker region : string) (charges : float) : entry :=
  <["age" := VNumber age]> (<["sex" := VString sex]> (<["bmi" := VNumber bmi]>
  (<["children" := VNumber children]> (<["smoker" := VString smoker]>
  (<["region" := VString region]> (<["charges" := VNumber charges]> ∅)))))).

(** StrNumericLiteral, for a trimmed non-empty text: a [0x], [0o] or
    [0b] integer, or a decimal literal (digits with an optional
    fraction and exponent, or [Infinity]) with an optional sign, and
    nothing after it. *)
Definition numeric_literal (t : string) : bool :=
  match scan_non_decimal t with
  | Some _ => true
  | None =>
      match scan_decimal t with
      | Some (_, _, EmptyString) => true
      | _ => false
      end
  end.

(** The order of [sort] on defined values: by string, in code-unit
    order. *)
Definition key_le (NumberToString : float -> string) (a b : value) : Prop :=
  String.le (ToString NumberToString a) (ToString NumberToString b).

(** The rows of a typed sequence: each record's region string and
    charges Number. *)
Definition typed_rows (fd : list entry) (rows : list (string * float)) : Prop :=
  Forall2 (fun item rc =>
             get item "region" = VString (fst rc)
             /\ get item "charges" = VNumber (snd rc)) fd rows.

(** The distinct members of a list, in order of first occurrence. *)
Fixpoint first_occurrences (l : list string) : list string :=
  match l with
  | [] => []
  | x :: l' => x :: List.filter (fun y => negb (String.eqb y x)) (first_occurrences l')
  end.

(** The charges of the rows of region [r], in order. *)
Definition charges_in (r : string) (rows : list (string * float)) : list float :=
  map snd (List.filter (fun rc => String.eqb (fst rc) r) rows).

Definition group_for (rows : list (string * float)) (r : string) : group :=
  {| g_region := VString r;
     total := VNumber (fsum (charges_in r rows));
     g_count := length (charges_in r rows) |}.

Definition bar_for (rows : list (string * float)) (r : string) : bar :=
  {| name := capitalize r;
     bar_avgCharge :=
       (fsum (charges_in r rows)
        / Number_of_nat (length (charges_in r rows)))%float |}.

(** The regions that get a group: those that are not names inherited
    from [Object.prototype]. *)
Definition grouped (rs : list string) : list string :=
  first_occurrences (List.filter (fun r => negb (inherited r)) rs).

(** [Object.prototype.total] on a page that has only added Numbers
    to it: [undefined] (a fresh page), then [NaN]; both are falsy. *)
Definition proto_ok (p : value) : Prop :=
  p = VUndefined \/ exists x, p = VNumber x /\ PrimFloat.is_nan x = true.

(** The rows cannot meet a truthy [Object.prototype.total]: the page
    has only added Numbers to it, or no region is "total". *)
Definition safe_page (proto : value) (rows : list (string * float)) : Prop :=
  proto_ok proto \/ Forall (fun rc => fst rc <> "total") rows.

Definition own_for (rows : list (string * float)) : list (string * group) :=
  map (fun k => (k, group_for rows k)) (grouped (map fst rows)).

Definition constructor_csv : string :=
  "age,sex,bmi,children,smoker,region,charges" +:+ newline
  +:+ "19,female,27.9,0,yes,constructor,16884.92" +:+ newline
  +:+ "18,male,33.77,1,no,southeast,1725.55".

(** The sizes of the groups that [Object.values(groups)] lists. *)
Definition group_sizes (NumberToString : float -> string) (proto : value)
    (fd : list entry) : option (list nat) :=
  match groups_of NumberToString proto fd with
  | Done st => Some (map g_count (Object_values (own st)))
  | Thrown _ => None
  end.

(** A dataset whose regions are numeric codes. *)
Definition coded_csv : string :=
  "region,charges" +:+ newline +:+ "1,250.5".

Definition example_rows : list (string * float) :=
  [("southwest", 16884.92%float); ("southeast", 1725.55%float);
   ("southeast", 4449.46%float)].

Fixpoint sum_list (l : list nat) : nat :=
  match l with
  | [] => 0
  | n :: l' => n + sum_list l'
  end.

(** A text with Windows line ends: a carriage return before every
    line feed. *)
Fixpoint crlf (s : string) : string :=
  match s with
  | EmptyString => EmptyString
  | String c s' =>
      if Ascii.eqb c "010" then String "013" (String "010" (crlf s'))
      else String c (crlf s')
  end.

(** White space only. *)
Fixpoint blank (s : string) : bool :=
  match s with
  | EmptyString => true
  | String c s' => Ascii.is_space c && blank s'
  end.

(** Whether a character occurs in a text. *)
Fixpoint occurs (c : ascii) (s : string) : bool :=
  match s with
  | EmptyString => false
  | String c' s' => Ascii.eqb c' c || occurs c s'
  end.

(** The column that a key of the selection constrains. *)
Definition dimension (key : string) : Prop :=
  key = "region" \/ key = "smoker" \/ key = "sex".

(** The points drawn in the smokers' colour. *)
Definition red_points (points : list entry) : nat :=
  length (filter (fun pt => get pt "fill" = VString "#ef4444") points).

(** The values picked for [key] by a series of events, in order. *)
Definition picks (key : string) (events : list event) : list string :=
  omap (fun e => match e with
                 | Change k v => if String.eqb k key then Some v else None
                 | Load _ => None
                 end) events.

(** The field of the selection that [key] names. *)
Definition selection_of (key : string) (f : Filters) : string :=
  if String.eqb key "region" then region f
  else if String.eqb key "smoker" then smoker f
  else sex f.

(** A series of picks in the [<select>]s. *)
Definition changes (cs : list (string * string)) : list event :=
  map (fun kv => Change (fst kv) (snd kv)) cs.

(** The one-character text holding a carriage return. *)
Definition carriage_return : string := String "013" EmptyString.

(** A file whose second row has an empty charges cell. *)
Definition blank_charge_csv : string :=
  "region,charges" +:+ newline +:+ "a,7" +:+ newline +:+ "a," +:+ newline +:+ "a,7".

(** A first row of region [__proto__] with a charge that is no number,
    then a row of region [total]; and the same rows the other way
    round. *)
Definition proto_total_csv : string :=
  "smoker,region,charges" +:+ newline +:+ "yes,__proto__,abc" +:+ newline
  +:+ "no,total,2".

Definition total_proto_csv : string :=
  "smoker,region,charges" +:+ newline +:+ "yes,total,2" +:+ newline
  +:+ "no,__proto__,abc".

(** A file whose second row stops before the charges. *)
Definition short_row_csv : string :=
  "region,charges" +:+ newline +:+ "north,10" +:+ newline +:+ "south".

Local Open Scope Z_scope.

(** One right shift, and [k] of them, on a record with a
    non-negative mantissa. *)
Definition exact_record (mrs : shr_record) : Prop :=
  shr_r mrs = false /\ shr_s mrs = false.

Definition shifted (k : Z) (x y : shr_record) : Prop :=
  0 <= shr_m x ->
  shr_m y = shr_m x / 2 ^ k
  /\ (exact_record x -> shr_m x mod 2 ^ k = 0 -> exact_record y).

(** A mantissa with its location is at most [U]: strictly below, or
    exactly [U]. *)
Definition below (U m : Z) (l : location) : Prop :=
  m < U \/ (m = U /\ l = loc_Exact).

Definition signed_as (sx : bool) (x : spec_float) : Prop :=
  match x with
  | S754_zero s | S754_infinity s | S754_finite s _ _ => s = sx
  | S754_nan => False
  end.

(** A specification float in [[0, 1]]: zero, or a positive mantissa at
    a non-positive exponent whose value is at most one. *)
Definition unit_interval (x : spec_float) : Prop :=
  match x with
  | S754_zero s => s = false
  | S754_finite s m e => s = false /\ e <= 0 /\ Z.pos m <= 2 ^ (- e)
  | _ => False
  end.

Definition at_most_100 (x : spec_float) : Prop :=
  match x with
  | S754_zero s => s = false
  | S754_finite s m e =>
      s = false /\ e <= -46 /\ Z.pos m <= 7036874417766400 * 2 ^ (-46 - e)
  | _ => False
  end.

(** A non-negative specification float: a zero, a positive finite
    number or [+Infinity]. *)
Definition nonneg_sf (x : spec_float) : Prop :=
  match x with
  | S754_zero _ => True
  | S754_infinity s | S754_finite s _ _ => s = false
  | S754_nan => False
  end.

Local Close Scope Z_scope.

(** * Properties *)

(** ** The filter engine *)

Lemma String_eqb_true (s t : string) : String.eqb s t = true <-> s = t.
Proof. apply String.eqb_eq. Qed.

Lemma String_eqb_false (s t : string) : String.eqb s t = false <-> s <> t.
Proof. apply String.eqb_neq. Qed.

Lemma strict_eq_string (v : value) (s : string) :
  strict_eq v (VString s) = true <-> v = VString s.
Proof.
  destruct v as [|n|t]; simpl; split; try discriminate.
  - intros H. apply String_eqb_true in H. now subst.
  - intros [= ->]. now apply String_eqb_true.
Qed.

Lemma dimension_ok_iff (sel : string) (v : value) :
  String.eqb sel "all" || strict_eq v (VString sel) = true <-> dimension_ok sel v.
Proof.
  unfold dimension_ok.
  rewrite orb_true_iff, String_eqb_true, strict_eq_string. tauto.
Qed.

Lemma passes_selected (f : Filters) (item : entry) :
  passes f item = true <-> selected f item.
Proof.
  unfold passes, selected.
  rewrite !andb_true_iff, !dimension_ok_iff. tauto.
Qed.

Lemma filter_sublist {A : Type} (p : A -> bool) (l : list A) :
  sublist (List.filter p l) l.
Proof.
  induction l as [|x l IH]; simpl.
  - constructor.
  - destruct (p x); now constructor.
Qed.

Lemma filter_all {A : Type} (p : A -> bool) (l : list A) :
  (forall x, x ∈ l -> p x = true) -> List.filter p l = l.
Proof.
  induction l as [|x l IH]; intros H; simpl; [reflexivity|].
  rewrite (H x) by left. f_equal. apply IH. intros y Hy. apply H. now right.
Qed.

(** C2.  The output of the filter engine holds exactly the records of
    the input that every dimension of the selection accepts; it is a
    subsequence of the input, in the input's order; and the array
    object that was filtered still has its contents afterwards, the
    result being a new array. *)
Theorem filteredData_selects (d : list entry) (f : Filters) :
  (forall item, item ∈ filteredData d f <-> item ∈ d /\ selected f item)
  /\ sublist (filteredData d f) d
  /\ (forall (h : store) (a : nat),
        h !! a = Some d ->
        snd (filteredData_in a f h) !! a = Some d
        /\ snd (filteredData_in a f h) !! fst (filteredData_in a f h)
           = Some (filteredData d f)
        /\ fst (filteredData_in a f h) <> a).
Proof.
  split; [|split].
  - intros item. unfold filteredData.
    rewrite !list_elem_of_In, filter_In, passes_selected. tauto.
  - apply filter_sublist.
  - intros h a Ha. unfold filteredData_in, Array_filter. simpl.
    pose proof (lookup_lt_Some _ _ _ Ha) as Hlt.
    split; [|split].
    + rewrite lookup_app_l by exact Hlt. exact Ha.
    + rewrite lookup_app_r by lia. rewrite Nat.sub_diag, Ha. reflexivity.
    + lia.
Qed.

(** ** Summary statistics *)

Section StatsProperties.

Variable NumberToString : float -> string.

Lemma js_add_numbers (x y : float) :
  js_add NumberToString (VNumber x) (VNumber y) = VNumber (x + y)%float.
Proof. reflexivity. Qed.

(** On Number charges the dynamic [+] of the reduction is float
    addition, whatever the accumulator it starts from. *)
Lemma reduce_charges_numbers (fd : list entry) (cs : list float) (acc : float) :
  (fun item => get item "charges") <$> fd = VNumber <$> cs ->
  fold_left (fun sum item => js_add NumberToString sum (get item "charges")) fd
    (VNumber acc)
  = VNumber (fold_left PrimFloat.add cs acc).
Proof.
  revert cs acc. induction fd as [|item fd IH]; intros [|c cs] acc H;
    try discriminate.
  - reflexivity.
  - rewrite !fmap_cons in H. injection H as Hc Hrest.
    cbn [fold_left]. rewrite Hc, js_add_numbers. now apply IH.
Qed.

Lemma smokers_of_yes_count (fd : list entry) : smokers_of fd = yes_count fd.
Proof.
  unfold smokers_of, yes_count. f_equal.
  induction fd as [|item fd IH]; [reflexivity|].
  simpl. rewrite filter_cons.
  destruct (strict_eq (get item "smoker") (VString "yes")) eqn:E.
  - apply strict_eq_string in E. rewrite decide_True by exact E. now f_equal.
  - rewrite decide_False; [exact IH|].
    intros Hy. apply strict_eq_string in Hy. congruence.
Qed.

Lemma stats_smokerPct (fd : list entry) :
  fd <> [] ->
  smokerPct (stats NumberToString fd)
  = (Number_of_nat (yes_count fd) / Number_of_nat (length fd) * 100)%float.
Proof.
  unfold stats. destruct fd as [|item fd]; [contradiction|]. intros _.
  cbn [length Nat.eqb smokerPct]. now rewrite smokers_of_yes_count.
Qed.

Lemma stats_avgCharge (fd : list entry) (cs : list float) :
  fd <> [] ->
  (fun item => get item "charges") <$> fd = VNumber <$> cs ->
  avgCharge (stats NumberToString fd)
  = (fsum cs / Number_of_nat (length fd))%float.
Proof.
  unfold stats. destruct fd as [|item fd]; [contradiction|]. intros _ Hcs.
  cbn [length Nat.eqb avgCharge]. unfold js_div, totalCharges, fsum.
  rewrite (reduce_charges_numbers (item :: fd) cs 0%float Hcs). reflexivity.
Qed.

(** C1, as the code has it.  The aggregator returns [count] = the
    length of the sequence; on the empty sequence the three results
    are the Number [0]; on a non-empty one [smokerPct] is (records
    whose smoker cell is "yes") / count * 100 and [avgCharge] is the
    [+]-reduction of the charges from [0], divided by count: when
    the charges are Numbers [cs], their sum / count. *)
Theorem stats_aggregates (fd : list entry) :
  count (stats NumberToString fd) = length fd
  /\ (fd = [] ->
      stats NumberToString fd
      = {| count := 0; avgCharge := 0; smokerPct := 0 |})
  /\ (fd <> [] ->
      smokerPct (stats NumberToString fd)
      = (Number_of_nat (yes_count fd) / Number_of_nat (length fd) * 100)%float
      /\ avgCharge (stats NumberToString fd)
         = js_div (totalCharges NumberToString fd)
             (VNumber (Number_of_nat (length fd)))
      /\ forall cs : list float,
          (fun item => get item "charges") <$> fd = VNumber <$> cs ->
          avgCharge (stats NumberToString fd)
          = (fsum cs / Number_of_nat (length fd))%float).
Proof.
  split; [|split].
  - unfold stats. now destruct fd.
  - intros ->. reflexivity.
  - intros Hne. split; [now apply stats_smokerPct|]. split.
    + unfold stats. destruct fd; [contradiction|reflexivity].
    + intros cs Hcs. now apply stats_avgCharge.
Qed.

End StatsProperties.

Lemma totalCharges_cells (NumberToString : float -> string) (fd : list entry) :
  totalCharges NumberToString fd
  = fold_left (js_add NumberToString) (map (fun item => get item "charges") fd)
      (VNumber 0).
Proof.
  unfold totalCharges. generalize (VNumber 0).
  induction fd as [|item fd IH]; intros acc; [reflexivity|]. cbn. apply IH.
Qed.

(** "averageCharge = sum / count" fails when a charges cell holds no
    number: on the parsed rows with charges 7, "" and 7 the reduction
    is 0 + 7 = 7, then 7 + "" = "7", then "7" + 7 = "77", and the
    average is 77 / 3, not (7 + 0 + 7) / 3, whatever conversion of
    Numbers to strings writes 7 as "7". *)
Lemma stats_average_not_sum :
  ~ (exists NumberToString : float -> string,
        NumberToString 7%float = "7"
        /\ avgCharge (stats NumberToString (parsed blank_charge_csv))
           = (fsum (map (fun item => ToNumber (get item "charges"))
                      (parsed blank_charge_csv))
              / Number_of_nat (length (parsed blank_charge_csv)))%float).
Proof.
  intros (N & H7 & H).
  assert (Hcells : map (fun item => get item "charges") (parsed blank_charge_csv)
                   = [VNumber 7; VString ""; VNumber 7])
    by (vm_compute; exact eq_refl).
  assert (Hlen : length (parsed blank_charge_csv) = 3)
    by (vm_compute; exact eq_refl).
  assert (Hne : parsed blank_charge_csv <> [])
    by (intros E; rewrite E in Hlen; discriminate).
  assert (Havg : avgCharge (stats N (parsed blank_charge_csv)) = (77 / 3)%float).
  { unfold stats. destruct (parsed blank_charge_csv) as [|item fd] eqn:E;
      [contradiction|].
    cbn [length Nat.eqb avgCharge]. rewrite totalCharges_cells, Hcells.
    change (length (item :: fd)) with (length (item :: fd)).
    replace (S (length fd)) with 3 by (cbn [length] in Hlen; lia).
    cbn [fold_left js_add ToString ToNumber].
    change (0 + 7)%float with 7%float. rewrite H7.
    vm_compute. exact eq_refl. }
  rewrite Havg in H.
  replace (map (fun item => ToNumber (get item "charges")) (parsed blank_charge_csv))
    with (map ToNumber (map (fun item => get item "charges") (parsed blank_charge_csv)))
    in H by (rewrite map_map; reflexivity).
  rewrite Hcells, Hlen in H.
  apply (f_equal (fun x => PrimFloat.eqb x (77 / 3)%float)) in H.
  vm_compute in H. discriminate.
Qed.

(** ** The load effect *)

(** The success path clears the loading flag. *)
Lemma fulfilled_clears_loading (text : string) (st : AppState) :
  loading (on_settled (Fulfilled text) st) = false
  /\ data (on_settled (Fulfilled text) st) = parsed text.
Proof. split; reflexivity. Qed.

(** C5.  After a failed load from the initial state the failure has
    been logged once and the dataset is still empty, but the loading
    flag is still set: the [catch] handler never calls
    [setLoading(false)]. *)
Theorem rejected_load_state (err : string) :
  on_settled (Rejected err) initial
  = {| data := [];
       loading := true;
       filters := {| region := "all"; smoker := "all"; sex := "all" |};
       console_error := [("Failed to load data", err)] |}.
Proof. reflexivity. Qed.

(** ** The three-row scenario *)

Lemma example_parsed :
  parsed example_csv
  = [example_row 19 "female" 27.9 0 "yes" "southwest" 16884.92;
     example_row 18 "male" 33.77 1 "no" "southeast" 1725.55;
     example_row 28 "male" 33.0 3 "no" "southeast" 4449.46].
Proof. vm_compute. exact eq_refl. Qed.

(** C7, as the code has it.  The example text parses to 3 records;
    unfiltered, [count] is 3, [avgCharge] is
    (16884.92 + 1725.55 + 4449.46) / 3, [smokerPct] is (1 / 3) * 100
    in binary64, and the regional averages are 16884.92 for Southwest
    and (1725.55 + 4449.46) / 2 for Southeast, whatever earlier runs
    left on [Object.prototype]. *)
Theorem example_scenario (NumberToString : float -> string) (proto : value) :
  length (parsed example_csv) = 3
  /\ filteredData (parsed example_csv) no_filter = parsed example_csv
  /\ stats NumberToString (filteredData (parsed example_csv) no_filter)
     = {| count := 3;
          avgCharge := ((16884.92 + 1725.55 + 4449.46) / 3)%float;
          smokerPct := (1 / 3 * 100)%float |}
  /\ regionData NumberToString proto (filteredData (parsed example_csv) no_filter)
     = Some [ {| name := "Southwest"; bar_avgCharge := 16884.92%float |};
              {| name := "Southeast";
                 bar_avgCharge := ((1725.55 + 4449.46) / 2)%float |} ].
Proof.
  split; [|split; [|split]].
  - vm_compute. exact eq_refl.
  - apply filter_all. intros item _. exact eq_refl.
  - vm_compute. exact eq_refl.
  - vm_compute. exact eq_refl.
Qed.

(** [smokerPct] is not the Number [100 / 3]: in binary64
    (1 / 3) * 100 is 33.33333333333333, the Number just below
    100 / 3 = 33.333333333333336. *)
Lemma example_smokerPct_not_100_over_3 :
  smokerPct (stats (fun _ => EmptyString)
               (filteredData (parsed example_csv) no_filter))
  <> (100 / 3)%float
  /\ smokerPct (stats (fun _ => EmptyString)
                  (filteredData (parsed example_csv) no_filter))
     = 33.33333333333333%float
  /\ PrimFloat.next_up 33.33333333333333%float = (100 / 3)%float.
Proof.
  split; [|split; vm_compute; reflexivity].
  intros H.
  apply (f_equal (fun x => PrimFloat.eqb x (100 / 3)%float)) in H.
  vm_compute in H. discriminate.
Qed.

(** ** Dropdown options *)

(** [SameValueZero] on truthy values is equality. *)
Lemma eqb_nonzero_eq (x y : float) :
  PrimFloat.eqb x y = true -> PrimFloat.is_zero x = false -> x = y.
Proof.
  unfold PrimFloat.is_zero. rewrite !FloatAxioms.eqb_spec. intros Hxy Hz.
  apply Prim2SF_inj.
  assert (Hzero : Prim2SF PrimFloat.zero = S754_zero false) by reflexivity.
  rewrite Hzero in Hz. clear Hzero.
  unfold SFeqb in *.
  destruct (Prim2SF x) as [sx|sx| |sx mx ex], (Prim2SF y) as [sy|sy| |sy my ey];
    simpl in *; try discriminate.
  all: try (destruct sx, sy; simpl in *; try discriminate; try reflexivity).
  all: destruct (ex ?= ey)%Z eqn:Ee; try discriminate;
    apply Z.compare_eq in Ee; subst ey;
    destruct (Pos.compare_cont Eq mx my) eqn:Em; try discriminate;
    apply Pos.compare_eq in Em; now subst my.
Qed.

Lemma SameValueZero_refl (v : value) : SameValueZero v v = true.
Proof.
  destruct v as [|x|s]; simpl.
  - reflexivity.
  - unfold PrimFloat.is_nan. now destruct (PrimFloat.eqb x x).
  - now apply String_eqb_true.
Qed.

Lemma SameValueZero_truthy (v w : value) :
  ToBoolean v = true -> SameValueZero v w = true -> v = w.
Proof.
  destruct v as [|x|s], w as [|y|t]; simpl; try discriminate.
  - intros Ht H. apply negb_true_iff, orb_false_iff in Ht as [Hn Hz].
    rewrite Hn in H. simpl in H. rewrite orb_false_r in H.
    f_equal. now apply eqb_nonzero_eq.
  - intros _ H. apply String_eqb_true in H. now subst.
Qed.

Section OptionsProperties.

Variable NumberToString : float -> string.

Let key := ToString NumberToString.

Lemma ltb_not_leb (s t : string) : String.ltb s t = negb (String.leb t s).
Proof.
  unfold String.ltb, String.leb. rewrite (String.compare_antisym s t).
  destruct (String.compare t s); reflexivity.
Qed.

Lemma sort_after_defined (x y : value) :
  ToBoolean x = true -> ToBoolean y = true ->
  sort_after NumberToString x y = negb (String.leb (key x) (key y)).
Proof.
  intros Hx Hy. destruct x, y; try discriminate; simpl; apply ltb_not_leb.
Qed.

Lemma key_le_trans (a b c : value) : key_le NumberToString a b -> key_le NumberToString b c -> key_le NumberToString a c.
Proof. unfold key_le. intros H1 H2. now transitivity (ToString NumberToString b). Qed.

Lemma sort_insert_elem (x v : value) (l : list value) :
  v ∈ sort_insert NumberToString x l <-> v = x \/ v ∈ l.
Proof.
  induction l as [|y l IH]; simpl.
  - rewrite list_elem_of_singleton, elem_of_nil. tauto.
  - destruct (sort_after NumberToString x y).
    + rewrite !elem_of_cons, IH. tauto.
    + rewrite !elem_of_cons. tauto.
Qed.

Lemma sort_elem (v : value) (l : list value) :
  v ∈ sort NumberToString l <-> v ∈ l.
Proof.
  unfold sort. induction l as [|x l IH]; simpl; [reflexivity|].
  rewrite sort_insert_elem, elem_of_cons, IH. reflexivity.
Qed.

Lemma sort_insert_sorted (x : value) (l : list value) :
  ToBoolean x = true -> Forall (fun v => ToBoolean v = true) l ->
  StronglySorted (key_le NumberToString) l ->
  StronglySorted (key_le NumberToString) (sort_insert NumberToString x l).
Proof.
  intros Hx. induction l as [|y l IH]; intros Hl Hs; simpl.
  - repeat constructor.
  - apply Forall_cons in Hl as [Hy Hl].
    apply StronglySorted_inv in Hs as [Hs Hyl].
    rewrite sort_after_defined by assumption.
    destruct (String.leb (key x) (key y)) eqn:E; simpl.
    + assert (Hxy : key_le NumberToString x y) by (unfold key_le, String.le; fold key; now rewrite E).
      constructor; [now constructor|].
      constructor; [exact Hxy|].
      eapply Forall_impl; [exact Hyl|]. intros z Hz. now apply key_le_trans with y.
    + assert (Hyx : key_le NumberToString y x).
      { unfold key_le, String.le. fold key.
        destruct (String.leb_total (key x) (key y)) as [H|H]; [congruence|].
        now rewrite H. }
      constructor; [now apply IH|].
      apply Forall_forall. intros z Hz. apply sort_insert_elem in Hz as [->|Hz].
      * exact Hyx.
      * rewrite Forall_forall in Hyl. now apply Hyl.
Qed.

Lemma sort_sorted (l : list value) :
  Forall (fun v => ToBoolean v = true) l ->
  StronglySorted (key_le NumberToString) (sort NumberToString l).
Proof.
  induction l as [|x l IH]; intros Hl.
  - constructor.
  - apply Forall_cons in Hl as [Hx Hl].
    change (sort NumberToString (x :: l))
      with (sort_insert NumberToString x (sort NumberToString l)).
    apply sort_insert_sorted.
    + exact Hx.
    + apply Forall_forall. intros v Hv. rewrite sort_elem in Hv.
      rewrite Forall_forall in Hl. now apply Hl.
    + now apply IH.
Qed.

Lemma existsb_SameValueZero (v : value) (acc : list value) :
  ToBoolean v = true ->
  existsb (SameValueZero v) acc = true <-> v ∈ acc.
Proof.
  intros Hv. rewrite existsb_exists. split.
  - intros [w [Hw Hs]]. apply SameValueZero_truthy in Hs; [|exact Hv].
    subst w. now apply list_elem_of_In.
  - intros Hin. exists v. split; [now apply list_elem_of_In|].
    apply SameValueZero_refl.
Qed.

(** [Set] insertion from an accumulator: what is appended is a
    subsequence of the input, holds every new value once. *)
Lemma Set_values_from (l acc : list value) :
  Forall (fun v => ToBoolean v = true) l ->
  NoDup acc ->
  exists l',
    fold_left Set_add l acc = acc ++ l'
    /\ sublist l' l
    /\ NoDup (acc ++ l')
    /\ (forall v, v ∈ l -> v ∈ acc ++ l').
Proof.
  revert acc. induction l as [|x l IH]; intros acc Hl Hacc; simpl.
  - exists []. rewrite app_nil_r. repeat split; try assumption.
    + constructor.
    + intros v Hv. now apply elem_of_nil in Hv.
  - apply Forall_cons in Hl as [Hx Hl]. unfold Set_add at 2.
    destruct (existsb (SameValueZero x) acc) eqn:E.
    + apply existsb_SameValueZero in E; [|exact Hx].
      destruct (IH acc Hl Hacc) as (l' & Heq & Hsub & Hnd & Hin).
      exists l'. repeat split; try assumption.
      * now apply sublist_cons.
      * intros v Hv. apply elem_of_cons in Hv as [->|Hv].
        -- apply elem_of_app. now left.
        -- now apply Hin.
    + assert (Hx' : x ∉ acc).
      { intros Hin. apply existsb_SameValueZero in Hin; [congruence|exact Hx]. }
      assert (Hacc' : NoDup (acc ++ [x])).
      { apply NoDup_app. repeat split; [exact Hacc| |apply NoDup_singleton].
        intros y Hy Hy'. apply list_elem_of_singleton in Hy'. now subst y. }
      destruct (IH (acc ++ [x]) Hl Hacc') as (l' & Heq & Hsub & Hnd & Hin).
      exists (x :: l'). rewrite Heq, <- !app_assoc. simpl.
      repeat split.
      * now apply sublist_skip.
      * now rewrite <- app_assoc in Hnd.
      * intros v Hv. apply elem_of_cons in Hv as [->|Hv].
        -- apply elem_of_app. right. now left.
        -- specialize (Hin v Hv). now rewrite <- app_assoc in Hin.
Qed.

Lemma StronglySorted_sublist_key (l1 l2 : list value) :
  sublist l1 l2 -> StronglySorted (key_le NumberToString) l2 -> StronglySorted (key_le NumberToString) l1.
Proof.
  intros Hsub. induction Hsub as [|x l1 l2 Hsub IH|x l1 l2 Hsub IH]; intros Hs.
  - constructor.
  - apply StronglySorted_inv in Hs as [Hs Hx]. constructor; [now apply IH|].
    apply Forall_forall. intros z Hz. rewrite Forall_forall in Hx.
    apply Hx. eapply elem_of_sublist; eassumption.
  - apply StronglySorted_inv in Hs as [Hs _]. now apply IH.
Qed.

(** C6.  Each option list is ["all"] followed by the truthy values of
    the column: every one of them, each once, in the order of their
    strings; on the three-row example the region options are
    ["all"; "southeast"; "southwest"]. *)
Theorem options_sorted_distinct (column : string) (d : list entry) :
  (exists l : list value,
      options NumberToString column d = VString "all" :: l
      /\ (forall v, v ∈ l <->
                    ToBoolean v = true
                    /\ exists item, item ∈ d /\ get item column = v)
      /\ NoDup l
      /\ StronglySorted (key_le NumberToString) l)
  /\ regions NumberToString d = options NumberToString "region" d
  /\ smokers NumberToString d = options NumberToString "smoker" d
  /\ sexes NumberToString d = options NumberToString "sex" d
  /\ regions NumberToString (parsed example_csv)
     = [VString "all"; VString "southeast"; VString "southwest"].
Proof.
  split; [|repeat split; vm_compute; reflexivity].
  unfold options, Set_values.
  set (col := List.filter ToBoolean (map (fun item => get item column) d)).
  assert (Hcol : Forall (fun v => ToBoolean v = true) col).
  { apply Forall_forall. intros v Hv. apply list_elem_of_In, filter_In in Hv. tauto. }
  assert (Hsorted : Forall (fun v => ToBoolean v = true) (sort NumberToString col)).
  { apply Forall_forall. intros v Hv. rewrite sort_elem in Hv.
    rewrite Forall_forall in Hcol. now apply Hcol. }
  destruct (Set_values_from (sort NumberToString col) [] Hsorted (NoDup_nil_2))
    as (l & Heq & Hsub & Hnd & Hin).
  simpl in Heq, Hnd, Hin. exists l. rewrite Heq.
  split; [reflexivity|]. split; [|split].
  - intros v. split.
    + intros Hv. eapply elem_of_sublist in Hv; [|exact Hsub].
      rewrite sort_elem in Hv. apply list_elem_of_In, filter_In in Hv as [Hm Ht].
      split; [exact Ht|]. apply in_map_iff in Hm as (item & Hg & Hi).
      exists item. split; [now apply list_elem_of_In|exact Hg].
    + intros [Ht (item & Hi & Hg)]. apply Hin, sort_elem.
      apply list_elem_of_In, filter_In. split; [|exact Ht].
      apply in_map_iff. exists item. split; [exact Hg|now apply list_elem_of_In].
  - exact Hnd.
  - eapply StronglySorted_sublist_key; [exact Hsub|]. now apply sort_sorted.
Qed.

End OptionsProperties.

(** ** Averages by region *)

Lemma first_occurrences_elem (k : string) (l : list string) :
  k ∈ first_occurrences l <-> k ∈ l.
Proof.
  induction l as [|x l IH]; simpl; [reflexivity|].
  rewrite !elem_of_cons, list_elem_of_In, filter_In, <- list_elem_of_In, IH.
  rewrite negb_true_iff, String_eqb_false.
  destruct (decide (k = x)); tauto.
Qed.

Lemma filter_NoDup {A : Type} (p : A -> bool) (l : list A) :
  NoDup l -> NoDup (List.filter p l).
Proof. intros H. eapply sublist_NoDup; [exact H|apply filter_sublist]. Qed.

Lemma first_occurrences_NoDup (l : list string) : NoDup (first_occurrences l).
Proof.
  induction l as [|x l IH]; simpl; constructor.
  - rewrite list_elem_of_In, filter_In, negb_true_iff, String_eqb_false. tauto.
  - now apply filter_NoDup.
Qed.

Lemma first_occurrences_snoc (l : list string) (x : string) :
  first_occurrences (l ++ [x])
  = if decide (x ∈ l) then first_occurrences l else first_occurrences l ++ [x].
Proof.
  induction l as [|y l IH].
  - destruct (decide (x ∈ [])) as [H|_]; [now apply elem_of_nil in H|reflexivity].
  - cbn [app first_occurrences]. rewrite IH.
    destruct (decide (x ∈ l)) as [Hin|Hnin].
    + destruct (decide (x ∈ y :: l)) as [_|H]; [reflexivity|].
      exfalso. apply H. now right.
    + rewrite List.filter_app. cbn [List.filter].
      destruct (String.eqb x y) eqn:E; cbn [negb].
      * apply String_eqb_true in E. subst y.
        destruct (decide (x ∈ x :: l)) as [_|H]; [now rewrite app_nil_r|].
        exfalso. apply H. left.
      * apply String_eqb_false in E.
        destruct (decide (x ∈ y :: l)) as [H|_]; [|reflexivity].
        apply elem_of_cons in H as [->|H]; [now contradict E|contradiction].
Qed.

Lemma fsum_snoc (l : list float) (c : float) : fsum (l ++ [c]) = (fsum l + c)%float.
Proof. unfold fsum. now rewrite fold_left_app. Qed.

Lemma charges_in_snoc (k r : string) (c : float) (rows : list (string * float)) :
  charges_in k (rows ++ [(r, c)])
  = charges_in k rows ++ (if String.eqb r k then [c] else []).
Proof.
  unfold charges_in. rewrite List.filter_app, map_app. simpl.
  now destruct (String.eqb r k).
Qed.

Lemma charges_in_absent (k : string) (rows : list (string * float)) :
  k ∉ map fst rows -> charges_in k rows = [].
Proof.
  unfold charges_in. induction rows as [|[r c] rows IH]; simpl; [reflexivity|].
  intros H. apply not_elem_of_cons in H as [Hne Hr].
  destruct (String.eqb r k) eqn:E.
  - apply String_eqb_true in E. congruence.
  - now apply IH.
Qed.

Lemma group_for_other (k r : string) (c : float) (rows : list (string * float)) :
  k <> r -> group_for (rows ++ [(r, c)]) k = group_for rows k.
Proof.
  intros Hne. unfold group_for. rewrite charges_in_snoc.
  assert (E : String.eqb r k = false) by (apply String_eqb_false; congruence).
  now rewrite E, app_nil_r.
Qed.

Lemma own_get_map (f : string -> group) (ks : list string) (k : string) :
  own_get (map (fun k' => (k', f k')) ks) k
  = if decide (k ∈ ks) then Some (f k) else None.
Proof.
  induction ks as [|k' ks IH].
  - destruct (decide (k ∈ [])) as [H|_]; [now apply elem_of_nil in H|reflexivity].
  - cbn [map own_get]. destruct (String.eqb k k') eqn:E.
    + apply String_eqb_true in E. subst k'.
      destruct (decide (k ∈ k :: ks)) as [_|H]; [reflexivity|].
      exfalso. apply H. left.
    + apply String_eqb_false in E. rewrite IH.
      destruct (decide (k ∈ ks)) as [Hin|Hnin].
      * destruct (decide (k ∈ k' :: ks)) as [_|H]; [reflexivity|].
        exfalso. apply H. now right.
      * destruct (decide (k ∈ k' :: ks)) as [H|_]; [|reflexivity].
        apply elem_of_cons in H as [->|H]; [now contradict E|contradiction].
Qed.

Lemma own_alter_map (h : group -> group) (f f' : string -> group)
    (ks : list string) (k : string) :
  NoDup ks -> k ∈ ks ->
  f' k = h (f k) -> (forall k', k' <> k -> f' k' = f k') ->
  own_alter h k (map (fun k' => (k', f k')) ks) = map (fun k' => (k', f' k')) ks.
Proof.
  intros Hnd Hin Hk Hother. induction ks as [|k' ks IH]; simpl.
  - now apply elem_of_nil in Hin.
  - apply NoDup_cons in Hnd as [Hk' Hnd].
    destruct (String.eqb k k') eqn:E.
    + apply String_eqb_true in E. subst k'. rewrite Hk. f_equal.
      apply map_ext_in. intros a Ha. rewrite Hother; [reflexivity|].
      intros ->. apply Hk'. now apply list_elem_of_In.
    + apply String_eqb_false in E. rewrite Hother by congruence. f_equal.
      apply IH; [exact Hnd|].
      apply elem_of_cons in Hin as [->|Hin]; [now contradict E|exact Hin].
Qed.

Lemma is_nan_Prim2SF (x : float) : PrimFloat.is_nan x = true -> Prim2SF x = S754_nan.
Proof. intros H. unfold Prim2SF. now rewrite H. Qed.

Lemma Prim2SF_is_nan (x : float) : Prim2SF x = S754_nan -> PrimFloat.is_nan x = true.
Proof.
  intros H. unfold PrimFloat.is_nan. now rewrite FloatAxioms.eqb_spec, H.
Qed.

Lemma nan_add (x c : float) :
  PrimFloat.is_nan x = true -> PrimFloat.is_nan (x + c) = true.
Proof.
  intros H. apply Prim2SF_is_nan. rewrite FloatAxioms.add_spec, (is_nan_Prim2SF x H).
  reflexivity.
Qed.

Lemma proto_ok_falsy (p : value) : proto_ok p -> ToBoolean p = false.
Proof.
  intros [->|(x & -> & Hx)]; [reflexivity|]. simpl. now rewrite Hx.
Qed.

Section RegionProperties.

Variable NumberToString : float -> string.

Lemma proto_ok_add (p : value) (c : float) :
  proto_ok p -> proto_ok (js_add NumberToString p (VNumber c)).
Proof.
  intros [->|(x & -> & Hx)]; right; eexists; (split; [reflexivity|]).
  - now apply nan_add.
  - now apply nan_add.
Qed.

Lemma own_get_snoc (l : list (string * group)) (k : string) (g : group) :
  own_get l k = None -> own_get (l ++ [(k, g)]) k = Some g.
Proof.
  induction l as [|[k' g'] l IH]; simpl.
  - intros _. now rewrite String.eqb_refl.
  - destruct (String.eqb k k'); [discriminate|exact IH].
Qed.

Lemma own_alter_snoc (h : group -> group) (l : list (string * group))
    (k : string) (g : group) :
  own_get l k = None -> own_alter h k (l ++ [(k, g)]) = l ++ [(k, h g)].
Proof.
  induction l as [|[k' g'] l IH]; simpl.
  - intros _. now rewrite String.eqb_refl.
  - destruct (String.eqb k k'); [discriminate|]. intros H. now rewrite IH.
Qed.

Lemma grouped_not_inherited (k : string) (rs : list string) :
  k ∈ grouped rs <-> k ∈ rs /\ inherited k = false.
Proof.
  unfold grouped.
  rewrite first_occurrences_elem, list_elem_of_In, filter_In, <- list_elem_of_In.
  now rewrite negb_true_iff.
Qed.

Lemma grouped_snoc (rs : list string) (r : string) :
  grouped (rs ++ [r])
  = if inherited r then grouped rs
    else if decide (r ∈ grouped rs) then grouped rs else grouped rs ++ [r].
Proof.
  unfold grouped. rewrite List.filter_app. cbn [List.filter].
  destruct (inherited r); cbn [negb].
  - now rewrite app_nil_r.
  - rewrite first_occurrences_snoc.
    destruct (decide (r ∈ List.filter (fun r0 => negb (inherited r0)) rs)) as [H|H];
      destruct (decide (r ∈ first_occurrences
                              (List.filter (fun r0 => negb (inherited r0)) rs)))
        as [H'|H']; try reflexivity.
    + exfalso. apply H'. rewrite first_occurrences_elem. exact H.
    + exfalso. apply H. rewrite first_occurrences_elem in H'. exact H'.
Qed.

(** One turn of the loop on a typed record, when
    [Object.prototype.total] is falsy or the region is not "total". *)
Lemma add_item_typed (rows : list (string * float)) (st : groups_state)
    (item : entry) (r : string) (c : float) :
  own st = own_for rows ->
  proto_ok (proto_total st) \/ r <> "total" ->
  get item "region" = VString r ->
  get item "charges" = VNumber c ->
  exists st',
    add_item NumberToString st item = Some st'
    /\ own st' = own_for (rows ++ [(r, c)])
    /\ (proto_ok (proto_total st) -> proto_ok (proto_total st')).
Proof.
  destruct st as [o p]. cbn [own proto_total]. intros -> Hsafe Hr Hc.
  unfold add_item. rewrite Hr, Hc. cbn [ToString].
  unfold groups_truthy. cbn [own proto_total].
  assert (Hfalsy : String.eqb r "total" && ToBoolean p = false).
  { destruct Hsafe as [Hp|Hne].
    - now rewrite (proto_ok_falsy _ Hp), andb_false_r.
    - apply String_eqb_false in Hne. now rewrite Hne. }
  rewrite Hfalsy, orb_false_r.
  assert (Hget : own_get (own_for rows) r
                 = if decide (r ∈ grouped (map fst rows))
                   then Some (group_for rows r) else None)
    by apply own_get_map.
  assert (Hkeys : own_for (rows ++ [(r, c)])
                  = map (fun k => (k, group_for (rows ++ [(r, c)]) k))
                      (if inherited r then grouped (map fst rows)
                       else if decide (r ∈ grouped (map fst rows))
                            then grouped (map fst rows)
                            else grouped (map fst rows) ++ [r])).
  { unfold own_for. rewrite map_app. cbn [map fst]. now rewrite grouped_snoc. }
  rewrite Hkeys. clear Hkeys. rewrite Hget.
  destruct (decide (r ∈ grouped (map fst rows))) as [Hin|Hnin].
  - pose proof (proj1 (grouped_not_inherited _ _) Hin) as [_ Hni].
    rewrite Hni. cbn [own proto_total]. rewrite Hget.
    eexists. split; [reflexivity|]. cbn [own proto_total]. split; [|tauto].
    unfold own_for. apply own_alter_map.
    + apply first_occurrences_NoDup.
    + exact Hin.
    + unfold group_for. rewrite charges_in_snoc, String.eqb_refl.
      rewrite fsum_snoc, length_app. cbn [g_region total g_count length].
      rewrite js_add_numbers. f_equal. lia.
    + intros k Hk. now apply group_for_other.
  - destruct (inherited r) eqn:Hi.
    + cbn [own]. rewrite Hget.
      eexists. split; [reflexivity|].
      destruct (String.eqb r "__proto__"); cbn [own proto_total].
      all: split; [|try tauto; try (intros Hp; now apply proto_ok_add)].
      all: unfold own_for; apply map_ext_in; intros k Hk; f_equal;
        symmetry; apply group_for_other; intros ->;
        apply list_elem_of_In, grouped_not_inherited in Hk as [_ Hk]; congruence.
    + cbn [own proto_total].
      rewrite own_get_snoc by exact Hget.
      eexists. split; [reflexivity|]. cbn [own proto_total]. split; [|tauto].
      rewrite own_alter_snoc by exact Hget.
      unfold own_for. rewrite map_app. cbn [map]. f_equal.
      * apply map_ext_in. intros k Hk. f_equal. symmetry.
        apply group_for_other. intros ->. apply Hnin. now apply list_elem_of_In.
      * f_equal. f_equal. unfold group_for.
        rewrite charges_in_snoc, String.eqb_refl.
        rewrite (charges_in_absent r rows).
        -- reflexivity.
        -- intros Hr'. apply Hnin. apply grouped_not_inherited. now split.
Qed.

Lemma forEach_item_app (st : groups_state) (l1 l2 : list entry) :
  forEach_item NumberToString st (l1 ++ l2)
  = match forEach_item NumberToString st l1 with
    | Done st' => forEach_item NumberToString st' l2
    | Thrown p => Thrown p
    end.
Proof.
  revert st. induction l1 as [|x l1 IH]; intros st; simpl; [reflexivity|].
  destruct (add_item NumberToString st x); [apply IH|reflexivity].
Qed.

(** The [groups] object after the loop, on typed records: on a page
    that has only added Numbers to [Object.prototype.total], or when
    no region is "total". *)
Lemma groups_of_typed (proto : value) (fd : list entry)
    (rows : list (string * float)) :
  safe_page proto rows ->
  typed_rows fd rows ->
  exists st,
    groups_of NumberToString proto fd = Done st
    /\ own st = own_for rows
    /\ (proto_ok proto -> proto_ok (proto_total st)).
Proof.
  unfold groups_of. revert rows.
  induction fd as [|item fd IH] using rev_ind; intros rows Hp Ht.
  - apply Forall2_nil_inv_l in Ht. subst rows.
    eexists. split; [reflexivity|]. split; [reflexivity|]. tauto.
  - apply Forall2_app_inv_l in Ht as (rows1 & rows2 & H1 & H2 & ->).
    apply Forall2_cons_inv_l in H2 as ([r c] & rows3 & [Hr Hc] & H3 & ->).
    apply Forall2_nil_inv_l in H3. subst rows3.
    assert (Hp1 : safe_page proto rows1).
    { destruct Hp as [Hp|Hp]; [now left|right].
      now apply Forall_app in Hp as [Hp _]. }
    destruct (IH rows1 Hp1 H1) as (st & Hst & Hown & Hproto).
    rewrite forEach_item_app, Hst. cbn [forEach_item].
    assert (Hsafe : proto_ok (proto_total st) \/ r <> "total").
    { destruct Hp as [Hp|Hp]; [left; now apply Hproto|right].
      apply Forall_app in Hp as [_ Hp]. now apply Forall_cons in Hp as [Hp _]. }
    destruct (add_item_typed rows1 st item r c Hown Hsafe Hr Hc)
      as (st' & Hadd & Hown' & Hproto').
    rewrite Hadd. eexists. split; [reflexivity|]. split; [exact Hown'|tauto].
Qed.

Lemma mapM_bar_of (rows : list (string * float)) (ks : list string) :
  mapM bar_of (map (group_for rows) ks)
  = Some (map (bar_for rows) ks).
Proof.
  induction ks as [|k ks IH]; [reflexivity|].
  cbn [map mapM]. rewrite IH. reflexivity.
Qed.

Lemma Object_values_named (l : list (string * group)) :
  Forall (fun kg => array_index (fst kg) = None) l ->
  Object_values l = map snd l.
Proof.
  intros H. unfold Object_values.
  assert (Hi : indexed l = []).
  { unfold indexed. induction H as [|[k g] l Hk _ IH]; [reflexivity|].
    cbn [omap list_omap fst] in *. now rewrite Hk. }
  assert (Hn : named l = l).
  { unfold named. apply filter_all. intros [k g] Hkg.
    rewrite Forall_forall in H. now rewrite (H _ Hkg). }
  now rewrite Hi, Hn.
Qed.

(** On records with string regions, none of them an array index, and
    Number charges, on a page that has only added Numbers to
    [Object.prototype.total] or when no region is "total", the
    entries of [regionData] are those of the grouped regions in order
    of first occurrence. *)
Theorem regionData_first_occurrence_order (proto : value) (fd : list entry)
    (rows : list (string * float)) :
  safe_page proto rows ->
  typed_rows fd rows ->
  Forall (fun rc => array_index (fst rc) = None) rows ->
  regionData NumberToString proto fd
  = Some (map (bar_for rows) (grouped (map fst rows)))
  /\ (Forall (fun rc => inherited (fst rc) = false) rows ->
      grouped (map fst rows) = first_occurrences (map fst rows)).
Proof.
  intros Hp Ht Hidx. split.
  - unfold regionData.
    destruct (groups_of_typed proto fd rows Hp Ht) as (st & -> & Hown & _).
    rewrite Hown. unfold own_for. rewrite Object_values_named.
    + rewrite map_map. cbn [snd]. apply mapM_bar_of.
    + apply Forall_forall. intros [k g] Hkg.
      apply list_elem_of_In, in_map_iff in Hkg as (k' & [= <- <-] & Hk').
      apply list_elem_of_In, grouped_not_inherited in Hk' as [Hk' _].
      apply list_elem_of_In, in_map_iff in Hk' as ([r c] & <- & Hrc).
      rewrite Forall_forall in Hidx. apply (Hidx (r, c)). now apply list_elem_of_In.
  - intros Hni. unfold grouped. f_equal. apply filter_all.
    intros r Hr. apply list_elem_of_In, in_map_iff in Hr as ([r' c] & <- & Hrc).
    rewrite Forall_forall in Hni. apply negb_true_iff.
    apply (Hni (r', c)). now apply list_elem_of_In.
Qed.

End RegionProperties.

(** ** A region named like a member of [Object.prototype] *)

(** C3.  A record whose region is the string "constructor" gets no
    entry: [groups["constructor"]] reads the inherited member, so no
    group is created for it.  Here the records come out of the parser
    with regions "constructor" and "southeast"; only Southeast is
    listed, on a fresh page as on any other. *)
Theorem regionData_misses_constructor (NumberToString : float -> string)
    (proto : value) :
  map (fun item => get item "region") (parsed constructor_csv)
  = [VString "constructor"; VString "southeast"]
  /\ regionData NumberToString proto
       (filteredData (parsed constructor_csv) no_filter)
     = Some [ {| name := "Southeast"; bar_avgCharge := 1725.55%float |} ].
Proof. split; vm_compute; exact eq_refl. Qed.

(** C8.  On the same two records the group sizes add up to 1, not to
    the length 2 of the sequence. *)
Theorem group_sizes_miss_constructor (NumberToString : float -> string)
    (proto : value) :
  length (filteredData (parsed constructor_csv) no_filter) = 2
  /\ group_sizes NumberToString proto
       (filteredData (parsed constructor_csv) no_filter)
     = Some [1].
Proof. split; vm_compute; exact eq_refl. Qed.

(** C10.  With string regions the entries need not come at all: a
    record of region [__proto__] whose charge is no number leaves a
    string on [Object.prototype.total], and a record of region [total]
    then finds [groups["total"]] truthy without a group of its own:
    the [+=] on that string throws.  Within one run, on the rows
    ([__proto__], "abc"), ([total], 2) of a fresh page; and across
    runs, when the rows come the other way round: the first run
    lists Total and leaves the string, and the next run, with the
    smokers selected, throws on the lone [total] row. *)
Theorem regionData_throws_on_total (NumberToString : float -> string) :
  map (fun item => (get item "region", get item "charges")) (parsed proto_total_csv)
  = [(VString "__proto__", VString "abc"); (VString "total", VNumber 2)]
  /\ regionData NumberToString VUndefined
       (filteredData (parsed proto_total_csv) no_filter) = None
  /\ regionData NumberToString VUndefined
       (filteredData (parsed total_proto_csv) no_filter)
     = Some [{| name := "Total"; bar_avgCharge := 2 |}]
  /\ total_left NumberToString VUndefined
       (filteredData (parsed total_proto_csv) no_filter)
     = VString "undefinedabc"
  /\ map (fun item => get item "region")
       (filteredData (parsed total_proto_csv)
          (handleFilterChange "smoker" "yes" no_filter))
     = [VString "total"]
  /\ regionData NumberToString (VString "undefinedabc")
       (filteredData (parsed total_proto_csv)
          (handleFilterChange "smoker" "yes" no_filter)) = None.
Proof. repeat split; vm_compute; exact eq_refl. Qed.

Local Open Scope Z_scope.

(** ** Rounding of the specification floats: bounds *)

Lemma digits2_pos_size (p : positive) : digits2_pos p = Pos.size p.
Proof. induction p as [p IH|p IH|]; simpl; now rewrite ?IH. Qed.

Lemma Zdigits2_bounds (m : Z) :
  0 < m -> 2 ^ (Zdigits2 m - 1) <= m < 2 ^ Zdigits2 m.
Proof.
  destruct m as [|p|p]; try lia. intros _. simpl. rewrite digits2_pos_size.
  pose proof (Pos.size_gt p) as Hgt. pose proof (Pos.size_le p) as Hle.
  assert (H1 : Z.pos (2 ^ Pos.size p) = 2 ^ Z.pos (Pos.size p))
    by now rewrite Pos2Z.inj_pow.
  split.
  - assert (H2 : 2 ^ Z.pos (Pos.size p) = 2 * 2 ^ (Z.pos (Pos.size p) - 1)).
    { rewrite <- Z.pow_succ_r by lia. f_equal. lia. }
    lia.
  - lia.
Qed.

Lemma shifted_1 (x : shr_record) : shifted 1 x (shr_1 x).
Proof.
  destruct x as [m r s]. unfold shifted, exact_record.
  change (2 ^ 1) with 2. simpl. intros Hm.
  destruct m as [|[p|p|]|p]; simpl; try lia.
  - split; [reflexivity|]. intros [-> ->] _. now split.
  - split.
    + rewrite Pos2Z.inj_xI. apply Z.div_unique with 1; lia.
    + intros _ H. rewrite Pos2Z.inj_xI in H.
      rewrite <- (Z.mod_unique (2 * Z.pos p + 1) 2 (Z.pos p) 1) in H; lia.
  - split.
    + rewrite Pos2Z.inj_xO. apply Z.div_unique with 0; lia.
    + intros [-> ->] _. now split.
  - split; [reflexivity|]. intros _ H. discriminate H.
Qed.

Lemma shifted_trans (a b : Z) (x y z : shr_record) :
  0 < a -> 0 < b -> shifted a x y -> shifted b y z -> shifted (a + b) x z.
Proof.
  unfold shifted. intros Ha Hb Hxy Hyz Hm.
  destruct (Hxy Hm) as [Hy Hey].
  assert (Hy0 : 0 <= shr_m y) by (rewrite Hy; apply Z.div_pos; lia).
  destruct (Hyz Hy0) as [Hz Hez].
  assert (Hpow : 2 ^ (a + b) = 2 ^ a * 2 ^ b) by (apply Z.pow_add_r; lia).
  split.
  - rewrite Hz, Hy, Hpow. apply Z.div_div; lia.
  - intros Hex Hmod. rewrite Hpow in Hmod.
    assert (Hpa : 0 < 2 ^ a) by (apply Z.pow_pos_nonneg; lia).
    assert (Hpb : 0 < 2 ^ b) by (apply Z.pow_pos_nonneg; lia).
    apply Z.mod_divide in Hmod; [|lia]. destruct Hmod as [q Hq].
    assert (Hma : shr_m x mod 2 ^ a = 0).
    { apply Z.mod_divide; [lia|]. exists (q * 2 ^ b). lia. }
    apply Hez; [now apply Hey|].
    rewrite Hy. apply Z.mod_divide; [lia|]. exists q.
    rewrite Hq. replace (q * (2 ^ a * 2 ^ b)) with (q * 2 ^ b * 2 ^ a) by ring.
    now rewrite Z.div_mul by lia.
Qed.

Lemma iter_pos_shifted (p : positive) (x : shr_record) :
  shifted (Z.pos p) x (SpecFloat.iter_pos shr_1 p x).
Proof.
  revert x. induction p as [p IH|p IH|]; intros x; simpl.
  - replace (Z.pos p~1) with (1 + (Z.pos p + Z.pos p)) by lia.
    eapply shifted_trans; [lia|lia|apply shifted_1|].
    eapply shifted_trans; [lia|lia|apply IH|apply IH].
  - replace (Z.pos p~0) with (Z.pos p + Z.pos p) by lia.
    eapply shifted_trans; [lia|lia|apply IH|apply IH].
  - apply shifted_1.
Qed.

Lemma loc_of_shr_record_of_loc (m : Z) (l : location) :
  loc_of_shr_record (shr_record_of_loc m l) = l
  /\ shr_m (shr_record_of_loc m l) = m.
Proof. destruct l as [|[]]; split; reflexivity. Qed.

Lemma exact_record_loc (mrs : shr_record) :
  exact_record mrs -> loc_of_shr_record mrs = loc_Exact.
Proof. destruct mrs as [m r s]. intros [H1 H2]. simpl in *. now subst. Qed.

Lemma shr_bounds (m e k L U : Z) (l : location) :
  0 <= m -> 0 <= k ->
  L * 2 ^ k <= m -> below (U * 2 ^ k) m l ->
  snd (shr (shr_record_of_loc m l) e k) = e + k
  /\ L <= shr_m (fst (shr (shr_record_of_loc m l) e k))
  /\ below U (shr_m (fst (shr (shr_record_of_loc m l) e k)))
       (loc_of_shr_record (fst (shr (shr_record_of_loc m l) e k))).
Proof.
  intros Hm Hk HL HU.
  destruct (loc_of_shr_record_of_loc m l) as [Hloc Hmm].
  destruct k as [|p|p]; [| |lia]; unfold shr; cbn [fst snd].
  - rewrite Hloc, Hmm. change (2 ^ 0) with 1 in *. split; [lia|]. split; [lia|].
    destruct HU as [HU|[HU1 HU2]]; [left; lia|right; split; [lia|exact HU2]].
  - assert (Hp : 0 < 2 ^ Z.pos p) by (apply Z.pow_pos_nonneg; lia).
    destruct (iter_pos_shifted p (shr_record_of_loc m l)) as [Hdiv Hex];
      [rewrite Hmm; exact Hm|].
    rewrite Hmm in Hdiv, Hex. rewrite Hdiv.
    split; [reflexivity|]. split.
    + apply Z.div_le_lower_bound; lia.
    + destruct HU as [HU|[HU1 HU2]].
      * left. apply Z.div_lt_upper_bound; lia.
      * right. subst m l. split.
        -- now apply Z.div_mul; lia.
        -- apply exact_record_loc, Hex; [now split|]. now apply Z.mod_mul; lia.
Qed.

Lemma pow2_split (a b : Z) : 0 <= a -> 0 <= b -> 2 ^ (a + b) = 2 ^ a * 2 ^ b.
Proof. intros. now apply Z.pow_add_r. Qed.

Lemma shr_fexp_bounds (m e Lm Um Te : Z) (l : location) :
  0 <= m -> e <= Te -> -1074 <= Te -> 0 <= Lm -> Um < 2 ^ 53 ->
  Lm * 2 ^ (Te - e) <= m -> below (Um * 2 ^ (Te - e)) m l ->
  let r := shr_fexp prec emax m e l in
  e <= snd r <= Te
  /\ Lm * 2 ^ (Te - snd r) <= shr_m (fst r)
  /\ below (Um * 2 ^ (Te - snd r)) (shr_m (fst r)) (loc_of_shr_record (fst r)).
Proof.
  intros Hm He Hmin HL HU HLm HUm. unfold shr_fexp.
  set (k := fexp prec emax (Zdigits2 m + e) - e).
  destruct (Z_le_gt_dec k 0) as [Hk|Hk].
  - (* no shift *)
    assert (Hshr : shr (shr_record_of_loc m l) e k = (shr_record_of_loc m l, e)).
    { unfold shr. destruct k; try reflexivity. lia. }
    cbv zeta. rewrite Hshr. cbn [fst snd].
    destruct (loc_of_shr_record_of_loc m l) as [-> ->].
    split; [lia|]. split; assumption.
  - (* a shift by [k] *)
    assert (Hle : e + k <= Te).
    { unfold k, fexp, SpecFloat.emin, prec, emax.
      destruct (Z.eq_dec m 0) as [->|Hm0]; [simpl; lia|].
      pose proof (Zdigits2_bounds m ltac:(lia)) as [Hd _].
      assert (Hlt : m < 2 ^ 53 * 2 ^ (Te - e)).
      { assert (0 < 2 ^ (Te - e)) by (apply Z.pow_pos_nonneg; lia).
        destruct HUm as [H1|[H1 _]]; nia. }
      rewrite <- pow2_split in Hlt by lia.
      assert (Hd' : Zdigits2 m - 1 < 53 + (Te - e)).
      { apply (Z.pow_lt_mono_r_iff 2); lia. }
      lia. }
    assert (Hpow : 2 ^ (Te - e) = 2 ^ (Te - (e + k)) * 2 ^ k).
    { rewrite <- pow2_split by lia. f_equal. lia. }
    rewrite Hpow, !Z.mul_assoc in HLm, HUm.
    destruct (shr_bounds m e k _ _ l Hm ltac:(lia) HLm HUm) as (H1 & H2 & H3).
    cbv zeta. rewrite H1. split; [lia|]. split; assumption.
Qed.

Lemma round_nearest_even_bounds (m L U : Z) (l : location) :
  L <= m -> below U m l -> L <= round_nearest_even m l <= U.
Proof.
  intros HL [HU|[HU ->]].
  - destruct l as [|[]]; simpl; try lia. destruct (Z.even m); lia.
  - simpl. lia.
Qed.

(** Rounding keeps a value between two bounds that the format holds
    at exponent [Te]. *)
Lemma binary_round_aux_bounds (sx : bool) (m e Lm Um Te : Z) (l : location) :
  0 <= m -> e <= Te -> -1074 <= Te <= 971 -> 0 <= Lm -> Um < 2 ^ 53 ->
  Lm * 2 ^ (Te - e) <= m -> below (Um * 2 ^ (Te - e)) m l ->
  match binary_round_aux prec emax sx m e l with
  | S754_zero s => s = sx /\ Lm = 0
  | S754_finite s m' e' =>
      s = sx /\ e' <= Te
      /\ Lm * 2 ^ (Te - e') <= Z.pos m' <= Um * 2 ^ (Te - e')
  | _ => False
  end.
Proof.
  intros Hm He [Hmin Hmax] HL HU HLm HUm. unfold binary_round_aux.
  pose proof (shr_fexp_bounds m e Lm Um Te l Hm He Hmin HL HU HLm HUm) as H1.
  cbv zeta in H1.
  destruct (shr_fexp prec emax m e l) as [mrs1 e1]. cbn [fst snd] in H1.
  destruct H1 as (He1 & HL1 & HU1).
  pose proof (round_nearest_even_bounds _ _ _ _ HL1 HU1) as Hr.
  set (m2 := round_nearest_even (shr_m mrs1) (loc_of_shr_record mrs1)) in *.
  assert (Hpos : 0 <= Lm * 2 ^ (Te - e1)).
  { apply Z.mul_nonneg_nonneg; [lia|]. apply Z.pow_nonneg. lia. }
  assert (HU2 : below (Um * 2 ^ (Te - e1)) m2 loc_Exact).
  { destruct (Z.eq_dec m2 (Um * 2 ^ (Te - e1))); [right; now split|left; lia]. }
  pose proof (shr_fexp_bounds m2 e1 Lm Um Te loc_Exact ltac:(lia) ltac:(lia)
                Hmin HL HU ltac:(lia) HU2) as H2.
  cbv zeta in H2.
  destruct (shr_fexp prec emax m2 e1 loc_Exact) as [mrs2 e2]. cbn [fst snd] in H2.
  destruct H2 as (He2 & HL2 & HU3).
  assert (Hpos2 : 0 <= Lm * 2 ^ (Te - e2)).
  { apply Z.mul_nonneg_nonneg; [lia|]. apply Z.pow_nonneg. lia. }
  assert (Hpow2 : 0 < 2 ^ (Te - e2)) by (apply Z.pow_pos_nonneg; lia).
  assert (Hle3 : shr_m mrs2 <= Um * 2 ^ (Te - e2))
    by (destruct HU3 as [H|[H _]]; lia).
  destruct (shr_m mrs2) as [|p|p].
  - split; [reflexivity|]. nia.
  - assert (Hb : (e2 <=? emax - prec) = true) by (apply Z.leb_le; unfold emax, prec; lia).
    rewrite Hb. repeat split; lia.
  - lia.
Qed.

(** Rounding a non-negative mantissa never yields [NaN] and keeps the
    sign. *)
Lemma shr_fexp_nonneg (m e : Z) (l : location) :
  0 <= m -> 0 <= shr_m (fst (shr_fexp prec emax m e l)).
Proof.
  intros Hm. unfold shr_fexp, shr.
  destruct (loc_of_shr_record_of_loc m l) as [_ Hmm].
  destruct (fexp prec emax (Zdigits2 m + e) - e) as [|p|p]; cbn [fst]; try lia.
  destruct (iter_pos_shifted p (shr_record_of_loc m l)) as [Hdiv _]; [lia|].
  rewrite Hdiv, Hmm. apply Z.div_pos; [lia|]. apply Z.pow_pos_nonneg; lia.
Qed.

Lemma binary_round_aux_sign (sx : bool) (m e : Z) (l : location) :
  0 <= m -> signed_as sx (binary_round_aux prec emax sx m e l).
Proof.
  intros Hm. unfold binary_round_aux.
  pose proof (shr_fexp_nonneg m e l Hm) as H1.
  destruct (shr_fexp prec emax m e l) as [mrs1 e1]. cbn [fst] in H1.
  assert (H2 : 0 <= round_nearest_even (shr_m mrs1) (loc_of_shr_record mrs1)).
  { destruct (loc_of_shr_record mrs1) as [|[]]; simpl; try lia.
    destruct (Z.even (shr_m mrs1)); lia. }
  pose proof (shr_fexp_nonneg _ e1 loc_Exact H2) as H3.
  destruct (shr_fexp prec emax _ e1 loc_Exact) as [mrs2 e2]. cbn [fst] in H3.
  destruct (shr_m mrs2) as [|p|p]; simpl; try lia; try reflexivity.
  destruct (e2 <=? emax - prec); reflexivity.
Qed.

Lemma Pos_iter_xO (d mx : positive) :
  Z.pos (Pos.iter xO mx d) = Z.pos mx * 2 ^ Z.pos d.
Proof.
  induction d as [|d IH] using Pos.peano_ind.
  - simpl. lia.
  - rewrite Pos.iter_succ, Pos2Z.inj_xO, IH, Pos2Z.inj_succ, Z.pow_succ_r by lia.
    ring.
Qed.

Lemma shl_align_value (mx : positive) (ex ex' : Z) :
  snd (shl_align mx ex ex') <= ex
  /\ Z.pos (fst (shl_align mx ex ex'))
     = Z.pos mx * 2 ^ (ex - snd (shl_align mx ex ex')).
Proof.
  unfold shl_align. destruct (ex' - ex) as [|d|d] eqn:E; cbn [fst snd].
  - rewrite Z.sub_diag. simpl. lia.
  - rewrite Z.sub_diag. simpl. lia.
  - split; [lia|]. rewrite Pos_iter_xO. f_equal. f_equal. lia.
Qed.

(** Rounding a positive integer below [2^53] is exact. *)
Lemma binary_normalize_exact (n : Z) :
  0 < n < 2 ^ 53 ->
  exists m e,
    binary_normalize prec emax n 0 false = S754_finite false m e
    /\ e <= 0 /\ Z.pos m = n * 2 ^ (- e).
Proof.
  intros [Hn0 Hn]. destruct n as [|p|p]; try lia.
  unfold binary_normalize, binary_round.
  pose proof (shl_align_value p 0 (fexp prec emax (Z.pos (digits2_pos p) + 0)))
    as [Hez Hmz].
  destruct (shl_align p 0 _) as [mz ez]. cbn [fst snd] in Hez, Hmz.
  rewrite Z.sub_0_l in Hmz.
  assert (H := binary_round_aux_bounds false (Z.pos mz) ez (Z.pos p) (Z.pos p) 0
                 loc_Exact).
  rewrite Z.sub_0_l in H.
  specialize (H ltac:(lia) Hez ltac:(lia) ltac:(lia) Hn ltac:(lia)
                ltac:(right; split; [exact Hmz|reflexivity])).
  destruct (binary_round_aux prec emax false (Z.pos mz) ez loc_Exact)
    as [s|s| |s m e]; try contradiction.
  - lia.
  - destruct H as (-> & He & Hm). exists m, e. rewrite Z.sub_0_l in Hm.
    split; [reflexivity|]. split; [exact He|lia].
Qed.

Lemma new_location_0 (n : Z) : new_location n 0 = loc_Exact.
Proof. unfold new_location. now destruct (Z.even n). Qed.

(** The quotient of a positive float by one that is no smaller lies
    in [[0, 1]].  The values are compared on a common exponent [c]. *)
Lemma SFdiv_le_one (mx my : positive) (ex ey c : Z) :
  c <= ex -> c <= ey -> (c = ex \/ c = ey) ->
  Z.pos mx * 2 ^ (ex - c) <= Z.pos my * 2 ^ (ey - c) ->
  unit_interval (SFdiv prec emax (S754_finite false mx ex) (S754_finite false my ey)).
Proof.
  intros Hcx Hcy Hc Hle. unfold SFdiv, SFdiv_core_binary.
  set (d1 := Zdigits2 (Z.pos mx)). set (d2 := Zdigits2 (Z.pos my)).
  set (e' := Z.min (fexp prec emax (d1 + ex - (d2 + ey))) (ex - ey)).
  set (s := ex - ey - e').
  pose proof (Zdigits2_bounds (Z.pos mx) ltac:(lia)) as [Hd1 _].
  pose proof (Zdigits2_bounds (Z.pos my) ltac:(lia)) as [_ Hd2].
  fold d1 in Hd1. fold d2 in Hd2.
  assert (Hd1pos : 0 < d1) by (unfold d1; simpl; lia).
  assert (Hd2pos : 0 < d2) by (unfold d2; simpl; lia).
  assert (Hdig : d1 + ex <= d2 + ey).
  { assert (H1 : 2 ^ (d1 - 1 + (ex - c)) <= Z.pos mx * 2 ^ (ex - c)).
    { rewrite pow2_split by lia. apply Z.mul_le_mono_nonneg_r; [|exact Hd1].
      apply Z.pow_nonneg. lia. }
    assert (H2 : Z.pos my * 2 ^ (ey - c) < 2 ^ (d2 + (ey - c))).
    { rewrite pow2_split by lia. apply Z.mul_lt_mono_pos_r; [|exact Hd2].
      apply Z.pow_pos_nonneg; lia. }
    assert (H3 : d1 - 1 + (ex - c) < d2 + (ey - c)).
    { apply (Z.pow_lt_mono_r_iff 2); lia. }
    lia. }
  assert (He' : e' <= -53).
  { unfold e', fexp, SpecFloat.emin, prec, emax. lia. }
  assert (Hs : 0 <= s) by (unfold s, e'; lia).
  assert (Hm' : match s with
                | Z.pos _ => Z.shiftl (Z.pos mx) s
                | 0 => Z.pos mx
                | Z.neg _ => 0
                end = Z.pos mx * 2 ^ s).
  { clearbody s. destruct s as [|ps|ps].
    - now rewrite Z.mul_1_r.
    - apply Z.shiftl_mul_pow2. lia.
    - lia. }
  rewrite Hm'. clear Hm'.
  set (t := - e' - (ey - c)).
  assert (He'2 : e' <= ex - ey) by (unfold e'; lia).
  assert (Ht : 0 <= t) by (unfold t; destruct Hc; lia).
  assert (Hnum : Z.pos mx * 2 ^ s <= Z.pos my * 2 ^ (- e')).
  { replace s with ((ex - c) + t) by (unfold s, t; lia).
    replace (- e') with ((ey - c) + t) by (unfold t; lia).
    rewrite !pow2_split by lia. rewrite !Z.mul_assoc.
    apply Z.mul_le_mono_nonneg_r; [apply Z.pow_nonneg; lia|exact Hle]. }
  assert (Hp : 0 < 2 ^ (- e')) by (apply Z.pow_pos_nonneg; lia).
  assert (Hps : 0 < 2 ^ s) by (apply Z.pow_pos_nonneg; lia).
  pose proof (Z_div_mod_eq_full (Z.pos mx * 2 ^ s) (Z.pos my)) as Hqr.
  pose proof (Z.mod_pos_bound (Z.pos mx * 2 ^ s) (Z.pos my) ltac:(lia)) as Hr.
  assert (Hdm : Z.div_eucl (Z.pos mx * 2 ^ s) (Z.pos my)
                = ((Z.pos mx * 2 ^ s) / Z.pos my, (Z.pos mx * 2 ^ s) mod Z.pos my)).
  { unfold Z.div, Z.modulo. now destruct (Z.div_eucl _ _). }
  rewrite Hdm. clear Hdm.
  set (q := (Z.pos mx * 2 ^ s) / Z.pos my) in *.
  set (r := (Z.pos mx * 2 ^ s) mod Z.pos my) in *.
  assert (Hq0 : 0 <= q) by (apply Z.div_pos; lia).
  assert (Hbelow : below (1 * 2 ^ (0 - e')) q (new_location (Z.pos my) r)).
  { rewrite Z.mul_1_l, Z.sub_0_l.
    destruct (Z_lt_le_dec q (2 ^ (- e'))) as [Hlt|Hge]; [now left|right].
    assert (Hqe : q = 2 ^ (- e')) by nia.
    split; [exact Hqe|]. assert (Hr0 : r = 0) by nia.
    rewrite Hr0. apply new_location_0. }
  pose proof (binary_round_aux_bounds (xorb false false) q e' 0 1 0
                (new_location (Z.pos my) r) Hq0 ltac:(lia) ltac:(lia) ltac:(lia)
                ltac:(lia) ltac:(lia) Hbelow) as H.
  unfold unit_interval.
  destruct (binary_round_aux prec emax (xorb false false) q e' _)
    as [sz|sz| |sz mz ez]; try contradiction.
  - now destruct H.
  - destruct H as (-> & Hez & _ & Hmz). rewrite Z.mul_1_l, Z.sub_0_l in Hmz.
    now repeat split.
Qed.

(** The binary64 representation of 100. *)
Lemma Prim2SF_100 : Prim2SF 100 = S754_finite false 7036874417766400 (-46).
Proof. reflexivity. Qed.

Lemma SFmul_100 (x : spec_float) :
  unit_interval x ->
  at_most_100 (SFmul prec emax x (S754_finite false 7036874417766400 (-46))).
Proof.
  destruct x as [s|s| |s m e]; simpl; try contradiction.
  - intros ->. reflexivity.
  - intros (-> & He & Hm).
    assert (Hp : 0 < 2 ^ (- e)) by (apply Z.pow_pos_nonneg; lia).
    assert (Hbelow : below (7036874417766400 * 2 ^ (-46 - (e + -46)))
                       (Z.pos (m * 7036874417766400)) loc_Exact).
    { replace (-46 - (e + -46)) with (- e) by lia. rewrite Pos2Z.inj_mul.
      destruct (Z.eq_dec (Z.pos m) (2 ^ (- e))) as [Heq|Hne].
      - right. split; [rewrite Heq; ring|reflexivity].
      - left. nia. }
    pose proof (binary_round_aux_bounds (xorb false false)
                  (Z.pos (m * 7036874417766400))
                  (e + -46) 0 7036874417766400 (-46) loc_Exact
                  ltac:(lia) ltac:(lia) ltac:(lia) ltac:(lia) ltac:(lia)
                  ltac:(lia) Hbelow) as H.
    unfold at_most_100.
    destruct (binary_round_aux prec emax (xorb false false) _ (e + -46) loc_Exact)
      as [sz|sz| |sz mz ez]; try contradiction.
    + now destruct H.
    + destruct H as (-> & Hez & _ & Hmz). now repeat split.
Qed.

Lemma at_most_100_leb (x : spec_float) :
  at_most_100 x ->
  SFleb (S754_zero false) x = true
  /\ SFleb x (S754_finite false 7036874417766400 (-46)) = true.
Proof.
  destruct x as [s|s| |s m e]; simpl; try contradiction.
  - intros ->. split; reflexivity.
  - intros (-> & He & Hm). split; [reflexivity|].
    unfold SFleb, SFcompare.
    destruct (Z.compare_spec e (-46)) as [->|Hlt|Hgt]; [|reflexivity|lia].
    change (-46 - -46) with 0 in Hm. rewrite Z.mul_1_r in Hm.
    rewrite Pos.compare_cont_spec. simpl.
    destruct (Pos.compare_spec m 7036874417766400); try reflexivity. lia.
Qed.

Lemma nonneg_sf_leb (x : spec_float) :
  nonneg_sf x <-> SFleb (S754_zero false) x = true.
Proof.
  destruct x as [s|s| |s m e]; simpl; unfold SFleb; simpl.
  - tauto.
  - destruct s; split; congruence.
  - split; [contradiction|discriminate].
  - destruct s; split; congruence.
Qed.

Lemma signed_false_nonneg (x : spec_float) : signed_as false x -> nonneg_sf x.
Proof. destruct x; simpl; tauto. Qed.

Lemma SFadd_nonneg (x y : spec_float) :
  nonneg_sf x -> nonneg_sf y -> nonneg_sf (SFadd prec emax x y).
Proof.
  destruct x as [sx|sx| |sx mx ex], y as [sy|sy| |sy my ey]; simpl;
    try contradiction; try tauto; intros Hx Hy; subst.
  - now destruct sx, sy.
  - reflexivity.
  - unfold binary_normalize. simpl. unfold binary_round.
    destruct (shl_align _ _ _) as [mz ez].
    apply signed_false_nonneg, binary_round_aux_sign. lia.
Qed.

Lemma SFdiv_nonneg (x : spec_float) (my : positive) (ey : Z) :
  nonneg_sf x -> nonneg_sf (SFdiv prec emax x (S754_finite false my ey)).
Proof.
  destruct x as [sx|sx| |sx mx ex]; simpl; try contradiction; try tauto.
  - intros ->. reflexivity.
  - intros ->. unfold SFdiv_core_binary.
    set (m' := match _ with Z.pos _ => _ | 0 => _ | Z.neg _ => _ end).
    assert (Hm' : 0 <= m').
    { unfold m'. destruct (_ - _ - _) as [|p|p]; try lia.
      rewrite Z.shiftl_mul_pow2 by lia.
      apply Z.mul_nonneg_nonneg; [lia|]. apply Z.pow_nonneg. lia. }
    assert (Hdm : Z.div_eucl m' (Z.pos my) = (m' / Z.pos my, m' mod Z.pos my)).
    { unfold Z.div, Z.modulo. now destruct (Z.div_eucl _ _). }
    rewrite Hdm. apply signed_false_nonneg, binary_round_aux_sign.
    apply Z.div_pos; lia.
Qed.

(** ** Numbers of array lengths *)

Lemma Prim2SF_of_Z (z : Z) :
  0 <= z < 2 ^ 63 ->
  Prim2SF (PrimFloat.of_uint63 (Uint63.of_Z z)) = binary_normalize prec emax z 0 false.
Proof.
  intros Hz. rewrite of_uint63_spec, Uint63.of_Z_spec.
  rewrite Z.mod_small; [reflexivity|]. exact Hz.
Qed.

(** The same on primitive floats. *)

Lemma div_count_unit (s n : Z) :
  0 <= s <= n -> 0 < n < 2 ^ 53 ->
  unit_interval
    (Prim2SF (PrimFloat.of_uint63 (Uint63.of_Z s) / PrimFloat.of_uint63 (Uint63.of_Z n))).
Proof.
  intros Hs Hn. rewrite FloatAxioms.div_spec. unfold SF64div.
  rewrite !Prim2SF_of_Z by lia.
  destruct (binary_normalize_exact n Hn) as (mn & en & -> & Hen & Hmn).
  destruct (Z.eq_dec s 0) as [->|Hs0].
  - reflexivity.
  - destruct (binary_normalize_exact s ltac:(lia)) as (ms & es & -> & Hes & Hms).
    apply (SFdiv_le_one ms mn es en (Z.min es en)); try lia.
    rewrite Hms, Hmn, <- !Z.mul_assoc, <- !pow2_split by lia.
    replace (- es + (es - Z.min es en)) with (- Z.min es en) by lia.
    replace (- en + (en - Z.min es en)) with (- Z.min es en) by lia.
    apply Z.mul_le_mono_nonneg_r; [apply Z.pow_nonneg; lia|lia].
Qed.

Lemma percentage_bounds (s n : Z) :
  0 <= s <= n -> 0 < n < 2 ^ 53 ->
  let pct := (PrimFloat.of_uint63 (Uint63.of_Z s)
              / PrimFloat.of_uint63 (Uint63.of_Z n) * 100)%float in
  PrimFloat.leb 0 pct = true /\ PrimFloat.leb pct 100 = true.
Proof.
  intros Hs Hn pct. rewrite !FloatAxioms.leb_spec.
  change (Prim2SF 0) with (S754_zero false). rewrite Prim2SF_100.
  apply at_most_100_leb. unfold pct.
  rewrite FloatAxioms.mul_spec, Prim2SF_100. unfold SF64mul.
  apply SFmul_100, div_count_unit; assumption.
Qed.

Lemma fold_add_nonneg (cs : list float) (acc : float) :
  nonneg_sf (Prim2SF acc) ->
  Forall (fun c => PrimFloat.leb 0 c = true) cs ->
  nonneg_sf (Prim2SF (fold_left PrimFloat.add cs acc)).
Proof.
  revert acc. induction cs as [|c cs IH]; intros acc Hacc Hcs; simpl.
  - exact Hacc.
  - apply Forall_cons in Hcs as [Hc Hcs]. apply IH; [|exact Hcs].
    rewrite FloatAxioms.add_spec. apply SFadd_nonneg; [exact Hacc|].
    apply nonneg_sf_leb. change (S754_zero false) with (Prim2SF 0).
    now rewrite <- FloatAxioms.leb_spec.
Qed.

Lemma average_nonneg (cs : list float) (n : Z) :
  0 < n < 2 ^ 53 ->
  Forall (fun c => PrimFloat.leb 0 c = true) cs ->
  PrimFloat.leb 0 (fold_left PrimFloat.add cs 0 / PrimFloat.of_uint63 (Uint63.of_Z n))%float
  = true.
Proof.
  intros Hn Hcs. rewrite FloatAxioms.leb_spec.
  change (Prim2SF 0) with (S754_zero false). apply nonneg_sf_leb.
  rewrite FloatAxioms.div_spec, Prim2SF_of_Z by lia. unfold SF64div.
  destruct (binary_normalize_exact n Hn) as (mn & en & -> & _ & _).
  apply SFdiv_nonneg, fold_add_nonneg; [exact I|exact Hcs].
Qed.

Local Close Scope Z_scope.

(** ** Bounds on the summary statistics *)

Lemma yes_count_le (fd : list entry) : yes_count fd <= length fd.
Proof. unfold yes_count. apply length_filter. Qed.

(** C9.  On a non-empty sequence (of at most 2^32 - 1 records, the
    longest array there is) [smokerPct] lies in [[0, 100]], and when
    the charges are non-negative Numbers [avgCharge] is not below 0. *)
Theorem stats_bounds (NumberToString : float -> string) (fd : list entry) :
  fd <> [] ->
  (Z.of_nat (length fd) <= 4294967295)%Z ->
  PrimFloat.leb 0 (smokerPct (stats NumberToString fd)) = true
  /\ PrimFloat.leb (smokerPct (stats NumberToString fd)) 100 = true
  /\ forall cs : list float,
      (fun item => get item "charges") <$> fd = VNumber <$> cs ->
      Forall (fun c => PrimFloat.leb 0 c = true) cs ->
      PrimFloat.leb 0 (avgCharge (stats NumberToString fd)) = true.
Proof.
  intros Hne Hlen.
  pose proof (stats_smokerPct NumberToString fd Hne) as Hpct.
  assert (Hn : (0 < Z.of_nat (length fd) < 2 ^ 53)%Z).
  { destruct fd; [contradiction|]. cbn [length] in *. lia. }
  pose proof (yes_count_le fd) as Hyes.
  rewrite Hpct. unfold Number_of_nat.
  split; [|split].
  - apply (percentage_bounds (Z.of_nat (yes_count fd)) (Z.of_nat (length fd)));
      [lia|exact Hn].
  - apply (percentage_bounds (Z.of_nat (yes_count fd)) (Z.of_nat (length fd)));
      [lia|exact Hn].
  - intros cs Hcs Hpos. rewrite (stats_avgCharge NumberToString fd cs Hne Hcs).
    unfold fsum, Number_of_nat.
    now apply average_nonneg.
Qed.

(** The bounds on the three-row example. *)
Lemma stats_bounds_example :
  (parsed example_csv <> []
   /\ (Z.of_nat (length (parsed example_csv)) <= 4294967295)%Z)
  /\ PrimFloat.leb 0 (smokerPct (stats (fun _ => EmptyString) (parsed example_csv)))
     = true
  /\ PrimFloat.leb (smokerPct (stats (fun _ => EmptyString) (parsed example_csv))) 100
     = true
  /\ forall cs : list float,
      (fun item => get item "charges") <$> parsed example_csv = VNumber <$> cs ->
      Forall (fun c => PrimFloat.leb 0 c = true) cs ->
      PrimFloat.leb 0 (avgCharge (stats (fun _ => EmptyString) (parsed example_csv)))
      = true.
Proof.
  assert (H1 : parsed example_csv <> []) by (rewrite example_parsed; discriminate).
  assert (H2 : (Z.of_nat (length (parsed example_csv)) <= 4294967295)%Z)
    by (rewrite example_parsed; simpl; lia).
  split; [split; assumption|].
  exact (stats_bounds (fun _ => EmptyString) (parsed example_csv) H1 H2).
Defined.

(** The three-row example is typed: string regions, Number charges. *)
Lemma example_typed_rows : typed_rows (parsed example_csv) example_rows.
Proof.
  rewrite example_parsed. unfold typed_rows, example_rows.
  repeat (constructor; [split; reflexivity|]). constructor.
Qed.

(** A fresh page is safe for any rows; a page with a string on
    [Object.prototype.total] is safe for the rows of the example. *)
Lemma fresh_page_safe (rows : list (string * float)) : safe_page VUndefined rows.
Proof. left. now left. Qed.

Lemma example_rows_safe (proto : value) : safe_page proto example_rows.
Proof. right. repeat constructor; discriminate. Qed.

(** The order of the regional entries on the three-row example, on a
    page that an earlier run left with a string on
    [Object.prototype.total]. *)
Lemma regionData_order_example :
  (safe_page (VString "undefinedabc") example_rows
   /\ typed_rows (parsed example_csv) example_rows
   /\ Forall (fun rc => array_index (fst rc) = None) example_rows)
  /\ regionData (fun _ => EmptyString) (VString "undefinedabc") (parsed example_csv)
     = Some (map (bar_for example_rows) (grouped (map fst example_rows)))
  /\ (Forall (fun rc => inherited (fst rc) = false) example_rows ->
      grouped (map fst example_rows) = first_occurrences (map fst example_rows)).
Proof.
  assert (H0 : safe_page (VString "undefinedabc") example_rows)
    by apply example_rows_safe.
  assert (H1 : typed_rows (parsed example_csv) example_rows)
    by exact example_typed_rows.
  assert (H2 : Forall (fun rc => array_index (fst rc) = None) example_rows)
    by (repeat constructor).
  split; [repeat split; assumption|].
  exact (regionData_first_occurrence_order (fun _ => EmptyString)
           (VString "undefinedabc") (parsed example_csv) example_rows H0 H1 H2).
Defined.

(** ** The parser's coercion of a cell *)

Lemma trimStart_clean (s : string) : starts_clean (trimStart s).
Proof.
  induction s as [|c s IH]; simpl; [exact I|].
  destruct (Ascii.is_space c) eqn:E; [exact IH|exact E].
Qed.

Lemma trimEnd_clean (s : string) : starts_clean s -> starts_clean (trimEnd s).
Proof.
  destruct s as [|c s]; simpl; [trivial|].
  intros H. rewrite H. simpl. exact H.
Qed.

Lemma trimStart_id (s : string) : starts_clean s -> trimStart s = s.
Proof. destruct s as [|c s]; simpl; [trivial|]. now intros ->. Qed.

Lemma trimEnd_idem (s : string) : trimEnd (trimEnd s) = trimEnd s.
Proof.
  induction s as [|c s IH]; simpl; [reflexivity|].
  destruct (Ascii.is_space c && String.eqb (trimEnd s) "") eqn:E; simpl.
  - reflexivity.
  - now rewrite IH, E.
Qed.

Lemma trim_clean (s : string) : starts_clean (trim s).
Proof. apply trimEnd_clean, trimStart_clean. Qed.

Lemma trim_idem (s : string) : trim (trim s) = trim s.
Proof.
  unfold trim at 1. rewrite (trimStart_id (trim s)) by apply trim_clean.
  unfold trim. apply trimEnd_idem.
Qed.

(** For a trimmed text that is no [0x]/[0o]/[0b] literal and whose
    Number is not [NaN], [parseFloat] and [Number] agree. *)
Lemma parseFloat_Number (t : string) :
  trim t = t ->
  t <> "" ->
  scan_non_decimal t = None ->
  isNaN (VString t) = false ->
  parseFloat t = ToNumber (VString t).
Proof.
  intros Ht Hne Hnd Hnan. unfold isNaN in Hnan. simpl in *.
  unfold StringToNumber in *. rewrite Ht in *. unfold parseFloat.
  rewrite trimStart_id by (rewrite <- Ht; apply trim_clean).
  destruct (String.eqb t "") eqn:Et.
  - apply String_eqb_true in Et. contradiction.
  - rewrite Hnd in *.
    destruct (scan_decimal t) as [[[neg d] rest]|]; [|discriminate].
    destruct rest; [reflexivity|discriminate].
Qed.

(** The value of a numeric literal is never [NaN]. *)
Lemma not_nan_is_nan (x : float) : Prim2SF x <> S754_nan -> PrimFloat.is_nan x = false.
Proof.
  intros H. destruct (PrimFloat.is_nan x) eqn:E; [|reflexivity].
  now apply is_nan_Prim2SF in E.
Qed.

Lemma signed_as_not_nan (sx : bool) (x : spec_float) : signed_as sx x -> x <> S754_nan.
Proof. destruct x; simpl; congruence. Qed.

Lemma binary_round_not_nan (sx : bool) (mx : positive) (ex : Z) :
  binary_round prec emax sx mx ex <> S754_nan.
Proof.
  unfold binary_round. destruct (shl_align _ _ _) as [mz ez].
  apply (signed_as_not_nan sx), binary_round_aux_sign. lia.
Qed.

Lemma binary_normalize_not_nan (m e : Z) (sz : bool) :
  binary_normalize prec emax m e sz <> S754_nan.
Proof.
  destruct m; simpl; [discriminate|apply binary_round_not_nan..].
Qed.

Lemma SFldexp_not_nan (x : spec_float) (e : Z) :
  x <> S754_nan -> SFldexp prec emax x e <> S754_nan.
Proof.
  destruct x; simpl; try congruence. intros _. apply binary_round_not_nan.
Qed.

Lemma SF2Prim_not_nan (x : spec_float) :
  x <> S754_nan -> PrimFloat.is_nan (SF2Prim x) = false.
Proof.
  destruct x as [[]|[]| |s m e]; try reflexivity; [congruence|]. intros _.
  unfold SF2Prim.
  assert (H : Prim2SF (Z.ldexp (PrimFloat.of_uint63 (Uint63.of_Z (Z.pos m))) e)
              <> S754_nan).
  { unfold Z.ldexp. rewrite ldshiftexp_spec. apply SFldexp_not_nan.
    rewrite of_uint63_spec. apply binary_normalize_not_nan. }
  apply not_nan_is_nan. destruct s; [|exact H].
  rewrite FloatAxioms.opp_spec. destruct (Prim2SF _); simpl; congruence.
Qed.

Lemma round_ratio_not_nan (neg : bool) (num den : Z) :
  PrimFloat.is_nan (round_ratio neg num den) = false.
Proof.
  unfold round_ratio.
  destruct num as [|n|n]; try (destruct neg; reflexivity).
  destruct den as [|d|d]; try (destruct neg; reflexivity).
  apply SF2Prim_not_nan. unfold SFdiv, SFdiv_core_binary.
  set (m' := match _ with Z.pos _ => _ | 0%Z => _ | Z.neg _ => _ end).
  assert (Hm' : (0 <= m')%Z).
  { unfold m'. destruct (_ - _ - _)%Z as [|p|p]; try lia.
    rewrite Z.shiftl_mul_pow2 by lia.
    apply Z.mul_nonneg_nonneg; [lia|]. apply Z.pow_nonneg. lia. }
  assert (Hdm : Z.div_eucl m' (Z.pos d) = ((m' / Z.pos d)%Z, (m' mod Z.pos d)%Z)).
  { unfold Z.div, Z.modulo. now destruct (Z.div_eucl _ _). }
  rewrite Hdm. apply (signed_as_not_nan (xorb neg false)), binary_round_aux_sign.
  apply Z.div_pos; lia.
Qed.

Lemma decimal_value_not_nan (neg : bool) (d : udecimal) :
  PrimFloat.is_nan (decimal_value neg d) = false.
Proof.
  destruct d as [|m e]; simpl.
  - destruct neg; reflexivity.
  - destruct (0 <=? e)%Z; apply round_ratio_not_nan.
Qed.

Lemma isNaN_numeric_literal (t : string) :
  trim t = t -> t <> "" ->
  isNaN (VString t) = negb (numeric_literal t).
Proof.
  intros Ht Hne. unfold isNaN, numeric_literal. simpl. unfold StringToNumber.
  rewrite Ht. apply String_eqb_false in Hne. rewrite Hne.
  destruct (scan_non_decimal t) as [n|]; [apply round_ratio_not_nan|].
  destruct (scan_decimal t) as [[[neg d] rest]|]; [|reflexivity].
  destruct rest; [apply decimal_value_not_nan|reflexivity].
Qed.

(** C4, as the code has it.  A cell is stored as a Number exactly when
    its trimmed text is non-empty and a numeric literal (finite or
    not: [Infinity] is one); unless the literal is a [0x], [0o] or
    [0b] one the Number stored is [Number] of the trimmed text; any
    other cell is stored as its trimmed text. *)
Theorem parse_cell_coercion (cell : string) :
  ((exists n, parse_cell (Some cell) = VNumber n)
   <-> trim cell <> "" /\ numeric_literal (trim cell) = true)
  /\ (trim cell <> "" -> numeric_literal (trim cell) = true ->
      scan_non_decimal (trim cell) = None ->
      parse_cell (Some cell) = VNumber (ToNumber (VString (trim cell))))
  /\ (~ (trim cell <> "" /\ numeric_literal (trim cell) = true) ->
      parse_cell (Some cell) = VString (trim cell)).
Proof.
  assert (Hpc : parse_cell (Some cell)
                = if negb (String.eqb (trim cell) "")
                     && negb (isNaN (VString (trim cell)))
                  then VNumber (parseFloat (trim cell))
                  else VString (trim cell)) by reflexivity.
  rewrite Hpc. clear Hpc.
  destruct (String.eqb (trim cell) "") eqn:Et;
    [apply String_eqb_true in Et|apply String_eqb_false in Et]; cbn [negb andb].
  - split; [split|split].
    + intros [n Hn]; discriminate.
    + intros [H1 _]; contradiction.
    + intros H1; contradiction.
    + reflexivity.
  - pose proof (isNaN_numeric_literal (trim cell) (trim_idem cell) Et) as Hnan.
    rewrite Hnan, negb_involutive.
    destruct (numeric_literal (trim cell)) eqn:El.
    + split; [split|split].
      * intros _. split; [exact Et|reflexivity].
      * intros _. eexists. reflexivity.
      * intros _ _ Hnd. f_equal.
        apply parseFloat_Number; [apply trim_idem|exact Et|exact Hnd|].
        now rewrite Hnan.
      * intros H. exfalso. apply H. split; [exact Et|reflexivity].
    + split; [split|split].
      * intros [n Hn]; discriminate.
      * intros [_ H2]; discriminate.
      * intros _ H2; discriminate.
      * reflexivity.
Qed.

(** "A Number exactly for the finite literals" fails: the cell
    [Infinity] is stored as the Number [Infinity]. *)
Lemma parse_cell_Infinity_not_finite :
  ~ (forall cell : string,
       (exists n, parse_cell (Some cell) = VNumber n)
       <-> trim cell <> "" /\ isFinite (VString (trim cell)) = true).
Proof.
  intros H. destruct (H "Infinity") as [Hto _].
  destruct Hto as [_ Hfin].
  - exists PrimFloat.infinity. vm_compute. reflexivity.
  - vm_compute in Hfin. discriminate.
Qed.

(** ** Further properties of the filter and of the grouping *)

(** With every dimension on "all" the filter keeps everything. *)
Lemma filteredData_no_filter (d : list entry) : filteredData d no_filter = d.
Proof. unfold filteredData. apply filter_all. intros item _. reflexivity. Qed.

(** Selecting a region that no record has: no record, zero statistics
    and no regional entry, on any page. *)
Lemma unmatched_region_empty (NumberToString : float -> string)
    (proto : value) (d : list entry) (f : Filters) :
  region f <> "all" ->
  (forall item, item ∈ d -> get item "region" <> VString (region f)) ->
  filteredData d f = []
  /\ stats NumberToString (filteredData d f)
     = {| count := 0; avgCharge := 0; smokerPct := 0 |}
  /\ regionData NumberToString proto (filteredData d f) = Some [].
Proof.
  intros Hall Hnone.
  assert (Hempty : filteredData d f = []).
  { destruct (filteredData d f) as [|item l] eqn:E; [reflexivity|]. exfalso.
    assert (Hin : In item (filteredData d f)) by (rewrite E; left; reflexivity).
    apply filter_In in Hin as [Hd Hp].
    apply passes_selected in Hp as [[Hr|Hr] _]; [contradiction|].
    apply (Hnone item); [now apply list_elem_of_In|exact Hr]. }
  rewrite Hempty. repeat split; reflexivity.
Qed.

Lemma insert_index_Permutation (x : Z * group) (l : list (Z * group)) :
  insert_index x l ≡ₚ x :: l.
Proof.
  induction l as [|y l IH]; simpl; [reflexivity|].
  destruct (fst x <=? fst y)%Z; [reflexivity|].
  rewrite IH. apply perm_swap.
Qed.

Lemma Object_values_Permutation (l : list (string * group)) :
  Object_values l ≡ₚ map snd l.
Proof.
  unfold Object_values.
  assert (Hsort : fold_right insert_index [] (indexed l) ≡ₚ indexed l).
  { induction (indexed l) as [|x l' IH]; simpl; [reflexivity|].
    now rewrite insert_index_Permutation, IH. }
  rewrite Hsort. clear Hsort. unfold indexed, named.
  induction l as [|[k g] l IH]; simpl; [reflexivity|].
  destruct (array_index k); simpl.
  - now rewrite IH.
  - rewrite <- Permutation_middle. now rewrite IH.
Qed.

Lemma sum_list_Permutation (l1 l2 : list nat) :
  l1 ≡ₚ l2 -> sum_list l1 = sum_list l2.
Proof. induction 1; simpl; lia. Qed.

Lemma sum_hits (r : string) (ks : list string) :
  NoDup ks ->
  sum_list (map (fun k => if String.eqb r k then 1 else 0) ks)
  = if decide (r ∈ ks) then 1 else 0.
Proof.
  induction ks as [|k ks IH]; intros Hnd.
  - destruct (decide (r ∈ [])) as [H|_]; [now apply elem_of_nil in H|reflexivity].
  - apply NoDup_cons in Hnd as [Hk Hnd]. cbn [map sum_list]. rewrite (IH Hnd).
    destruct (String.eqb r k) eqn:E.
    + apply String_eqb_true in E. subst k.
      rewrite decide_False by exact Hk. rewrite decide_True by left. reflexivity.
    + apply String_eqb_false in E. destruct (decide (r ∈ ks)) as [Hin|Hnin].
      * rewrite decide_True by now right. reflexivity.
      * rewrite decide_False; [reflexivity|].
        intros [->|H]%elem_of_cons; [now apply E|contradiction].
Qed.

Lemma sum_list_add (f g : string -> nat) (ks : list string) :
  sum_list (map (fun k => f k + g k) ks)
  = sum_list (map f ks) + sum_list (map g ks).
Proof. induction ks as [|k ks IH]; simpl; lia. Qed.

(** Every row is counted in the group of its region. *)
Lemma group_counts_total (rows : list (string * float)) :
  sum_list (map (fun k => length (charges_in k rows))
              (first_occurrences (map fst rows)))
  = length rows.
Proof.
  induction rows as [|[r c] rows IH] using rev_ind; [reflexivity|].
  rewrite map_app, length_app. cbn [map fst length].
  rewrite first_occurrences_snoc.
  assert (Hstep : forall ks,
            sum_list (map (fun k => length (charges_in k (rows ++ [(r, c)]))) ks)
            = sum_list (map (fun k => length (charges_in k rows)) ks)
              + sum_list (map (fun k => if String.eqb r k then 1 else 0) ks)).
  { intros ks. rewrite <- sum_list_add. f_equal. apply map_ext. intros k.
    rewrite charges_in_snoc, length_app. now destruct (String.eqb r k). }
  destruct (decide (r ∈ map fst rows)) as [Hin|Hnin].
  - rewrite Hstep, IH, sum_hits by apply first_occurrences_NoDup.
    rewrite decide_True; [reflexivity|]. now apply first_occurrences_elem.
  - assert (Hsum : forall a b, sum_list (a ++ [b]) = sum_list a + b).
    { intros a b. induction a as [|x a IHa]; simpl; lia. }
    rewrite map_app. cbn [map]. rewrite Hsum.
    rewrite Hstep, IH, sum_hits by apply first_occurrences_NoDup.
    rewrite decide_False by (rewrite first_occurrences_elem; exact Hnin).
    rewrite charges_in_snoc, String.eqb_refl, length_app.
    rewrite (charges_in_absent r rows Hnin). simpl. lia.
Qed.

Section GroupingProperties.

Variable NumberToString : float -> string.

(** On typed records none of whose regions is a name inherited from
    [Object.prototype], on a page that has only added Numbers to
    [Object.prototype.total] or when no region is "total", the group
    sizes add up to the length of the sequence. *)
Lemma group_sizes_total (proto : value) (fd : list entry)
    (rows : list (string * float)) :
  safe_page proto rows ->
  typed_rows fd rows ->
  Forall (fun rc => inherited (fst rc) = false) rows ->
  exists sizes,
    group_sizes NumberToString proto fd = Some sizes
    /\ sum_list sizes = length fd.
Proof.
  intros Hp Ht Hni. unfold group_sizes.
  destruct (groups_of_typed NumberToString proto fd rows Hp Ht)
    as (st & -> & Hown & _).
  eexists. split; [reflexivity|].
  rewrite (sum_list_Permutation _ (map g_count (map snd (own st)))).
  - rewrite Hown. unfold own_for. rewrite !map_map. cbn [snd g_count group_for].
    assert (Hg : grouped (map fst rows) = first_occurrences (map fst rows)).
    { unfold grouped. f_equal. apply filter_all. intros r Hr.
      apply list_elem_of_In, in_map_iff in Hr as ([r' c] & <- & Hrc).
      rewrite Forall_forall in Hni. apply negb_true_iff.
      apply (Hni (r', c)). now apply list_elem_of_In. }
    rewrite Hg, group_counts_total. symmetry. eapply Forall2_length. exact Ht.
  - apply Permutation_map, Object_values_Permutation.
Qed.

(** On such records and such a page [regionData] has one entry for
    each region that occurs, with the group's average and the
    capitalised name. *)
Lemma regionData_partition (proto : value) (fd : list entry)
    (rows : list (string * float)) :
  safe_page proto rows ->
  typed_rows fd rows ->
  Forall (fun rc => inherited (fst rc) = false) rows ->
  exists bars,
    regionData NumberToString proto fd = Some bars
    /\ bars ≡ₚ map (bar_for rows) (first_occurrences (map fst rows)).
Proof.
  intros Hsafe Ht Hni. unfold regionData.
  destruct (groups_of_typed NumberToString proto fd rows Hsafe Ht)
    as (st & -> & Hown & _).
  assert (Hg : grouped (map fst rows) = first_occurrences (map fst rows)).
  { unfold grouped. f_equal. apply filter_all. intros r Hr.
    apply list_elem_of_In, in_map_iff in Hr as ([r' c] & <- & Hrc).
    rewrite Forall_forall in Hni. apply negb_true_iff.
    apply (Hni (r', c)). now apply list_elem_of_In. }
  pose proof (Object_values_Permutation (own st)) as Hperm.
  rewrite Hown in Hperm at 2. unfold own_for in Hperm.
  rewrite map_map in Hperm. cbn [snd] in Hperm. rewrite Hg in Hperm.
  apply Permutation_map_inv in Hperm as (ks & Hks & Hp).
  rewrite Hks, mapM_bar_of. eexists. split; [reflexivity|].
  apply Permutation_map. now symmetry.
Qed.

End GroupingProperties.

(** No record of the three-row example is in the northeast. *)
Lemma unmatched_region_example :
  (region {| region := "northeast"; smoker := "all"; sex := "all" |} <> "all"
   /\ forall item, item ∈ parsed example_csv ->
        get item "region"
        <> VString (region {| region := "northeast"; smoker := "all"; sex := "all" |}))
  /\ filteredData (parsed example_csv)
       {| region := "northeast"; smoker := "all"; sex := "all" |} = []
  /\ stats (fun _ => EmptyString)
       (filteredData (parsed example_csv)
          {| region := "northeast"; smoker := "all"; sex := "all" |})
     = {| count := 0; avgCharge := 0; smokerPct := 0 |}
  /\ regionData (fun _ => EmptyString) VUndefined
       (filteredData (parsed example_csv)
          {| region := "northeast"; smoker := "all"; sex := "all" |})
     = Some [].
Proof.
  assert (H1 : region {| region := "northeast"; smoker := "all"; sex := "all" |}
               <> "all") by discriminate.
  assert (H2 : forall item, item ∈ parsed example_csv ->
                 get item "region"
                 <> VString (region {| region := "northeast"; smoker := "all";
                                       sex := "all" |})).
  { rewrite example_parsed. intros item Hin.
    repeat (apply elem_of_cons in Hin as [->|Hin]; [vm_compute; discriminate|]).
    now apply elem_of_nil in Hin. }
  split; [split; assumption|].
  exact (unmatched_region_empty (fun _ => EmptyString) VUndefined
           (parsed example_csv) _ H1 H2).
Defined.

Lemma example_rows_not_inherited :
  Forall (fun rc => inherited (fst rc) = false) example_rows.
Proof. repeat constructor. Qed.

(** The group sizes of the three-row example, on a fresh page. *)
Lemma group_sizes_total_example :
  (safe_page VUndefined example_rows
   /\ typed_rows (parsed example_csv) example_rows
   /\ Forall (fun rc => inherited (fst rc) = false) example_rows)
  /\ exists sizes,
      group_sizes (fun _ => EmptyString) VUndefined (parsed example_csv) = Some sizes
      /\ sum_list sizes = length (parsed example_csv).
Proof.
  split; [repeat split;
          [apply fresh_page_safe|exact example_typed_rows
          |exact example_rows_not_inherited]|].
  exact (group_sizes_total (fun _ => EmptyString) VUndefined (parsed example_csv)
           example_rows (fresh_page_safe _) example_typed_rows
           example_rows_not_inherited).
Defined.

(** The regional entries of the three-row example, on a fresh page. *)
Lemma regionData_partition_example :
  (safe_page VUndefined example_rows
   /\ typed_rows (parsed example_csv) example_rows
   /\ Forall (fun rc => inherited (fst rc) = false) example_rows)
  /\ exists bars,
      regionData (fun _ => EmptyString) VUndefined (parsed example_csv) = Some bars
      /\ bars ≡ₚ map (bar_for example_rows)
                   (first_occurrences (map fst example_rows)).
Proof.
  split; [repeat split;
          [apply fresh_page_safe|exact example_typed_rows
          |exact example_rows_not_inherited]|].
  exact (regionData_partition (fun _ => EmptyString) VUndefined (parsed example_csv)
           example_rows (fresh_page_safe _) example_typed_rows
           example_rows_not_inherited).
Defined.

(** ** Changing the selection *)

Lemma filter_sublist_mono {A : Type} (p q : A -> bool) (l : list A) :
  (forall x, p x = true -> q x = true) ->
  sublist (List.filter p l) (List.filter q l).
Proof.
  intros H. induction l as [|x l IH]; simpl; [constructor|].
  destruct (p x) eqn:Ep.
  - rewrite (H x Ep). now apply sublist_skip.
  - destruct (q x); [now apply sublist_cons|exact IH].
Qed.

Lemma passes_relaxed (key val : string) (f : Filters) (item : entry) :
  passes (handleFilterChange key val f) item = true ->
  passes (handleFilterChange key "all" f) item = true.
Proof.
  unfold handleFilterChange.
  destruct (String.eqb key "region"); [|destruct (String.eqb key "smoker");
    [|destruct (String.eqb key "sex")]]; unfold passes; cbn [region smoker sex];
    try tauto; rewrite !andb_true_iff; cbn [String.eqb orb]; tauto.
Qed.

Lemma passes_split (key val : string) (f : Filters) (item : entry) :
  dimension key ->
  passes (handleFilterChange key val f) item
  = passes (handleFilterChange key "all" f) item
    && passes (handleFilterChange key val no_filter) item.
Proof.
  intros [-> | [-> | ->]]; unfold handleFilterChange, passes, no_filter;
    cbn [String.eqb Ascii.eqb Bool.eqb region smoker sex orb andb];
    repeat match goal with
           | |- context [String.eqb ?a ?b] => destruct (String.eqb a b)
           | |- context [strict_eq ?a ?b] => destruct (strict_eq a b)
           end; reflexivity.
Qed.

Lemma filter_filter {A : Type} (p q : A -> bool) (l : list A) :
  List.filter q (List.filter p l) = List.filter (fun x => p x && q x) l.
Proof.
  induction l as [|x l IH]; [reflexivity|]. cbn [List.filter].
  destruct (p x); cbn [List.filter andb]; [|exact IH].
  destruct (q x); now rewrite IH.
Qed.

(** Whatever is picked in one [<select>], the records kept are a
    subsequence of those kept with "all" picked there: they are the
    ones among these whose cell of that column is the text picked. *)
Theorem selection_narrows (d : list entry) (f : Filters) (key val : string) :
  sublist (filteredData d (handleFilterChange key val f))
          (filteredData d (handleFilterChange key "all" f))
  /\ (dimension key ->
      filteredData d (handleFilterChange key val f)
      = filteredData (filteredData d (handleFilterChange key "all" f))
          (handleFilterChange key val no_filter)).
Proof.
  unfold filteredData. split.
  - apply filter_sublist_mono, passes_relaxed.
  - intros Hkey. rewrite filter_filter. apply filter_ext. intros item.
    now apply passes_split.
Qed.

Lemma run_snoc (st : AppState) (events : list event) (e : event) :
  run st (events ++ [e]) = dispatch (run st events) e.
Proof. unfold run. now rewrite fold_left_app. Qed.

Lemma selection_of_change (key k v : string) (f : Filters) :
  dimension key ->
  selection_of key (handleFilterChange k v f)
  = if String.eqb k key then v else selection_of key f.
Proof.
  intros [-> | [-> | ->]]; unfold handleFilterChange, selection_of;
    destruct (String.eqb k "region") eqn:E1;
    destruct (String.eqb k "smoker") eqn:E2;
    destruct (String.eqb k "sex") eqn:E3;
    try reflexivity;
    repeat match goal with
           | H : String.eqb _ _ = true |- _ => apply String_eqb_true in H; subst
           end; discriminate.
Qed.

(** After any series of events each dimension of the selection holds
    the value picked last for it, or its former value when none
    was. *)
Theorem last_pick_wins (st : AppState) (events : list event) (key : string) :
  dimension key ->
  selection_of key (filters (run st events))
  = List.last (picks key events) (selection_of key (filters st)).
Proof.
  intros Hkey. induction events as [|e events IH] using rev_ind; [reflexivity|].
  rewrite run_snoc. unfold picks in *. rewrite omap_app.
  destruct e as [r|k v]; cbn [omap list_omap dispatch].
  - rewrite app_nil_r, <- IH. now destruct r.
  - cbn [filters]. rewrite selection_of_change by exact Hkey.
    destruct (String.eqb k key).
    + now rewrite List.last_last.
    + now rewrite app_nil_r.
Qed.

Lemma last_pick_wins_example :
  dimension "smoker"
  /\ selection_of "smoker"
       (filters (run initial [Change "smoker" "yes"; Change "region" "southeast";
                              Change "smoker" "no"]))
     = List.last (picks "smoker" [Change "smoker" "yes"; Change "region" "southeast";
                                  Change "smoker" "no"])
         (selection_of "smoker" (filters initial)).
Proof.
  assert (H : dimension "smoker") by (right; left; reflexivity).
  split; [exact H|].
  exact (last_pick_wins initial _ "smoker" H).
Defined.

Lemma run_changes_frame (st : AppState) (cs : list (string * string)) :
  data (run st (changes cs)) = data st
  /\ loading (run st (changes cs)) = loading st
  /\ console_error (run st (changes cs)) = console_error st.
Proof.
  induction cs as [|[k v] cs IH] using rev_ind; [now repeat split|].
  unfold changes. rewrite map_app. cbn [map]. rewrite run_snoc.
  cbn [dispatch data loading console_error fst snd]. exact IH.
Qed.

(** Once the file is loaded, picking in the [<select>]s never changes
    the dataset, the loading flag or the log; the records shown are
    always a subsequence of the parsed file. *)
Theorem dataset_frozen_after_load (st : AppState) (text : string)
    (cs : list (string * string)) :
  data (run (on_settled (Fulfilled text) st) (changes cs)) = parsed text
  /\ loading (run (on_settled (Fulfilled text) st) (changes cs)) = false
  /\ console_error (run (on_settled (Fulfilled text) st) (changes cs))
     = console_error st
  /\ sublist
       (filteredData (data (run (on_settled (Fulfilled text) st) (changes cs)))
          (filters (run (on_settled (Fulfilled text) st) (changes cs))))
       (parsed text).
Proof.
  destruct (run_changes_frame (on_settled (Fulfilled text) st) cs) as (Hd & Hl & Hc).
  rewrite Hd, Hl, Hc. repeat split. apply filter_sublist.
Qed.

(** ** The scatter chart *)

(** Each point is its record with one more property, [fill]: every
    other column is kept (the bmi and the charges among them), and
    the colour is the smokers' one exactly for a [smoker] cell
    "yes". *)
Theorem scatterData_points (fd : list entry) :
  Forall2 (fun item pt =>
             (forall k, k <> "fill" -> pt !! k = item !! k)
             /\ get pt "fill"
                = VString (if decide (get item "smoker" = VString "yes")
                           then "#ef4444" else "#3b82f6"))
    fd (scatterData fd).
Proof.
  unfold scatterData. induction fd as [|item fd IH]; constructor; [|exact IH].
  unfold scatter_point. split.
  - intros k Hk. now rewrite lookup_insert_ne.
  - unfold get at 1. rewrite lookup_insert_eq. cbn [default]. f_equal.
    destruct (strict_eq (get item "smoker") (VString "yes")) eqn:E.
    + apply strict_eq_string in E. now rewrite decide_True.
    + rewrite decide_False; [reflexivity|].
      intros H. apply strict_eq_string in H. congruence.
Qed.

Lemma red_points_yes_count (fd : list entry) :
  red_points (scatterData fd) = yes_count fd.
Proof.
  unfold red_points, yes_count, scatterData.
  induction fd as [|item fd IH]; [reflexivity|].
  cbn [map]. rewrite !filter_cons.
  assert (Hfill : get (scatter_point item) "fill" = VString "#ef4444"
                  <-> get item "smoker" = VString "yes").
  { unfold scatter_point, get at 1. rewrite lookup_insert_eq. cbn [default].
    destruct (strict_eq (get item "smoker") (VString "yes")) eqn:E.
    - apply strict_eq_string in E. tauto.
    - split; [discriminate|]. intros H. apply strict_eq_string in H. congruence. }
  destruct (decide (get item "smoker" = VString "yes")) as [Hy|Hn].
  - rewrite decide_True by now apply Hfill. cbn [length]. now f_equal.
  - rewrite decide_False by (intros H; now apply Hn, Hfill). exact IH.
Qed.

(** The share of red points in the chart is the smoker percentage of
    the card. *)
Theorem red_points_share (NumberToString : float -> string) (fd : list entry) :
  length (scatterData fd) = count (stats NumberToString fd)
  /\ red_points (scatterData fd) = smokers_of fd
  /\ (fd <> [] ->
      smokerPct (stats NumberToString fd)
      = (Number_of_nat (red_points (scatterData fd))
         / Number_of_nat (length (scatterData fd)) * 100)%float).
Proof.
  assert (Hlen : length (scatterData fd) = length fd)
    by (unfold scatterData; apply length_map).
  split; [|split].
  - rewrite Hlen. unfold stats. now destruct fd.
  - now rewrite red_points_yes_count, smokers_of_yes_count.
  - intros Hne. rewrite red_points_yes_count, Hlen. now apply stats_smokerPct.
Qed.

(** ** The colours of the bars *)

Lemma cell_fill_mod (i : nat) :
  cell_fill i = match i mod 4 with
                | 0 => VString "#3b82f6"
                | 1 => VString "#06b6d4"
                | 2 => VString "#8b5cf6"
                | _ => VString "#ec4899"
                end.
Proof.
  unfold cell_fill. change (length COLORS) with 4.
  pose proof (Nat.mod_upper_bound i 4 ltac:(lia)) as H.
  destruct (i mod 4) as [|[|[|[|n]]]]; try reflexivity. lia.
Qed.

Lemma cell_fills_lookup (bars : list bar) (i : nat) :
  cell_fills bars !! i = (fun _ => cell_fill i) <$> bars !! i.
Proof. unfold cell_fills. now rewrite list_lookup_imap. Qed.

(** Every bar gets one of the four colours; two bars get the same one
    exactly when their positions differ by a multiple of four, so the
    bars have pairwise distinct colours exactly when there are at most
    four of them. *)
Theorem cell_fills_distinct (bars : list bar) :
  length (cell_fills bars) = length bars
  /\ (forall i v, cell_fills bars !! i = Some v ->
        exists c, c ∈ COLORS /\ v = VString c)
  /\ (forall i j v w, cell_fills bars !! i = Some v -> cell_fills bars !! j = Some w ->
        (v = w <-> i mod 4 = j mod 4))
  /\ (NoDup (cell_fills bars) <-> length bars <= 4).
Proof.
  assert (Hlen : length (cell_fills bars) = length bars)
    by (unfold cell_fills; apply length_imap).
  assert (Hsame : forall i j v w,
             cell_fills bars !! i = Some v -> cell_fills bars !! j = Some w ->
             (v = w <-> i mod 4 = j mod 4)).
  { intros i j v w Hi Hj. rewrite cell_fills_lookup in Hi, Hj.
    destruct (bars !! i); [|discriminate]. destruct (bars !! j); [|discriminate].
    injection Hi as <-. injection Hj as <-. rewrite !cell_fill_mod.
    pose proof (Nat.mod_upper_bound i 4 ltac:(lia)) as Hi.
    pose proof (Nat.mod_upper_bound j 4 ltac:(lia)) as Hj.
    destruct (i mod 4) as [|[|[|[|n]]]]; try lia;
      destruct (j mod 4) as [|[|[|[|m]]]]; try lia;
      split; intros H; try reflexivity; try discriminate. }
  split; [exact Hlen|]. split; [|split; [exact Hsame|]].
  - intros i v Hi. rewrite cell_fills_lookup in Hi.
    destruct (bars !! i); [|discriminate]. injection Hi as <-.
    rewrite cell_fill_mod. unfold COLORS.
    destruct (i mod 4) as [|[|[|n]]]; eexists; (split; [|reflexivity]);
      apply list_elem_of_In; simpl; tauto.
  - split.
    + intros Hnd. destruct (le_lt_dec (length bars) 4) as [Hle|Hgt]; [exact Hle|].
      exfalso.
      destruct (lookup_lt_is_Some_2 (cell_fills bars) 0 ltac:(lia)) as [v Hv].
      destruct (lookup_lt_is_Some_2 (cell_fills bars) 4 ltac:(lia)) as [w Hw].
      assert (Hvw : v = w) by (apply (Hsame 0 4 v w Hv Hw); reflexivity).
      subst w. pose proof (NoDup_lookup _ _ _ _ Hnd Hv Hw). discriminate.
    + intros Hle. apply NoDup_alt. intros i j v Hi Hj.
      pose proof (lookup_lt_Some _ _ _ Hi) as Hi'.
      pose proof (lookup_lt_Some _ _ _ Hj) as Hj'.
      pose proof (proj1 (Hsame i j v v Hi Hj) eq_refl) as Hmod.
      rewrite !Nat.mod_small in Hmod by lia. exact Hmod.
Qed.

(** ** The parser, line by line *)

Lemma forEach_header_absent (headers : list string) (i : nat)
    (values : list string) (o : entry) (h : string) :
  h ∉ headers \/ h = "__proto__" ->
  forEach_header headers i values o !! h = o !! h.
Proof.
  revert i o. induction headers as [|h0 hs IH]; intros i o Hh; [reflexivity|].
  cbn [forEach_header]. rewrite IH.
  - unfold set_property. destruct (String.eqb h0 "__proto__") eqn:E; [reflexivity|].
    apply String_eqb_false in E. apply lookup_insert_ne.
    destruct Hh as [Hh| ->]; [|exact E]. intros ->. apply Hh. left.
  - destruct Hh as [Hh|Hh]; [left|now right]. intros H. apply Hh. now right.
Qed.

Lemma forEach_header_last (headers : list string) (i : nat)
    (values : list string) (o : entry) (j : nat) (h : string) :
  headers !! j = Some h ->
  h <> "__proto__" ->
  (forall j', j < j' -> headers !! j' <> Some h) ->
  forEach_header headers i values o !! h
  = Some (parse_cell (values !! (i + j))).
Proof.
  revert i o j. induction headers as [|h0 hs IH]; intros i o j Hj Hp Hlast;
    [discriminate|].
  cbn [forEach_header]. destruct j as [|j].
  - injection Hj as ->. rewrite forEach_header_absent.
    + unfold set_property. apply String_eqb_false in Hp. rewrite Hp.
      rewrite lookup_insert_eq. now rewrite Nat.add_0_r.
    + left. intros Hin. apply list_elem_of_lookup in Hin as [j' Hj'].
      apply (Hlast (S j')); [lia|exact Hj'].
  - rewrite (IH (S i) _ j); [f_equal; f_equal; f_equal; lia|exact Hj|exact Hp|].
    intros j' Hlt. apply (Hlast (S j')). lia.
Qed.

(** A line gives no record exactly when it is blank.  Otherwise the
    record has a cell for each header name and for nothing else: the
    cell of [h] is read from the field at the position of the last
    header named [h] ([undefined] when the row is too short), and a
    header named [__proto__] gives no cell. *)
Theorem parse_line_cells (headers : list string) (line : string) :
  (parse_line headers line = None <-> trim line = "")
  /\ forall e, parse_line headers line = Some e ->
       (forall h, h ∉ headers \/ h = "__proto__" -> e !! h = None)
       /\ (forall j h, headers !! j = Some h -> h <> "__proto__" ->
             (forall j', j < j' -> headers !! j' <> Some h) ->
             e !! h = Some (parse_cell (split "," line !! j))).
Proof.
  unfold parse_line. cbn [ToBoolean].
  destruct (String.eqb (trim line) "") eqn:E; cbn [negb].
  - apply String_eqb_true in E. split; [tauto|]. intros e He. discriminate.
  - apply String_eqb_false in E. split; [split; [discriminate|contradiction]|].
    intros e [= <-]. split.
    + intros h Hh. now rewrite forEach_header_absent.
    + intros j h Hj Hp Hlast.
      now rewrite (forEach_header_last headers 0 _ _ j h Hj Hp Hlast).
Qed.

(** ** Cells that look numeric *)

Lemma parseFloat_non_decimal (t : string) (n : Z) :
  scan_non_decimal t = Some n -> parseFloat t = 0%float.
Proof.
  destruct t as [|a [|p [|c s]]]; try discriminate.
  - intros H. exfalso. revert H.
    destruct a as [[] [] [] [] [] [] [] []]; discriminate.
  - intros H. exfalso. revert H.
    destruct a as [[] [] [] [] [] [] [] []]; discriminate.
  - intros H.
    assert (Ha : a = "0"%char).
    { revert H. destruct a as [[] [] [] [] [] [] [] []]; try discriminate.
      reflexivity. }
    subst a. cbn [scan_non_decimal] in H.
    destruct (Ascii.eqb p "x") eqn:E1; [apply Ascii.eqb_eq in E1; subst; reflexivity|].
    destruct (Ascii.eqb p "X") eqn:E2; [apply Ascii.eqb_eq in E2; subst; reflexivity|].
    destruct (Ascii.eqb p "o") eqn:E3; [apply Ascii.eqb_eq in E3; subst; reflexivity|].
    destruct (Ascii.eqb p "O") eqn:E4; [apply Ascii.eqb_eq in E4; subst; reflexivity|].
    destruct (Ascii.eqb p "b") eqn:E5; [apply Ascii.eqb_eq in E5; subst; reflexivity|].
    destruct (Ascii.eqb p "B") eqn:E6; [apply Ascii.eqb_eq in E6; subst; reflexivity|].
    discriminate.
Qed.

Lemma scan_non_decimal_nonempty (t : string) (n : Z) :
  scan_non_decimal t = Some n -> t <> "".
Proof. intros H ->. discriminate. Qed.

(** A cell holding a [0x], [0o] or [0b] literal passes the [isNaN]
    test, since [Number] reads it as the integer [n] it denotes, but
    [parseFloat] stops at the letter: whatever [n], the cell is stored
    as the Number [0]. *)
Theorem non_decimal_cell_zero (cell : string) (n : Z) :
  scan_non_decimal (trim cell) = Some n ->
  isNaN (VString cell) = false
  /\ ToNumber (VString cell) = round_ratio false n 1
  /\ parse_cell (Some cell) = VNumber 0.
Proof.
  intros H. pose proof (scan_non_decimal_nonempty _ _ H) as Hne.
  assert (Hnum : ToNumber (VString cell) = round_ratio false n 1).
  { cbn [ToNumber]. unfold StringToNumber.
    apply String_eqb_false in Hne. now rewrite Hne, H. }
  assert (Hnan : isNaN (VString cell) = false).
  { unfold isNaN. rewrite Hnum. apply round_ratio_not_nan. }
  split; [exact Hnan|]. split; [exact Hnum|].
  unfold parse_cell. cbn [fmap option_fmap option_map ToBoolean].
  assert (Hnan' : isNaN (VString (trim cell)) = false).
  { unfold isNaN in *. cbn [ToNumber] in *. unfold StringToNumber in *.
    now rewrite trim_idem. }
  rewrite Hnan'. apply String_eqb_false in Hne. rewrite Hne. cbn [negb andb].
  f_equal. eapply parseFloat_non_decimal. exact H.
Qed.

Lemma non_decimal_cell_zero_example :
  scan_non_decimal (trim " 0x1F") = Some 31%Z
  /\ isNaN (VString " 0x1F") = false
  /\ ToNumber (VString " 0x1F") = round_ratio false 31 1
  /\ parse_cell (Some " 0x1F") = VNumber 0.
Proof.
  split; [reflexivity|].
  exact (non_decimal_cell_zero " 0x1F" 31 eq_refl).
Defined.

(** The parser never stores [NaN]; it stores [undefined] only for a
    field that the row does not have; and a string it stores has no
    white space around it. *)
Theorem parse_cell_defined (cell : option string) :
  (forall n, parse_cell cell = VNumber n -> PrimFloat.is_nan n = false)
  /\ (parse_cell cell = VUndefined <-> cell = None)
  /\ (forall s, parse_cell cell = VString s -> trim s = s).
Proof.
  destruct cell as [cell|]; [|split; [discriminate|split; [tauto|discriminate]]].
  assert (Hpc : parse_cell (Some cell)
                = if negb (String.eqb (trim cell) "")
                     && negb (isNaN (VString (trim cell)))
                  then VNumber (parseFloat (trim cell))
                  else VString (trim cell)) by reflexivity.
  rewrite Hpc. clear Hpc. split; [|split].
  - intros n Hn.
    destruct (String.eqb (trim cell) "") eqn:Et; [discriminate|].
    destruct (isNaN (VString (trim cell))) eqn:Hnan; [discriminate|].
    cbn [negb andb] in Hn. injection Hn as <-.
    apply String_eqb_false in Et.
    destruct (scan_non_decimal (trim cell)) as [z|] eqn:Hnd.
    + now rewrite (parseFloat_non_decimal _ _ Hnd).
    + rewrite (parseFloat_Number (trim cell) (trim_idem cell) Et Hnd Hnan).
      exact Hnan.
  - split; [|discriminate].
    now destruct (negb (String.eqb (trim cell) "")
                  && negb (isNaN (VString (trim cell)))).
  - intros s.
    destruct (negb (String.eqb (trim cell) "")
              && negb (isNaN (VString (trim cell)))); [discriminate|].
    intros [= <-]. apply trim_idem.
Qed.

(** ** The parser on whole texts *)

Lemma split_nonempty (sep : ascii) (s : string) : split sep s <> [].
Proof.
  induction s as [|c s IH]; simpl; [discriminate|].
  destruct (Ascii.eqb c sep); [discriminate|].
  destruct (split sep s); [contradiction|discriminate].
Qed.

Lemma split_absent (sep : ascii) (s : string) :
  occurs sep s = false -> split sep s = [s].
Proof.
  induction s as [|c s IH]; simpl; [reflexivity|].
  destruct (Ascii.eqb c sep); [discriminate|]. simpl. intros H.
  now rewrite (IH H).
Qed.

Lemma parsed_no_line_feed (text : string) :
  occurs "010" (trim text) = false -> parsed text = [].
Proof.
  intros H. unfold parsed. now rewrite (split_absent _ _ H).
Qed.

Lemma trimStart_blank (ws : string) : blank ws = true -> trimStart ws = "".
Proof.
  induction ws as [|c ws IH]; simpl; [reflexivity|].
  destruct (Ascii.is_space c); [exact IH|discriminate].
Qed.

Lemma trimEnd_blank (ws : string) : blank ws = true -> trimEnd ws = "".
Proof.
  induction ws as [|c ws IH]; simpl; [reflexivity|].
  destruct (Ascii.is_space c); [|discriminate]. simpl. intros H.
  now rewrite (IH H).
Qed.

Lemma trimStart_blank_app (ws s : string) :
  blank ws = true -> trimStart (ws +:+ s) = trimStart s.
Proof.
  induction ws as [|c ws IH]; simpl; [reflexivity|].
  destruct (Ascii.is_space c); [exact IH|discriminate].
Qed.

Lemma trimEnd_app_blank (s ws : string) :
  blank ws = true -> trimEnd (s +:+ ws) = trimEnd s.
Proof.
  intros H. induction s as [|c s IH]; simpl.
  - now apply trimEnd_blank.
  - now rewrite IH.
Qed.

Lemma trim_app_blank (s ws : string) :
  blank ws = true -> trim (s +:+ ws) = trim s.
Proof.
  intros H. unfold trim. induction s as [|c s IH]; simpl.
  - change ("" +:+ ws) with ws. now rewrite (trimStart_blank ws H).
  - destruct (Ascii.is_space c); [exact IH|].
    change (String c (s +:+ ws)) with (String c s +:+ ws).
    now apply trimEnd_app_blank.
Qed.

Lemma trim_blank_app (ws s : string) :
  blank ws = true -> trim (ws +:+ s) = trim s.
Proof. intros H. unfold trim. now rewrite trimStart_blank_app. Qed.

(** White space around the text is ignored: in particular a final
    line feed adds no record. *)
Theorem parsed_padding (ws1 text ws2 : string) :
  blank ws1 = true -> blank ws2 = true ->
  parsed (ws1 +:+ text +:+ ws2) = parsed text.
Proof.
  intros H1 H2. unfold parsed.
  now rewrite trim_blank_app, trim_app_blank.
Qed.

Lemma parsed_padding_example :
  (blank "" = true /\ blank newline = true)
  /\ parsed ("" +:+ example_csv +:+ newline) = parsed example_csv.
Proof.
  split; [split; reflexivity|].
  exact (parsed_padding "" example_csv newline eq_refl eq_refl).
Defined.

(** *** Windows line ends *)

Lemma crlf_empty (s : string) : String.eqb (crlf s) "" = String.eqb s "".
Proof.
  destruct s as [|c s]; [reflexivity|]. simpl.
  now destruct (Ascii.eqb c "010").
Qed.

Lemma crlf_trimStart (s : string) : trimStart (crlf s) = crlf (trimStart s).
Proof.
  induction s as [|c s IH]; [reflexivity|]. cbn [crlf].
  destruct (Ascii.eqb c "010") eqn:E.
  - apply Ascii.eqb_eq in E. subst c. exact IH.
  - cbn [trimStart]. destruct (Ascii.is_space c); [exact IH|].
    cbn [crlf]. now rewrite E.
Qed.

Lemma crlf_trimEnd (s : string) : trimEnd (crlf s) = crlf (trimEnd s).
Proof.
  induction s as [|c s IH]; [reflexivity|]. cbn [crlf].
  destruct (Ascii.eqb c "010") eqn:E.
  - apply Ascii.eqb_eq in E. subst c. cbn [trimEnd]. rewrite IH, crlf_empty.
    change (Ascii.is_space "010") with true. change (Ascii.is_space "013") with true.
    cbn [andb]. destruct (String.eqb (trimEnd s) "") eqn:Et; [reflexivity|].
    reflexivity.
  - cbn [trimEnd]. rewrite IH, crlf_empty.
    destruct (Ascii.is_space c && String.eqb (trimEnd s) ""); [reflexivity|].
    cbn [crlf]. now rewrite E.
Qed.

Lemma crlf_trim (s : string) : trim (crlf s) = crlf (trim s).
Proof. unfold trim. now rewrite crlf_trimStart, crlf_trimEnd. Qed.

Lemma split_crlf (s : string) :
  Forall2 (fun a b => a = b \/ a = b +:+ carriage_return)
    (split "010" (crlf s)) (split "010" s).
Proof.
  induction s as [|c s IH]; [repeat constructor|]. cbn [crlf].
  destruct (Ascii.eqb c "010") eqn:E.
  - apply Ascii.eqb_eq in E. subst c.
    change (split "010" (String "013" (String "010" (crlf s))))
      with (match "" :: split "010" (crlf s) with
            | h :: t => String "013" h :: t
            | [] => [String "013" EmptyString]
            end).
    change (split "010" (String "010" s)) with ("" :: split "010" s).
    constructor; [now right|exact IH].
  - cbn [split]. rewrite E.
    destruct (split "010" (crlf s)) as [|h t] eqn:E1;
      [now apply split_nonempty in E1|].
    destruct (split "010" s) as [|h' t'] eqn:E2;
      [now apply split_nonempty in E2|].
    apply Forall2_cons_1 in IH as [[->| ->] IH]; constructor; auto.
Qed.

Lemma split_app_blank (sep : ascii) (s ws : string) :
  occurs sep ws = false ->
  Forall2 (fun a b => a = b \/ a = b +:+ ws)
    (split sep (s +:+ ws)) (split sep s).
Proof.
  intros Hws. induction s as [|c s IH].
  - change ("" +:+ ws) with ws. rewrite (split_absent _ _ Hws).
    constructor; [now right|constructor].
  - change (String c s +:+ ws) with (String c (s +:+ ws)). cbn [split].
    destruct (Ascii.eqb c sep); [constructor; [now left|exact IH]|].
    destruct (split sep (s +:+ ws)) as [|h t] eqn:E1;
      [now apply split_nonempty in E1|].
    destruct (split sep s) as [|h' t'] eqn:E2;
      [now apply split_nonempty in E2|].
    apply Forall2_cons_1 in IH as [[->| ->] IH]; constructor; auto.
Qed.

Lemma map_trim_split_cr (s : string) :
  map trim (split "," (s +:+ carriage_return)) = map trim (split "," s).
Proof.
  pose proof (split_app_blank "," s carriage_return eq_refl) as H.
  induction H as [|a b l l' [->| ->] _ IH]; cbn [map]; [reflexivity| |];
    rewrite IH; [reflexivity|].
  now rewrite trim_app_blank.
Qed.

Lemma forEach_header_trim (headers : list string) (i : nat)
    (values values' : list string) (o : entry) :
  map trim values = map trim values' ->
  forEach_header headers i values o = forEach_header headers i values' o.
Proof.
  intros H. revert i o. induction headers as [|h hs IH]; intros i o; [reflexivity|].
  cbn [forEach_header]. rewrite IH. do 2 f_equal.
  unfold parse_cell.
  assert (H' : trim <$> values = trim <$> values') by exact H.
  now rewrite <- !list_lookup_fmap, H'.
Qed.

Lemma parse_line_cr (headers : list string) (line : string) :
  parse_line headers (line +:+ carriage_return) = parse_line headers line.
Proof.
  unfold parse_line. rewrite trim_app_blank by reflexivity.
  destruct (negb (ToBoolean (VString (trim line)))); [reflexivity|].
  f_equal. apply forEach_header_trim, map_trim_split_cr.
Qed.

(** Windows line ends are harmless: a carriage return before each
    line feed changes no record. *)
Theorem parsed_crlf (text : string) : parsed (crlf text) = parsed text.
Proof.
  unfold parsed. rewrite crlf_trim.
  pose proof (split_crlf (trim text)) as H.
  destruct H as [|l0' l0 rest' rest Hl0 Hrest]; [reflexivity|].
  assert (Hh : map trim (split "," l0') = map trim (split "," l0)).
  { destruct Hl0 as [->| ->]; [reflexivity|apply map_trim_split_cr]. }
  rewrite Hh. clear Hh Hl0.
  induction Hrest as [|r' r rest' rest [->| ->] _ IH]; [reflexivity| |];
    cbn [omap list_omap]; rewrite ?parse_line_cr, IH; reflexivity.
Qed.

(** ** Exact quotients of array lengths *)

Local Open Scope Z_scope.

Lemma SFdiv_self (m : positive) (e : Z) :
  SFdiv prec emax (S754_finite false m e) (S754_finite false m e)
  = S754_finite false 4503599627370496 (-52).
Proof.
  unfold SFdiv, SFdiv_core_binary.
  rewrite !Z.sub_diag.
  change (Z.min (fexp prec emax 0) 0) with (-53).
  change (0 - -53) with 53.
  assert (Hdm : Z.div_eucl (Z.shiftl (Z.pos m) 53) (Z.pos m) = (2 ^ 53, 0)).
  { rewrite Z.shiftl_mul_pow2 by lia.
    pose proof (Z_div_mod_eq_full (Z.pos m * 2 ^ 53) (Z.pos m)) as Hqr.
    assert (Hq : Z.pos m * 2 ^ 53 / Z.pos m = 2 ^ 53).
    { rewrite Z.mul_comm. apply Z.div_mul. lia. }
    assert (Hr : (Z.pos m * 2 ^ 53) mod Z.pos m = 0).
    { rewrite Z.mul_comm. apply Z.mod_mul. lia. }
    unfold Z.div, Z.modulo in Hq, Hr.
    destruct (Z.div_eucl (Z.pos m * 2 ^ 53) (Z.pos m)) as [q r].
    now subst. }
  cbv iota. change IntDef.Z.div_eucl with Z.div_eucl.
  rewrite Hdm, new_location_0. reflexivity.
Qed.

Lemma div_count_self (n : Z) :
  0 < n < 2 ^ 53 ->
  (PrimFloat.of_uint63 (Uint63.of_Z n) / PrimFloat.of_uint63 (Uint63.of_Z n)
   = 1)%float.
Proof.
  intros Hn. apply Prim2SF_inj. rewrite FloatAxioms.div_spec. unfold SF64div.
  rewrite Prim2SF_of_Z by lia.
  destruct (binary_normalize_exact n Hn) as (m & e & -> & _).
  apply SFdiv_self.
Qed.

Lemma div_zero_count (n : Z) :
  0 < n < 2 ^ 53 ->
  (PrimFloat.of_uint63 (Uint63.of_Z 0) / PrimFloat.of_uint63 (Uint63.of_Z n)
   = 0)%float.
Proof.
  intros Hn. apply Prim2SF_inj. rewrite FloatAxioms.div_spec. unfold SF64div.
  rewrite (Prim2SF_of_Z n) by lia.
  destruct (binary_normalize_exact n Hn) as (m & e & -> & _).
  reflexivity.
Qed.

Local Close Scope Z_scope.

(** ** The smoker percentage under a smoker selection *)

Lemma filteredData_smoker_cells (d : list entry) (f : Filters) :
  smoker f <> "all" ->
  Forall (fun item => get item "smoker" = VString (smoker f)) (filteredData d f).
Proof.
  intros Hall. apply Forall_forall. intros item Hin.
  apply list_elem_of_In, filter_In in Hin as [_ Hp].
  apply passes_selected in Hp as (_ & [Hs|Hs] & _); [contradiction|exact Hs].
Qed.

Lemma yes_count_all (fd : list entry) :
  Forall (fun item => get item "smoker" = VString "yes") fd ->
  yes_count fd = length fd.
Proof.
  unfold yes_count. induction 1 as [|item fd Hy _ IH]; [reflexivity|].
  rewrite filter_cons, decide_True by exact Hy. cbn [length]. now f_equal.
Qed.

Lemma yes_count_none (fd : list entry) :
  Forall (fun item => get item "smoker" <> VString "yes") fd ->
  yes_count fd = 0.
Proof.
  unfold yes_count. induction 1 as [|item fd Hy _ IH]; [reflexivity|].
  now rewrite filter_cons, decide_False by exact Hy.
Qed.

(** With a smoker status selected the percentage on the card is
    exact: 100 when the status is "yes", 0 for any other status (and
    0 when no record is left). *)
Theorem smoker_selection_pct (NumberToString : float -> string)
    (d : list entry) (f : Filters) :
  smoker f <> "all" ->
  (Z.of_nat (length d) <= 4294967295)%Z ->
  smokerPct (stats NumberToString (filteredData d f))
  = match filteredData d f with
    | [] => 0%float
    | _ :: _ => if String.eqb (smoker f) "yes" then 100%float else 0%float
    end.
Proof.
  intros Hall Hlen.
  pose proof (filteredData_smoker_cells d f Hall) as Hcells.
  assert (Hle : length (filteredData d f) <= length d)
    by (unfold filteredData; apply List.filter_length_le).
  destruct (filteredData d f) as [|item fd] eqn:E; [reflexivity|].
  rewrite stats_smokerPct by discriminate.
  assert (Hn : (0 < Z.of_nat (length (item :: fd)) < 2 ^ 53)%Z)
    by (cbn [length] in *; lia).
  destruct (String.eqb (smoker f) "yes") eqn:Ey.
  - apply String_eqb_true in Ey. rewrite Ey in Hcells.
    rewrite (yes_count_all _ Hcells). unfold Number_of_nat.
    rewrite (div_count_self _ Hn). reflexivity.
  - apply String_eqb_false in Ey. rewrite yes_count_none.
    + unfold Number_of_nat. change (Z.of_nat 0) with 0%Z.
      rewrite (div_zero_count _ Hn). reflexivity.
    + eapply Forall_impl; [exact Hcells|]. cbn beta. intros x -> [= H].
      now apply Ey.
Qed.

Lemma smoker_selection_pct_example :
  (smoker {| region := "all"; smoker := "yes"; sex := "all" |} <> "all"
   /\ (Z.of_nat (length (parsed example_csv)) <= 4294967295)%Z)
  /\ smokerPct (stats (fun _ => EmptyString)
                  (filteredData (parsed example_csv)
                     {| region := "all"; smoker := "yes"; sex := "all" |}))
     = match filteredData (parsed example_csv)
               {| region := "all"; smoker := "yes"; sex := "all" |} with
       | [] => 0%float
       | _ :: _ =>
           if String.eqb (smoker {| region := "all"; smoker := "yes"; sex := "all" |})
                "yes"
           then 100%float else 0%float
       end.
Proof.
  assert (H1 : smoker {| region := "all"; smoker := "yes"; sex := "all" |} <> "all")
    by discriminate.
  assert (H2 : (Z.of_nat (length (parsed example_csv)) <= 4294967295)%Z)
    by (rewrite example_parsed; simpl; lia).
  split; [split; assumption|].
  exact (smoker_selection_pct (fun _ => EmptyString) (parsed example_csv) _ H1 H2).
Defined.

(** ** A record without charges *)

Lemma add_nan (x c : float) :
  PrimFloat.is_nan c = true -> PrimFloat.is_nan (x + c) = true.
Proof.
  intros H. apply Prim2SF_is_nan.
  rewrite FloatAxioms.add_spec, (is_nan_Prim2SF c H).
  unfold SF64add. now destruct (Prim2SF x).
Qed.

Lemma nan_div (x y : float) :
  PrimFloat.is_nan x = true -> PrimFloat.is_nan (x / y) = true.
Proof.
  intros H. apply Prim2SF_is_nan.
  rewrite FloatAxioms.div_spec, (is_nan_Prim2SF x H). reflexivity.
Qed.

Lemma reduce_charges_missing (NumberToString : float -> string)
    (fd : list entry) (acc : float) :
  Forall (fun item => get item "charges" = VUndefined
                      \/ exists c, get item "charges" = VNumber c) fd ->
  exists t,
    fold_left (fun sum item => js_add NumberToString sum (get item "charges")) fd
      (VNumber acc) = VNumber t
    /\ (PrimFloat.is_nan acc = true
        \/ Exists (fun item => get item "charges" = VUndefined) fd ->
        PrimFloat.is_nan t = true).
Proof.
  intros H. revert acc. induction H as [|item fd Hitem _ IH]; intros acc.
  - exists acc. split; [reflexivity|]. intros [Hn|He]; [exact Hn|].
    now apply Exists_nil in He.
  - cbn [fold_left]. destruct Hitem as [Hu|[c Hc]].
    + rewrite Hu. cbn [js_add ToNumber].
      destruct (IH (acc + PrimFloat.nan)%float) as (t & Ht & Hnan).
      exists t. split; [exact Ht|]. intros _. apply Hnan. left.
      now apply add_nan.
    + rewrite Hc. cbn [js_add ToNumber].
      destruct (IH (acc + c)%float) as (t & Ht & Hnan).
      exists t. split; [exact Ht|]. intros [Hn|He]; apply Hnan.
      * left. now apply nan_add.
      * apply Exists_cons in He as [He|He]; [congruence|now right].
Qed.

(** When a record has no [charges] (a row that is too short), the
    others having Numbers, the average charge is [NaN]. *)
Theorem missing_charges_average_NaN (NumberToString : float -> string)
    (fd : list entry) :
  Forall (fun item => get item "charges" = VUndefined
                      \/ exists c, get item "charges" = VNumber c) fd ->
  Exists (fun item => get item "charges" = VUndefined) fd ->
  PrimFloat.is_nan (avgCharge (stats NumberToString fd)) = true.
Proof.
  intros Hall Hex. unfold stats.
  destruct fd as [|item fd]; [now apply Exists_nil in Hex|].
  cbn [length Nat.eqb avgCharge]. unfold js_div, totalCharges.
  destruct (reduce_charges_missing NumberToString (item :: fd) 0%float Hall)
    as (t & -> & Hnan).
  cbn [ToNumber]. apply nan_div, Hnan. now right.
Qed.

Lemma missing_charges_average_NaN_example :
  (Forall (fun item => get item "charges" = VUndefined
                       \/ exists c, get item "charges" = VNumber c)
     (parsed short_row_csv)
   /\ Exists (fun item => get item "charges" = VUndefined) (parsed short_row_csv))
  /\ PrimFloat.is_nan (avgCharge (stats (fun _ => EmptyString) (parsed short_row_csv)))
     = true.
Proof.
  assert (Hp : parsed short_row_csv
               = [<["region" := VString "north"]> (<["charges" := VNumber 10]> ∅);
                  <["region" := VString "south"]> (<["charges" := VUndefined]> ∅)])
    by (vm_compute; exact eq_refl).
  assert (H1 : Forall (fun item => get item "charges" = VUndefined
                                   \/ exists c, get item "charges" = VNumber c)
                 (parsed short_row_csv)).
  { rewrite Hp. constructor; [right; eexists; reflexivity|].
    constructor; [left; reflexivity|constructor]. }
  assert (H2 : Exists (fun item => get item "charges" = VUndefined)
                 (parsed short_row_csv)).
  { rewrite Hp. right. left. reflexivity. }
  split; [split; assumption|].
  exact (missing_charges_average_NaN (fun _ => EmptyString) (parsed short_row_csv)
           H1 H2).
Defined.

(** ** One region selected *)

Lemma first_occurrences_const (r : string) (rs : list string) :
  rs <> [] -> Forall (fun r' => r' = r) rs -> first_occurrences rs = [r].
Proof.
  intros Hne Hall. induction Hall as [|r' rs -> Hall IH]; [contradiction|].
  cbn [first_occurrences]. destruct rs as [|r'' rs]; [reflexivity|].
  rewrite IH by discriminate. cbn [List.filter].
  now rewrite String.eqb_refl.
Qed.

Lemma grouped_single (r : string) (rs : list string) :
  rs <> [] -> Forall (fun r' => r' = r) rs -> inherited r = false ->
  grouped rs = [r].
Proof.
  intros Hne Hall Hni. unfold grouped. rewrite filter_all.
  - now apply first_occurrences_const.
  - intros x Hx. rewrite Forall_forall in Hall. rewrite (Hall x Hx), Hni.
    reflexivity.
Qed.

Lemma charges_in_all (r : string) (cs : list float) :
  charges_in r (map (fun c => (r, c)) cs) = cs.
Proof.
  unfold charges_in. induction cs as [|c cs IH]; [reflexivity|].
  cbn [map List.filter fst]. rewrite String.eqb_refl. cbn [map snd]. now f_equal.
Qed.

(** With a region selected (one that is no name inherited from
    [Object.prototype]) and Number charges, on a page that has only
    added Numbers to [Object.prototype.total] or for a region other
    than "total", the bar chart has exactly one bar: the selected
    region, at the height of the average on the card. *)
Theorem selected_region_single_bar (NumberToString : float -> string)
    (proto : value) (d : list entry) (f : Filters) (cs : list float) :
  proto_ok proto \/ region f <> "total" ->
  region f <> "all" ->
  inherited (region f) = false ->
  filteredData d f <> [] ->
  (fun item => get item "charges") <$> filteredData d f = VNumber <$> cs ->
  regionData NumberToString proto (filteredData d f)
  = Some [{| name := capitalize (region f);
             bar_avgCharge := avgCharge (stats NumberToString (filteredData d f)) |}].
Proof.
  intros Hpage Hall Hni Hne Hcs.
  assert (Hreg : Forall (fun item => get item "region" = VString (region f))
                   (filteredData d f)).
  { apply Forall_forall. intros item Hin.
    apply list_elem_of_In, filter_In in Hin as [_ Hp].
    apply passes_selected in Hp as ([Hr|Hr] & _); [contradiction|exact Hr]. }
  rewrite (stats_avgCharge NumberToString _ cs Hne Hcs).
  set (fd := filteredData d f) in *. clearbody fd.
  set (rows := map (fun c => (region f, c)) cs).
  assert (Hlen : length fd = length cs).
  { apply (f_equal length) in Hcs. now rewrite !length_fmap in Hcs. }
  assert (Ht : typed_rows fd rows).
  { unfold typed_rows. subst rows. clear Hne Hlen. revert cs Hcs.
    induction Hreg as [|item fd Hr _ IH]; intros [|c cs] Hcs; try discriminate.
    - constructor.
    - rewrite !fmap_cons in Hcs. injection Hcs as Hc Hcs.
      cbn [map]. constructor; [split; [exact Hr|exact Hc]|now apply IH]. }
  assert (Hsafe : safe_page proto rows).
  { destruct Hpage as [Hpage|Hpage]; [now left|right].
    unfold rows. apply Forall_forall. intros x Hx.
    apply list_elem_of_In, in_map_iff in Hx as (c & <- & _). exact Hpage. }
  unfold regionData.
  destruct (groups_of_typed NumberToString proto fd rows Hsafe Ht)
    as (st & -> & Hown & _).
  rewrite Hown. unfold own_for.
  assert (Hfst : map fst rows = map (fun _ => region f) cs).
  { unfold rows. rewrite map_map. reflexivity. }
  rewrite (grouped_single (region f)).
  - cbn [map]. unfold Object_values, indexed, named.
    cbn [omap list_omap List.filter fst snd].
    assert (Hbar : bar_of (group_for rows (region f))
                   = Some {| name := capitalize (region f);
                             bar_avgCharge := (fsum cs / Number_of_nat (length fd))%float |}).
    { unfold bar_of, group_for. cbn [g_region total g_count]. unfold js_div.
      cbn [ToNumber]. unfold rows. now rewrite charges_in_all, Hlen. }
    destruct (array_index (region f)); cbn [fold_right insert_index map snd app mapM];
      now rewrite Hbar.
  - rewrite Hfst. destruct cs; [|discriminate].
    destruct fd; [contradiction|discriminate].
  - rewrite Hfst. apply Forall_forall. intros x Hx.
    apply list_elem_of_In, in_map_iff in Hx as (c & <- & _). reflexivity.
  - exact Hni.
Qed.

Lemma selected_region_single_bar_example :
  ((proto_ok (VString "undefinedabc")
    \/ region {| region := "southeast"; smoker := "all"; sex := "all" |} <> "total")
   /\ region {| region := "southeast"; smoker := "all"; sex := "all" |} <> "all"
   /\ inherited (region {| region := "southeast"; smoker := "all"; sex := "all" |})
      = false
   /\ filteredData (parsed example_csv)
        {| region := "southeast"; smoker := "all"; sex := "all" |} <> []
   /\ (fun item => get item "charges")
        <$> filteredData (parsed example_csv)
              {| region := "southeast"; smoker := "all"; sex := "all" |}
      = VNumber <$> [1725.55%float; 4449.46%float])
  /\ regionData (fun _ => EmptyString) (VString "undefinedabc")
       (filteredData (parsed example_csv)
          {| region := "southeast"; smoker := "all"; sex := "all" |})
     = Some [{| name := capitalize
                          (region {| region := "southeast"; smoker := "all";
                                     sex := "all" |});
                bar_avgCharge :=
                  avgCharge (stats (fun _ => EmptyString)
                               (filteredData (parsed example_csv)
                                  {| region := "southeast"; smoker := "all";
                                     sex := "all" |})) |}].
Proof.
  assert (H0 : proto_ok (VString "undefinedabc")
               \/ region {| region := "southeast"; smoker := "all"; sex := "all" |}
                  <> "total") by (right; discriminate).
  assert (H1 : region {| region := "southeast"; smoker := "all"; sex := "all" |}
               <> "all") by discriminate.
  assert (H2 : inherited (region {| region := "southeast"; smoker := "all";
                                    sex := "all" |}) = false) by reflexivity.
  assert (H3 : filteredData (parsed example_csv)
                 {| region := "southeast"; smoker := "all"; sex := "all" |} <> [])
    by (rewrite example_parsed; discriminate).
  assert (H4 : (fun item => get item "charges")
                 <$> filteredData (parsed example_csv)
                       {| region := "southeast"; smoker := "all"; sex := "all" |}
               = VNumber <$> [1725.55%float; 4449.46%float])
    by (rewrite example_parsed; reflexivity).
  split; [repeat split; assumption|].
  exact (selected_region_single_bar (fun _ => EmptyString) (VString "undefinedabc")
           (parsed example_csv) _ _ H0 H1 H2 H3 H4).
Defined.

(** ** The bars are averages of non-empty groups *)

Lemma charges_in_Forall (P : float -> Prop) (r : string)
    (rows : list (string * float)) :
  Forall (fun rc => P (snd rc)) rows -> Forall P (charges_in r rows).
Proof.
  unfold charges_in. induction 1 as [|[r' c] rows Hc _ IH]; [constructor|].
  cbn [List.filter fst]. destruct (String.eqb r' r); [|exact IH].
  cbn [map snd]. now constructor.
Qed.

Lemma charges_in_length (r : string) (rows : list (string * float)) :
  length (charges_in r rows) <= length rows.
Proof.
  unfold charges_in. rewrite length_map. apply List.filter_length_le.
Qed.

Lemma charges_in_present (r : string) (rows : list (string * float)) :
  r ∈ map fst rows -> 0 < length (charges_in r rows).
Proof.
  unfold charges_in. induction rows as [|[r' c] rows IH]; intros Hin.
  - now apply elem_of_nil in Hin.
  - cbn [map fst List.filter] in *. destruct (String.eqb r' r) eqn:E.
    + cbn [map length]. lia.
    + apply String_eqb_false in E.
      apply elem_of_cons in Hin as [->|Hin]; [contradiction|now apply IH].
Qed.

(** On records with string regions and non-negative Number charges,
    on a page that has only added Numbers to [Object.prototype.total]
    or when no region is "total", every bar is the average of a group
    with at least one record: none is negative, none is [NaN]. *)
Theorem regionData_bars_nonneg (NumberToString : float -> string)
    (proto : value) (fd : list entry) (rows : list (string * float)) :
  safe_page proto rows ->
  typed_rows fd rows ->
  (Z.of_nat (length fd) <= 4294967295)%Z ->
  Forall (fun rc => PrimFloat.leb 0 (snd rc) = true) rows ->
  exists bars,
    regionData NumberToString proto fd = Some bars
    /\ Forall (fun b => PrimFloat.leb 0 (bar_avgCharge b) = true
                        /\ PrimFloat.is_nan (bar_avgCharge b) = false) bars.
Proof.
  intros Hsafe Ht Hlen Hpos. unfold regionData.
  destruct (groups_of_typed NumberToString proto fd rows Hsafe Ht)
    as (st & -> & Hown & _).
  pose proof (Object_values_Permutation (own st)) as Hperm.
  rewrite Hown in Hperm at 2. unfold own_for in Hperm.
  rewrite map_map in Hperm. cbn [snd] in Hperm.
  apply Permutation_map_inv in Hperm as (ks & Hks & Hp).
  rewrite Hks, mapM_bar_of. eexists. split; [reflexivity|].
  apply Forall_forall. intros b Hb.
  apply list_elem_of_In, in_map_iff in Hb as (k & <- & Hk).
  assert (Hin : k ∈ map fst rows).
  { apply list_elem_of_In in Hk. rewrite <- Hp in Hk.
    now apply grouped_not_inherited in Hk as [Hk _]. }
  pose proof (charges_in_present k rows Hin) as H0.
  pose proof (charges_in_length k rows) as H1.
  pose proof (Forall2_length _ _ _ Ht) as H2.
  assert (Hle : PrimFloat.leb 0 (bar_avgCharge (bar_for rows k)) = true).
  { unfold bar_for. cbn [bar_avgCharge]. unfold fsum, Number_of_nat.
    apply average_nonneg; [lia|]. now apply charges_in_Forall. }
  split; [exact Hle|].
  destruct (PrimFloat.is_nan (bar_avgCharge (bar_for rows k))) eqn:En;
    [|reflexivity].
  rewrite FloatAxioms.leb_spec, (is_nan_Prim2SF _ En) in Hle. discriminate.
Qed.

Lemma regionData_bars_nonneg_example :
  (safe_page VUndefined example_rows
   /\ typed_rows (parsed example_csv) example_rows
   /\ (Z.of_nat (length (parsed example_csv)) <= 4294967295)%Z
   /\ Forall (fun rc => PrimFloat.leb 0 (snd rc) = true) example_rows)
  /\ exists bars,
      regionData (fun _ => EmptyString) VUndefined (parsed example_csv) = Some bars
      /\ Forall (fun b => PrimFloat.leb 0 (bar_avgCharge b) = true
                          /\ PrimFloat.is_nan (bar_avgCharge b) = false) bars.
Proof.
  assert (H2 : (Z.of_nat (length (parsed example_csv)) <= 4294967295)%Z)
    by (rewrite example_parsed; simpl; lia).
  assert (H3 : Forall (fun rc => PrimFloat.leb 0 (snd rc) = true) example_rows)
    by (repeat constructor).
  split; [repeat split;
          [apply fresh_page_safe|exact example_typed_rows|exact H2|exact H3]|].
  exact (regionData_bars_nonneg (fun _ => EmptyString) VUndefined
           (parsed example_csv) example_rows (fresh_page_safe _)
           example_typed_rows H2 H3).
Defined.

(** ** A column of numeric codes *)

Lemma own_alter_region (h : group -> group) (k : string)
    (l : list (string * group)) (P : value -> Prop) :
  (forall g, g_region (h g) = g_region g) ->
  Forall (fun kg => P (g_region (snd kg))) l ->
  Forall (fun kg => P (g_region (snd kg))) (own_alter h k l).
Proof.
  intros Hh. induction 1 as [|[k' g] l Hg Hl IH]; [constructor|].
  cbn [own_alter]. destruct (String.eqb k k'); constructor; cbn [snd] in *;
    try assumption. now rewrite Hh.
Qed.

Lemma own_alter_nonempty (h : group -> group) (k : string)
    (l : list (string * group)) :
  l <> [] -> own_alter h k l <> [].
Proof.
  destruct l as [|[k' g] l]; [contradiction|]. intros _. cbn [own_alter].
  now destruct (String.eqb k k').
Qed.

Lemma add_item_coded (NumberToString : float -> string) (st : groups_state)
    (item : entry) (n : float) :
  inherited (NumberToString n) = false ->
  Forall (fun kg => exists x, g_region (snd kg) = VNumber x) (own st) ->
  get item "region" = VNumber n ->
  match add_item NumberToString st item with
  | Some st' =>
      Forall (fun kg => exists x, g_region (snd kg) = VNumber x) (own st')
      /\ own st' <> []
  | None => True
  end.
Proof.
  destruct st as [o p]. cbn [own proto_total]. intros Hni Hown Hr.
  unfold add_item. rewrite Hr. cbn [ToString]. unfold groups_truthy.
  cbn [own proto_total]. rewrite Hni. cbn [orb].
  destruct (own_get o (NumberToString n)) as [g|] eqn:Hg.
  - cbn [own proto_total]. rewrite Hg. cbn [own]. split.
    + now apply (own_alter_region _ _ _ (fun v => exists x, v = VNumber x)).
    + apply own_alter_nonempty. intros ->. discriminate.
  - destruct (String.eqb (NumberToString n) "total" && ToBoolean p).
    + cbn [own proto_total]. now rewrite Hg.
    + cbn [own proto_total]. rewrite own_get_snoc by exact Hg. cbn [own]. split.
      * apply (own_alter_region _ _ _ (fun v => exists x, v = VNumber x));
          [reflexivity|]. apply Forall_app. split; [exact Hown|].
        constructor; [|constructor]. cbn [snd g_region]. now exists n.
      * apply own_alter_nonempty. now destruct o.
Qed.

(** When the region column holds numeric codes, which the parser
    stores as Numbers, [g.region.charAt] throws on the first group:
    there is no regional sequence, on a fresh page as on any other. *)
Theorem regionData_coded_regions (NumberToString : float -> string)
    (proto : value) (fd : list entry) :
  (forall n, inherited (NumberToString n) = false) ->
  fd <> [] ->
  Forall (fun item => exists n, get item "region" = VNumber n) fd ->
  regionData NumberToString proto fd = None.
Proof.
  intros Hni Hne Hfd.
  assert (Hloop : forall st,
             Forall (fun kg => exists x, g_region (snd kg) = VNumber x) (own st) ->
             (fd = [] -> own st <> []) ->
             match forEach_item NumberToString st fd with
             | Done st' =>
                 Forall (fun kg => exists x, g_region (snd kg) = VNumber x) (own st')
                 /\ own st' <> []
             | Thrown _ => True
             end).
  { clear Hne. induction Hfd as [|item fd [n Hn] _ IH]; intros st Hown Hnil.
    - cbn [forEach_item]. split; [exact Hown|now apply Hnil].
    - cbn [forEach_item].
      pose proof (add_item_coded NumberToString st item n (Hni n) Hown Hn) as Hadd.
      destruct (add_item NumberToString st item) as [st1|]; [|exact I].
      destruct Hadd as [Hown1 Hne1]. apply IH; auto. }
  unfold regionData, groups_of.
  specialize (Hloop {| own := []; proto_total := proto |}
                ltac:(constructor) ltac:(intros; contradiction)).
  destruct (forEach_item NumberToString _ fd) as [st|p]; [|reflexivity].
  destruct Hloop as [Hown Hne'].
  pose proof (Object_values_Permutation (own st)) as Hperm.
  destruct (Object_values (own st)) as [|g gs] eqn:E.
  - apply Permutation_nil_l in Hperm. destruct (own st); [contradiction|discriminate].
  - assert (Hg : g ∈ map snd (own st)) by (rewrite <- Hperm; left).
    apply list_elem_of_In, in_map_iff in Hg as (kg & <- & Hkg).
    rewrite Forall_forall in Hown.
    destruct (Hown kg (proj2 (list_elem_of_In _ _) Hkg)) as [x Hx].
    destruct (mapM bar_of (kg.2 :: gs)) as [bars|] eqn:Em; [|reflexivity].
    apply mapM_Some_1, Forall2_cons_inv_l in Em as (b & bs & Hb & _).
    unfold bar_of in Hb. rewrite Hx in Hb. discriminate.
Qed.

Lemma regionData_coded_regions_example :
  ((forall n : float, inherited ((fun _ => "1") n) = false)
   /\ parsed coded_csv <> []
   /\ Forall (fun item => exists n, get item "region" = VNumber n) (parsed coded_csv))
  /\ regionData (fun _ => "1") VUndefined (parsed coded_csv) = None.
Proof.
  assert (Hp : parsed coded_csv
               = [<["region" := VNumber 1]> (<["charges" := VNumber 250.5]> ∅)])
    by (vm_compute; exact eq_refl).
  assert (H1 : forall n : float, inherited ((fun _ => "1") n) = false)
    by (intros n; reflexivity).
  assert (H2 : parsed coded_csv <> []) by (rewrite Hp; discriminate).
  assert (H3 : Forall (fun item => exists n, get item "region" = VNumber n)
                 (parsed coded_csv)).
  { rewrite Hp. constructor; [|constructor]. exists 1%float. reflexivity. }
  split; [repeat split; assumption|].
  exact (regionData_coded_regions (fun _ => "1") VUndefined (parsed coded_csv)
           H1 H2 H3).
Defined.


(** A column of Numbers cannot be filtered: whatever is picked for it
    other than "all", no record is left. *)
Theorem coded_column_unfilterable (d : list entry) (f : Filters)
    (key val : string) :
  dimension key ->
  val <> "all" ->
  Forall (fun item => exists n, get item key = VNumber n) d ->
  filteredData d (handleFilterChange key val f) = [].
Proof.
  intros Hkey Hval Hd. unfold filteredData.
  apply String_eqb_false in Hval.
  induction Hd as [|item d [n Hn] _ IH]; [reflexivity|].
  cbn [List.filter]. rewrite IH.
  assert (Hp : passes (handleFilterChange key val f) item = false).
  { destruct Hkey as [-> | [-> | ->]]; unfold handleFilterChange, passes;
      cbn [String.eqb Ascii.eqb Bool.eqb region smoker sex];
      rewrite Hn, Hval; cbn [strict_eq orb andb];
      rewrite ?andb_false_r; reflexivity. }
  now rewrite Hp.
Qed.

Lemma coded_column_unfilterable_example :
  (dimension "region" /\ "1" <> "all"
   /\ Forall (fun item => exists n, get item "region" = VNumber n) (parsed coded_csv))
  /\ filteredData (parsed coded_csv) (handleFilterChange "region" "1" no_filter) = [].
Proof.
  assert (Hp : parsed coded_csv
               = [<["region" := VNumber 1]> (<["charges" := VNumber 250.5]> ∅)])
    by (vm_compute; exact eq_refl).
  assert (H1 : dimension "region") by (left; reflexivity).
  assert (H2 : "1" <> "all") by discriminate.
  assert (H3 : Forall (fun item => exists n, get item "region" = VNumber n)
                 (parsed coded_csv)).
  { rewrite Hp. constructor; [|constructor]. exists 1%float. reflexivity. }
  split; [repeat split; assumption|].
  exact (coded_column_unfilterable (parsed coded_csv) no_filter "region" "1" H1 H2 H3).
Defined.

(** ** What the options select *)

Lemma options_elem (NumberToString : float -> string) (column : string)
    (d : list entry) (v : value) :
  v ∈ options NumberToString column d
  <-> v = VString "all"
      \/ (ToBoolean v = true /\ exists item, item ∈ d /\ get item column = v).
Proof.
  unfold options, Set_values.
  set (col := List.filter ToBoolean (map (fun item => get item column) d)).
  assert (Hcol : forall w, w ∈ col
                 <-> ToBoolean w = true /\ exists item, item ∈ d /\ get item column = w).
  { intros w. unfold col. rewrite list_elem_of_In, filter_In, in_map_iff. split.
    - intros [(item & Hg & Hi) Ht]. split; [exact Ht|].
      exists item. split; [now apply list_elem_of_In|exact Hg].
    - intros [Ht (item & Hi & Hg)]. split; [|exact Ht].
      exists item. split; [exact Hg|now apply list_elem_of_In]. }
  assert (Hsorted : Forall (fun w => ToBoolean w = true) (sort NumberToString col)).
  { apply Forall_forall. intros w Hw. rewrite sort_elem in Hw.
    now apply Hcol in Hw as [Hw _]. }
  destruct (Set_values_from (sort NumberToString col) [] Hsorted (NoDup_nil_2))
    as (l & Heq & Hsub & _ & Hin).
  simpl in Heq, Hin. rewrite Heq, elem_of_cons.
  split; (intros [Hv|Hv]; [now left|right]).
  - apply Hcol. rewrite <- (sort_elem NumberToString).
    eapply elem_of_sublist; eassumption.
  - apply Hin. rewrite sort_elem. now apply Hcol.
Qed.



(** ** What is rendered *)

Lemma run_app (st : AppState) (l1 l2 : list event) :
  run st (l1 ++ l2) = run (run st l1) l2.
Proof. unfold run. apply fold_left_app. Qed.

(** After a failed load the component shows the loading text for
    good: whatever was picked before the failure and whatever is
    picked after it, the page is the three "all" options above
    "Loading data...", and [Object.prototype] is left as it was. *)
Theorem failed_load_keeps_loading (NumberToString : float -> string)
    (proto : value) (err : string) (before after : list (string * string)) :
  App NumberToString proto
    (run initial (changes before ++ [Load (Rejected err)] ++ changes after))
  = Some {| region_options := ["All Regions"];
            smoker_options := ["All Statuses"];
            sex_options := ["All Genders"];
            page_body := Loading_text |}
  /\ total_left NumberToString proto
       (filteredData
          (data (run initial
                   (changes before ++ [Load (Rejected err)] ++ changes after)))
          (filters (run initial
                      (changes before ++ [Load (Rejected err)] ++ changes after))))
     = proto.
Proof.
  rewrite !run_app.
  destruct (run_changes_frame initial before) as (Hd1 & Hl1 & _).
  set (st1 := run initial (changes before)) in *.
  destruct (run_changes_frame (run st1 [Load (Rejected err)]) after)
    as (Hd2 & Hl2 & _).
  set (st2 := run (run st1 [Load (Rejected err)]) (changes after)) in *.
  assert (Hd : data st2 = []) by (rewrite Hd2; cbn; exact Hd1).
  assert (Hl : loading st2 = true) by (rewrite Hl2; cbn; exact Hl1).
  unfold App. rewrite Hd, Hl. split; reflexivity.
Qed.

(** A file with no line feed inside (after trimming), such as an
    empty file or a lone header line, has no record: once loaded, the
    page shows the three "all" options, zero on the three cards, no
    point and no bar, whatever is picked. *)
Theorem header_only_file_renders_empty (NumberToString : float -> string)
    (proto : value) (text : string) (cs : list (string * string)) :
  occurs "010" (trim text) = false ->
  parsed text = []
  /\ App NumberToString proto
       (run (on_settled (Fulfilled text) initial) (changes cs))
     = Some {| region_options := ["All Regions"];
               smoker_options := ["All Statuses"];
               sex_options := ["All Genders"];
               page_body :=
                 Charts {| count := 0; avgCharge := 0; smokerPct := 0 |} [] [] [] |}.
Proof.
  intros H. pose proof (parsed_no_line_feed text H) as Hp. split; [exact Hp|].
  destruct (run_changes_frame (on_settled (Fulfilled text) initial) cs)
    as (Hd & Hl & _).
  unfold App. rewrite Hd, Hl. cbn [on_settled data loading]. rewrite Hp.
  reflexivity.
Qed.

Lemma header_only_file_renders_empty_example :
  occurs "010" (trim ("age,sex,bmi,children,smoker,region,charges" +:+ newline))
  = false
  /\ parsed ("age,sex,bmi,children,smoker,region,charges" +:+ newline) = []
  /\ App (fun _ => EmptyString) VUndefined
       (run (on_settled
               (Fulfilled ("age,sex,bmi,children,smoker,region,charges" +:+ newline))
               initial)
          (changes [("smoker", "yes")]))
     = Some {| region_options := ["All Regions"];
               smoker_options := ["All Statuses"];
               sex_options := ["All Genders"];
               page_body :=
                 Charts {| count := 0; avgCharge := 0; smokerPct := 0 |} [] [] [] |}.
Proof.
  split; [reflexivity|].
  exact (header_only_file_renders_empty (fun _ => EmptyString) VUndefined
           ("age,sex,bmi,children,smoker,region,charges" +:+ newline)
           [("smoker", "yes")] eq_refl).
Defined.

Lemma mapM_None_elem {A B : Type} (f : A -> option B) (l : list A) (x : A) :
  x ∈ l -> f x = None -> mapM f l = None.
Proof.
  intros Hx Hf. destruct (mapM f l) as [k|] eqn:E; [|reflexivity]. exfalso.
  apply mapM_Some_1 in E. apply list_elem_of_lookup in Hx as [i Hi].
  destruct (Forall2_lookup_l _ _ _ i x E Hi) as (y & _ & Hy). congruence.
Qed.

(** A record whose region or sex cell is a non-zero Number makes the
    component throw while rendering the options of that [<select>],
    whatever the selection and whatever the page. *)
Theorem numeric_option_breaks_render (NumberToString : float -> string)
    (proto : value) (st : AppState) (item : entry) (n : float) :
  item ∈ data st ->
  get item "region" = VNumber n \/ get item "sex" = VNumber n ->
  ToBoolean (VNumber n) = true ->
  App NumberToString proto st = None.
Proof.
  intros Hin Hcell Ht. unfold App.
  destruct (regionData NumberToString proto (filteredData (data st) (filters st)));
    [|reflexivity].
  destruct Hcell as [Hr|Hs].
  - rewrite (mapM_None_elem region_option _ (VNumber n)); [reflexivity| |reflexivity].
    unfold regions. apply options_elem. right. split; [exact Ht|]. now exists item.
  - rewrite (mapM_None_elem sex_option _ (VNumber n)); [| |reflexivity].
    + now destruct (mapM region_option _).
    + unfold sexes. apply options_elem. right. split; [exact Ht|]. now exists item.
Qed.

Lemma numeric_option_breaks_render_example :
  (<["region" := VNumber 1]> (<["charges" := VNumber 250.5]> ∅)
     ∈ data (on_settled (Fulfilled coded_csv) initial)
   /\ (get (<["region" := VNumber 1]> (<["charges" := VNumber 250.5]> ∅)) "region"
       = VNumber 1
       \/ get (<["region" := VNumber 1]> (<["charges" := VNumber 250.5]> ∅)) "sex"
          = VNumber 1)
   /\ ToBoolean (VNumber 1) = true)
  /\ App (fun _ => EmptyString) VUndefined
       (on_settled (Fulfilled coded_csv) initial) = None.
Proof.
  assert (H1 : <["region" := VNumber 1]> (<["charges" := VNumber 250.5]> ∅)
               ∈ data (on_settled (Fulfilled coded_csv) initial)).
  { assert (Hp : parsed coded_csv
                 = [<["region" := VNumber 1]> (<["charges" := VNumber 250.5]> ∅)])
      by (vm_compute; exact eq_refl).
    cbn [on_settled data]. rewrite Hp. left. }
  assert (H2 : get (<["region" := VNumber 1]> (<["charges" := VNumber 250.5]> ∅))
                 "region" = VNumber 1
               \/ get (<["region" := VNumber 1]> (<["charges" := VNumber 250.5]> ∅))
                    "sex" = VNumber 1) by (left; reflexivity).
  assert (H3 : ToBoolean (VNumber 1) = true) by reflexivity.
  split; [repeat split; assumption|].
  exact (numeric_option_breaks_render (fun _ => EmptyString) VUndefined _ _ 1%float
           H1 H2 H3).
Defined.

Lemma typed_rows_exist (fd : list entry) :
  Forall (fun item => (exists r, get item "region" = VString r)
                      /\ exists c, get item "charges" = VNumber c) fd ->
  exists rows, typed_rows fd rows.
Proof.
  induction 1 as [|item fd [[r Hr] [c Hc]] _ [rows IH]].
  - exists []. constructor.
  - exists ((r, c) :: rows). constructor; [split; assumption|exact IH].
Qed.

Lemma options_labels {A : Type} (NumberToString : float -> string)
    (label : value -> option A) (column : string) (d : list entry) :
  is_Some (label (VString "all")) ->
  Forall (fun item => get item column = VUndefined
                      \/ exists s, get item column = VString s
                                   /\ is_Some (label (VString s))) d ->
  is_Some (mapM label (options NumberToString column d)).
Proof.
  intros Hall Hd. apply mapM_is_Some, Forall_forall. intros v Hv. cbn.
  apply options_elem in Hv as [->|[Ht (item & Hi & Hg)]]; [exact Hall|].
  rewrite Forall_forall in Hd. destruct (Hd item Hi) as [Hu|(s & Hs & Hl)].
  - rewrite Hu in Hg. subst v. discriminate.
  - rewrite Hs in Hg. now subst v.
Qed.

(** On a dataset whose region cells are strings, whose charges are
    Numbers and whose sex cells are strings or missing, on a page
    that has only added Numbers to [Object.prototype.total], the
    component renders for every selection: the options, and below
    them the loading text or the cards, the points and the bars; and
    it leaves the page such a page, so that this holds of every later
    render as well. *)
Theorem typed_dataset_renders (NumberToString : float -> string)
    (proto : value) (st : AppState) :
  proto_ok proto ->
  Forall (fun item => (exists r, get item "region" = VString r)
                      /\ (exists c, get item "charges" = VNumber c)
                      /\ (get item "sex" = VUndefined
                          \/ exists s, get item "sex" = VString s)) (data st) ->
  exists p bars,
    App NumberToString proto st = Some p
    /\ regionData NumberToString proto (filteredData (data st) (filters st))
       = Some bars
    /\ page_body p
       = (if loading st then Loading_text
          else Charts (stats NumberToString (filteredData (data st) (filters st)))
                 (scatterData (filteredData (data st) (filters st))) bars
                 (cell_fills bars))
    /\ proto_ok (total_left NumberToString proto
                   (filteredData (data st) (filters st))).
Proof.
  intros Hpage Hd. unfold App.
  assert (Hfd : Forall (fun item => (exists r, get item "region" = VString r)
                                    /\ exists c, get item "charges" = VNumber c)
                  (filteredData (data st) (filters st))).
  { apply Forall_forall. intros item Hin.
    apply list_elem_of_In, filter_In in Hin as [Hin _].
    rewrite Forall_forall in Hd.
    destruct (Hd item (proj2 (list_elem_of_In _ _) Hin)) as (Hr & Hc & _).
    now split. }
  destruct (typed_rows_exist _ Hfd) as [rows Ht].
  assert (Hbars : is_Some (regionData NumberToString proto
                             (filteredData (data st) (filters st)))
                  /\ proto_ok (total_left NumberToString proto
                                 (filteredData (data st) (filters st)))).
  { unfold regionData, total_left.
    destruct (groups_of_typed NumberToString proto _ rows (or_introl Hpage) Ht)
      as (g & -> & Hown & Hleft).
    split; [|now apply Hleft].
    pose proof (Object_values_Permutation (own g)) as Hperm.
    rewrite Hown in Hperm at 2. unfold own_for in Hperm.
    rewrite map_map in Hperm. cbn [snd] in Hperm.
    apply Permutation_map_inv in Hperm as (ks & Hks & _).
    rewrite Hks, mapM_bar_of. eauto. }
  destruct Hbars as [[bars Hbars] Hleft]. rewrite Hbars.
  assert (Hrs : is_Some (mapM region_option (regions NumberToString (data st)))).
  { apply options_labels; [eauto|].
    eapply Forall_impl; [exact Hd|]. cbn beta. intros item ([r Hr] & _).
    right. exists r. split; [exact Hr|].
    unfold region_option. destruct (strict_eq _ _); eauto. }
  assert (Hss : is_Some (mapM sex_option (sexes NumberToString (data st)))).
  { apply options_labels; [eauto|].
    eapply Forall_impl; [exact Hd|]. cbn beta. intros item (_ & _ & [Hu|[s Hs]]).
    - now left.
    - right. exists s. split; [exact Hs|].
      unfold sex_option. destruct (strict_eq _ _); eauto. }
  destruct Hrs as [rs ->]. destruct Hss as [ss ->].
  eexists. exists bars. split; [reflexivity|]. split; [reflexivity|].
  split; [reflexivity|exact Hleft].
Qed.

Lemma typed_dataset_renders_example :
  (proto_ok VUndefined
   /\ Forall (fun item => (exists r, get item "region" = VString r)
                          /\ (exists c, get item "charges" = VNumber c)
                          /\ (get item "sex" = VUndefined
                              \/ exists s, get item "sex" = VString s))
        (data (on_settled (Fulfilled example_csv) initial)))
  /\ exists p bars,
      App (fun _ => EmptyString) VUndefined
        (on_settled (Fulfilled example_csv) initial) = Some p
      /\ regionData (fun _ => EmptyString) VUndefined
           (filteredData (data (on_settled (Fulfilled example_csv) initial))
              (filters (on_settled (Fulfilled example_csv) initial)))
         = Some bars
      /\ page_body p
         = (if loading (on_settled (Fulfilled example_csv) initial) then Loading_text
            else Charts
                   (stats (fun _ => EmptyString)
                      (filteredData (data (on_settled (Fulfilled example_csv) initial))
                         (filters (on_settled (Fulfilled example_csv) initial))))
                   (scatterData
                      (filteredData (data (on_settled (Fulfilled example_csv) initial))
                         (filters (on_settled (Fulfilled example_csv) initial))))
                   bars (cell_fills bars))
      /\ proto_ok (total_left (fun _ => EmptyString) VUndefined
                     (filteredData (data (on_settled (Fulfilled example_csv) initial))
                        (filters (on_settled (Fulfilled example_csv) initial)))).
Proof.
  assert (H0 : proto_ok VUndefined) by now left.
  assert (H : Forall (fun item => (exists r, get item "region" = VString r)
                                  /\ (exists c, get item "charges" = VNumber c)
                                  /\ (get item "sex" = VUndefined
                                      \/ exists s, get item "sex" = VString s))
                (data (on_settled (Fulfilled example_csv) initial))).
  { cbn [on_settled data]. rewrite example_parsed.
    repeat (constructor; [split; [eexists; reflexivity|split;
                                  [eexists; reflexivity|right; eexists; reflexivity]]|]).
    constructor. }
  split; [split; assumption|].
  exact (typed_dataset_renders (fun _ => EmptyString) VUndefined _ H0 H).
Defined.

(** ** Division by one *)

Local Open Scope Z_scope.

Lemma binary_round_aux_canonical (m : positive) (e : Z) :
  SpecFloat.bounded prec emax m e = true ->
  binary_round_aux prec emax false (Z.pos m) e loc_Exact = S754_finite false m e.
Proof.
  unfold SpecFloat.bounded, canonical_mantissa. intros H.
  apply andb_true_iff in H as [Hc He].
  apply Z.eqb_eq in Hc.
  unfold binary_round_aux, shr_fexp.
  change (Zdigits2 (Z.pos m)) with (Z.pos (digits2_pos m)).
  rewrite Hc, Z.sub_diag. cbn [shr shr_record_of_loc loc_of_shr_record shr_m shr_r shr_s
                               round_nearest_even].
  change (Zdigits2 (Z.pos m)) with (Z.pos (digits2_pos m)).
  rewrite Hc, Z.sub_diag. cbn [shr shr_record_of_loc shr_m].
  now rewrite He.
Qed.

Lemma binary_round_aux_doubled (m : positive) (e : Z) :
  SpecFloat.bounded prec emax m e = true ->
  binary_round_aux prec emax false (Z.pos m~0) (e - 1) loc_Exact
  = S754_finite false m e.
Proof.
  unfold SpecFloat.bounded, canonical_mantissa. intros H.
  apply andb_true_iff in H as [Hc He].
  apply Z.eqb_eq in Hc.
  unfold binary_round_aux, shr_fexp.
  change (Zdigits2 (Z.pos m~0)) with (Z.pos (Pos.succ (digits2_pos m))).
  replace (Z.pos (Pos.succ (digits2_pos m)) + (e - 1))
    with (Z.pos (digits2_pos m) + e) by lia.
  rewrite Hc. replace (e - (e - 1)) with 1 by lia.
  cbn [shr shr_record_of_loc SpecFloat.iter_pos shr_1 loc_of_shr_record shr_m shr_r shr_s
       round_nearest_even orb].
  replace (e - 1 + 1) with e by lia.
  change (Zdigits2 (Z.pos m)) with (Z.pos (digits2_pos m)).
  rewrite Hc, Z.sub_diag. cbn [shr shr_record_of_loc shr_m].
  now rewrite He.
Qed.

Lemma SFdiv_one (m : positive) (e : Z) :
  SpecFloat.bounded prec emax m e = true ->
  SFdiv prec emax (S754_finite false m e) (S754_finite false 4503599627370496 (-52))
  = S754_finite false m e.
Proof.
  intros Hb. pose proof Hb as Hb'.
  unfold SpecFloat.bounded, canonical_mantissa in Hb'.
  apply andb_true_iff in Hb' as [Hc He]. apply Z.eqb_eq in Hc.
  apply Z.leb_le in He.
  unfold SFdiv, SFdiv_core_binary.
  change (Zdigits2 (Z.pos m)) with (Z.pos (digits2_pos m)).
  change (Zdigits2 4503599627370496) with 53.
  set (d := Z.pos (digits2_pos m)) in *.
  assert (He' : Z.min (fexp prec emax (d + e - (53 + -52))) (e - -52) = e
                \/ Z.min (fexp prec emax (d + e - (53 + -52))) (e - -52) = e - 1).
  { unfold fexp, SpecFloat.emin, prec, emax in *. lia. }
  assert (Hdiv : forall k, 52 <= k ->
            Z.div_eucl (Z.shiftl (Z.pos m) k) 4503599627370496
            = (Z.pos m * 2 ^ (k - 52), 0)).
  { intros k Hk. rewrite Z.shiftl_mul_pow2 by lia.
    replace k with ((k - 52) + 52) at 1 by lia.
    rewrite pow2_split by lia. rewrite Z.mul_assoc.
    change (2 ^ 52) with 4503599627370496.
    assert (Hq : Z.pos m * 2 ^ (k - 52) * 4503599627370496 / 4503599627370496
                 = Z.pos m * 2 ^ (k - 52)) by (apply Z.div_mul; lia).
    assert (Hr : (Z.pos m * 2 ^ (k - 52) * 4503599627370496) mod 4503599627370496 = 0)
      by (apply Z.mod_mul; lia).
    unfold Z.div, Z.modulo in Hq, Hr.
    destruct (Z.div_eucl _ 4503599627370496) as [q r]. now subst. }
  destruct He' as [-> | ->].
  - replace (e - -52 - e) with 52 by lia. cbv iota.
    change IntDef.Z.div_eucl with Z.div_eucl.
    rewrite (Hdiv 52) by lia. rewrite new_location_0.
    change (2 ^ (52 - 52)) with 1. rewrite Z.mul_1_r.
    now apply binary_round_aux_canonical.
  - replace (e - -52 - (e - 1)) with 53 by lia. cbv iota.
    change IntDef.Z.div_eucl with Z.div_eucl.
    rewrite (Hdiv 53) by lia. rewrite new_location_0.
    change (2 ^ (53 - 52)) with 2.
    replace (Z.pos m * 2) with (Z.pos m~0) by lia.
    now apply binary_round_aux_doubled.
Qed.

(** A positive Number divided by 1, and added to 0, is itself. *)
Lemma positive_average_of_one (c : float) :
  PrimFloat.ltb 0 c = true ->
  ((0 + c) / PrimFloat.of_uint63 (Uint63.of_Z 1) = c)%float.
Proof.
  intros Hc. apply Prim2SF_inj.
  rewrite FloatAxioms.div_spec, FloatAxioms.add_spec.
  rewrite FloatAxioms.ltb_spec in Hc.
  pose proof (Prim2SF_valid c) as Hv.
  change (Prim2SF (PrimFloat.of_uint63 (Uint63.of_Z 1)))
    with (S754_finite false 4503599627370496 (-52)).
  change (Prim2SF 0) with (S754_zero false) in *.
  destruct (Prim2SF c) as [s|[]| |[] m e]; try discriminate.
  - reflexivity.
  - cbn [SF64add SFadd]. unfold SF64div. now apply SFdiv_one.
Qed.

Local Close Scope Z_scope.

(** ** A lone record *)

(** No rounding on a lone record: a region with a single record, of
    positive charge, has a bar at exactly that charge (on a page that
    has only added Numbers to [Object.prototype.total], or when no
    region is "total"); and when a single record is left the average
    on the card is its charge. *)
Theorem lone_record_exact (NumberToString : float -> string)
    (proto : value) (fd : list entry) (rows : list (string * float))
    (r : string) (c : float) :
  safe_page proto rows ->
  typed_rows fd rows ->
  charges_in r rows = [c] ->
  inherited r = false ->
  PrimFloat.ltb 0 c = true ->
  (exists bars,
      regionData NumberToString proto fd = Some bars
      /\ {| name := capitalize r; bar_avgCharge := c |} ∈ bars)
  /\ (length fd = 1 -> avgCharge (stats NumberToString fd) = c).
Proof.
  intros Hsafe Ht Hc Hni Hpos.
  assert (Hone : (fsum [c] / Number_of_nat 1 = c)%float).
  { unfold fsum, Number_of_nat. cbn [fold_left]. now apply positive_average_of_one. }
  split.
  - unfold regionData.
    destruct (groups_of_typed NumberToString proto fd rows Hsafe Ht)
      as (st & -> & Hown & _).
    pose proof (Object_values_Permutation (own st)) as Hperm.
    rewrite Hown in Hperm at 2. unfold own_for in Hperm.
    rewrite map_map in Hperm. cbn [snd] in Hperm.
    apply Permutation_map_inv in Hperm as (ks & Hks & Hp).
    rewrite Hks, mapM_bar_of. eexists. split; [reflexivity|].
    assert (Hr : r ∈ ks).
    { rewrite <- Hp. apply grouped_not_inherited. split; [|exact Hni].
      destruct (decide (r ∈ map fst rows)) as [Hin|Hnin]; [exact Hin|].
      rewrite (charges_in_absent r rows Hnin) in Hc. discriminate. }
    apply list_elem_of_In, in_map_iff. exists r.
    split; [|now apply list_elem_of_In].
    unfold bar_for. rewrite Hc. cbn [length]. now rewrite Hone.
  - intros Hlen.
    destruct fd as [|item [|item' fd]]; try discriminate.
    apply Forall2_cons_inv_l in Ht as ([r' c'] & rows' & [Hr' Hc'] & Hrest & ->).
    apply Forall2_nil_inv_l in Hrest. subst rows'.
    unfold charges_in in Hc. cbn [List.filter fst] in Hc.
    destruct (String.eqb r' r); [|discriminate]. injection Hc as ->.
    rewrite (stats_avgCharge NumberToString [item] [c]).
    + exact Hone.
    + discriminate.
    + cbn. cbn in Hc'. now rewrite Hc'.
Qed.

(** The lone southwest record of the three-row example: its bar and,
    once the southwest is selected, the card. *)
Lemma lone_record_exact_example :
  (safe_page VUndefined [("southwest", 16884.92%float)]
   /\ typed_rows
        (filteredData (parsed example_csv)
           {| region := "southwest"; smoker := "all"; sex := "all" |})
        [("southwest", 16884.92%float)]
   /\ charges_in "southwest" [("southwest", 16884.92%float)] = [16884.92%float]
   /\ inherited "southwest" = false
   /\ PrimFloat.ltb 0 16884.92 = true
   /\ length (filteredData (parsed example_csv)
                {| region := "southwest"; smoker := "all"; sex := "all" |}) = 1)
  /\ (exists bars,
        regionData (fun _ => EmptyString) VUndefined
          (filteredData (parsed example_csv)
             {| region := "southwest"; smoker := "all"; sex := "all" |})
        = Some bars
        /\ {| name := capitalize "southwest"; bar_avgCharge := 16884.92 |} ∈ bars)
  /\ avgCharge (stats (fun _ => EmptyString)
                  (filteredData (parsed example_csv)
                     {| region := "southwest"; smoker := "all"; sex := "all" |}))
     = 16884.92%float.
Proof.
  assert (Hfd : filteredData (parsed example_csv)
                  {| region := "southwest"; smoker := "all"; sex := "all" |}
                = [example_row 19 "female" 27.9 0 "yes" "southwest" 16884.92])
    by (rewrite example_parsed; vm_compute; exact eq_refl).
  assert (H1 : typed_rows
                 (filteredData (parsed example_csv)
                    {| region := "southwest"; smoker := "all"; sex := "all" |})
                 [("southwest", 16884.92%float)]).
  { rewrite Hfd. constructor; [split; reflexivity|constructor]. }
  assert (H5 : length (filteredData (parsed example_csv)
                         {| region := "southwest"; smoker := "all"; sex := "all" |})
               = 1) by (rewrite Hfd; reflexivity).
  split;
    [split; [apply fresh_page_safe|];
     split; [exact H1|];
     split; [reflexivity|];
     split; [reflexivity|];
     split; [reflexivity|exact H5]|].
  destruct (lone_record_exact (fun _ => EmptyString) VUndefined _
              [("southwest", 16884.92%float)] "southwest" 16884.92
              (fresh_page_safe _) H1 eq_refl eq_refl eq_refl) as [Hbar Havg].
  split; [exact Hbar|exact (Havg H5)].
Defined.
